(** * Radiance CRM: extraction and deduplication of client records

    A shallow embedding of the record-extraction and fuzzy-deduplication code
    of [main.py] and [radiance_crm_app.py], and the properties of it that the
    specification states.

    Conventions of the embedding.
    - A Python [str] is a [string]; each [ascii] stands for the code point of
      the same number, so the model covers text in the range U+0000..U+00FF,
      the range the source's own letter class [[a-zA-ZÀ-ÿ]] reaches.
    - A Python [dict] with a fixed set of keys is a record; a [set] is a
      [gset]; a [float] score is a rational number.
    - The libraries the source calls ([re], [rapidfuzz], [dateparser],
      [docx2python]) are not part of the repository. [re] is embedded as a
      small backtracking matcher over the constructs the source's patterns
      use; the others are parameters of the functions that call them. *)

From Stdlib Require Import String Ascii ZArith QArith Qminmax List Bool Lia.
From Stdlib Require Import DecimalString.
From stdpp Require Import base gmap sets list strings sorting.

Local Open Scope string_scope.
Local Open Scope Z_scope.
Local Open Scope list_scope.

Set Warnings "-register-all,-clear-no-such-hyp".

(** ** Characters and the [str] methods the source uses *)

Module Py.

Definition code (c : ascii) : Z := Z.of_N (N_of_ascii c).

Definition between (lo hi : Z) (c : ascii) : bool :=
  (lo <=? code c) && (code c <=? hi).

Definition is_char (a c : ascii) : bool := Ascii.eqb a c.

Definition one_of (cs : string) (c : ascii) : bool :=
  existsb (is_char c) (list_ascii_of_string cs).

(** [\d] on U+0000..U+00FF: the decimal digits. *)
Definition is_digit (c : ascii) : bool := between 48 57 c.

(** [\s], [str.strip] and [str.split]: TAB..CR, FS..US, space, NEL, NBSP. *)
Definition is_space (c : ascii) : bool :=
  between 9 13 c || between 28 32 c || (code c =? 133) || (code c =? 160).

(** Alphabetic characters of U+0000..U+00FF. *)
Definition is_alpha (c : ascii) : bool :=
  between 65 90 c || between 97 122 c
  || (code c =? 170) || (code c =? 181) || (code c =? 186)
  || between 192 214 c || between 216 246 c || between 248 255 c.

(** Numeric characters that are not decimal digits: superscripts and
    vulgar fractions. *)
Definition is_other_numeric (c : ascii) : bool :=
  (code c =? 178) || (code c =? 179) || (code c =? 185) || between 188 190 c.

(** [\w]: alphanumeric characters and the underscore. *)
Definition is_word (c : ascii) : bool :=
  is_alpha c || is_digit c || is_other_numeric c || (code c =? 95).

Definition shift (d : Z) (c : ascii) : ascii :=
  ascii_of_N (Z.to_N (code c + d)).

(** [str.lower] on one character. *)
Definition lower_char (c : ascii) : ascii :=
  if between 65 90 c || between 192 214 c || between 216 222 c
  then shift 32 c else c.

(** Title-case form of one character. U+00DF maps to two letters. The images
    of U+00B5 and U+00FF lie beyond U+00FF; the model leaves these two
    characters as they are. *)
Definition title_char (c : ascii) : string :=
  if between 97 122 c || between 224 246 c || between 248 254 c
  then String (shift (-32) c) ""
  else if code c =? 223 then "Ss"
  else String c "".

Fixpoint lower (s : string) : string :=
  match s with
  | "" => ""
  | String c s' => String (lower_char c) (lower s')
  end.

(** [str.title]: a character that follows a cased character is lowered,
    any other character is put in title case. *)
Fixpoint title_from (previous_is_cased : bool) (s : string) : string :=
  match s with
  | "" => ""
  | String c s' =>
      (if previous_is_cased then String (lower_char c) "" else title_char c)
      +:+ title_from (is_alpha c) s'
  end.

Definition title (s : string) : string := title_from false s.

Fixpoint lstrip (s : string) : string :=
  match s with
  | String c s' => if is_space c then lstrip s' else s
  | "" => ""
  end.

(** Drops the trailing white space: a character is kept when something
    other than white space follows it or it is not white space itself. *)
Fixpoint rstrip (s : string) : string :=
  match s with
  | "" => ""
  | String c s' =>
      match rstrip s' with
      | "" => if is_space c then "" else String c ""
      | t => String c t
      end
  end.

Definition strip (s : string) : string := rstrip (lstrip s).

(** [bool(s)] for a string. *)
Definition truthy (s : string) : bool :=
  match s with "" => false | _ => true end.

(** [s.replace(a, b)] for one-character [a] and [b]. *)
Fixpoint replace_char (a b : ascii) (s : string) : string :=
  match s with
  | "" => ""
  | String c s' => String (if is_char a c then b else c) (replace_char a b s')
  end.

(** [s.split(sep)] for a one-character separator: empty pieces are kept. *)
Fixpoint split_on (sep : ascii) (s : string) : list string :=
  match s with
  | "" => [""]
  | String c s' =>
      let rest := split_on sep s' in
      if is_char sep c then "" :: rest
      else String c (hd "" rest) :: tl rest
  end.

(** [s.split()]: the maximal runs of characters that are not white space.
    [cur] is the run being read, in reverse. *)
Definition flush (cur : list ascii) (acc : list string) : list string :=
  match cur with
  | [] => acc
  | _ => string_of_list_ascii (rev cur) :: acc
  end.

Fixpoint split_ws (cur : list ascii) (s : string) : list string :=
  match s with
  | "" => flush cur []
  | String c s' =>
      if is_space c then flush cur (split_ws [] s')
      else split_ws (c :: cur) s'
  end.

Definition split (s : string) : list string := split_ws [] s.

(** [sep.join(parts)]. *)
Fixpoint join (sep : string) (parts : list string) : string :=
  match parts with
  | [] => ""
  | [p] => p
  | p :: rest => p +:+ sep +:+ join sep rest
  end.

(** [int(s)] for a string of decimal digits. *)
Definition digit_value (c : ascii) : Z := code c - 48.

Definition int (s : string) : Z :=
  fold_left (fun n c => 10 * n + digit_value c) (list_ascii_of_string s) 0.

(** [str(n)] for an integer. *)
Definition str_of_int (n : Z) : string := NilZero.string_of_int (Z.to_int n).

(** [s.zfill(2)] and the format [{n:02d}], for text without a sign. *)
Definition zfill2 (s : string) : string :=
  match s with
  | "" => "00"
  | String c "" => String "0" (String c "")
  | _ => s
  end.

End Py.

(** ** The fragment of [re] the source's patterns use

    Quantifiers are greedy and a match is the first one found by
    backtracking, as in Python. Positions count characters from the start of
    the text, so that a group's text can be cut out of it. *)

Module Re.

Inductive regex :=
| Cls (p : ascii -> bool)                         (* one character of a class *)
| Rep (p : ascii -> bool) (lo : nat) (hi : option nat)  (* class{lo,hi}, class+ *)
| Seq (r1 r2 : regex)
| Opt (r : regex)                                 (* r? *)
| Grp (n : nat) (r : regex)                       (* capturing group n *)
| Bol                                             (* ^ *)
| Eol.                                            (* $ *)

Definition captures := list (nat * string).

(** End position, rest of the text, groups. *)
Definition outcome : Type := nat * string * captures.

Section Matcher.
Variable text : string.

(** [Rep]: take one more character while the class and the upper bound
    allow, and fall back to stopping here when the rest then fails. *)
Fixpoint rep (p : ascii -> bool) (lo : nat) (hi : option nat)
    (pos : nat) (s : string) (k : nat -> string -> option outcome)
    : option outcome :=
  let stop := match lo with O => k pos s | S _ => None end in
  match hi with
  | Some O => stop
  | _ =>
      match s with
      | String c s' =>
          if p c then
            match rep p (Nat.pred lo) (option_map Nat.pred hi) (S pos) s' k with
            | Some r => Some r
            | None => stop
            end
          else stop
      | "" => stop
      end
  end.

Fixpoint run (r : regex) (pos : nat) (s : string) (caps : captures)
    (k : nat -> string -> captures -> option outcome) : option outcome :=
  match r with
  | Cls p =>
      match s with
      | String c s' => if p c then k (S pos) s' caps else None
      | "" => None
      end
  | Rep p lo hi => rep p lo hi pos s (fun pos' s' => k pos' s' caps)
  | Seq r1 r2 =>
      run r1 pos s caps (fun pos1 s1 caps1 => run r2 pos1 s1 caps1 k)
  | Opt r1 =>
      match run r1 pos s caps k with
      | Some o => Some o
      | None => k pos s caps
      end
  | Grp n r1 =>
      run r1 pos s caps (fun pos' s' caps' =>
        k pos' s' ((n, substring pos (pos' - pos) text) :: caps'))
  | Bol => if Nat.eqb pos 0 then k pos s caps else None
  | Eol =>
      match s with
      | "" => k pos s caps
      | String c "" => if Py.is_char "010" c then k pos s caps else None
      | _ => None
      end
  end.

Definition at_pos (r : regex) (pos : nat) (s : string) : option outcome :=
  run r pos s [] (fun pos' s' caps' => Some (pos', s', caps')).

(** The leftmost position from [pos] on where the pattern matches. *)
Fixpoint search_from (r : regex) (pos : nat) (s : string)
    : option (nat * outcome) :=
  match at_pos r pos s with
  | Some o => Some (pos, o)
  | None =>
      match s with
      | String _ s' => search_from r (S pos) s'
      | "" => None
      end
  end.

(** Replaces the successive matches, left to right and without overlap.
    [skip] characters of the current match are still to be passed over.
    The source's patterns never match the empty string; an empty match
    is treated as none. *)
Fixpoint sub_from (r : regex) (repl : string) (pos skip : nat) (s : string)
    : string :=
  match s with
  | "" => ""
  | String c s' =>
      match skip with
      | S skip' => sub_from r repl (S pos) skip' s'
      | O =>
          match at_pos r pos s with
          | Some (e, _, _) =>
              if (pos <? e)%nat
              then repl +:+ sub_from r repl (S pos) (e - pos - 1) s'
              else String c (sub_from r repl (S pos) 0 s')
          | None => String c (sub_from r repl (S pos) 0 s')
          end
      end
  end.

(** The pieces between the successive matches; the head of the result is
    the piece that starts at [pos]. *)
Fixpoint split_from (r : regex) (pos skip : nat) (s : string) : list string :=
  match s with
  | "" => [""]
  | String c s' =>
      match skip with
      | S skip' => split_from r (S pos) skip' s'
      | O =>
          let keep :=
            let rest := split_from r (S pos) 0 s' in
            String c (hd "" rest) :: tl rest in
          match at_pos r pos s with
          | Some (e, _, _) =>
              if (pos <? e)%nat
              then "" :: split_from r (S pos) (e - pos - 1) s'
              else keep
          | None => keep
          end
      end
  end.
End Matcher.

(** A match object: its span and its groups. *)
Record match_obj := { m_start : nat; m_end : nat; m_groups : captures }.

Definition to_match (start : nat) (o : outcome) : match_obj :=
  {| m_start := start; m_end := fst (fst o); m_groups := snd o |}.

(** [re.match(r, text)] *)
Definition rmatch (r : regex) (text : string) : option match_obj :=
  to_match 0%nat <$> at_pos text r 0 text.

(** [re.search(r, text)] *)
Definition search (r : regex) (text : string) : option match_obj :=
  (fun '(start, o) => to_match start o) <$> search_from text r 0 text.

(** [m.group(0)] *)
Definition group0 (text : string) (m : match_obj) : string :=
  substring (m_start m) (m_end m - m_start m) text.

(** [m.group(n)] for [n >= 1]: [None] when the group took no part. *)
Fixpoint group (n : nat) (caps : captures) : option string :=
  match caps with
  | [] => None
  | (k, v) :: rest => if Nat.eqb k n then Some v else group n rest
  end.

(** [re.sub(r, repl, text)] *)
Definition sub (r : regex) (repl text : string) : string :=
  sub_from text r repl 0 0 text.

(** [re.split(r, text)] *)
Definition split (r : regex) (text : string) : list string :=
  split_from text r 0 0 text.

(** Character classes of the patterns. *)
Definition digit : ascii -> bool := Py.is_digit.
Definition non_digit (c : ascii) : bool := negb (Py.is_digit c).
Definition lit (a : ascii) : regex := Cls (Py.is_char a).
Definition exactly (p : ascii -> bool) (n : nat) : regex := Rep p n (Some n).

End Re.

(** ** Phone numbers and names

    [normalize_phone], [extract_phone_from_text], [is_valid_name] and
    [parse_name] are written alike in [main.py] and [radiance_crm_app.py];
    one embedding serves both. *)

Definition sep_class : ascii -> bool :=
  fun c => Py.is_space c || Py.one_of ".-" c.

Definition date_sep : ascii -> bool := Py.one_of "/-.".

(** [normalize_phone]: keeps the digits, and the result only when there are
    at least nine of them. *)
Definition normalize_phone (phone_str : string) : string :=
  if negb (Py.truthy phone_str) then ""
  else
    let digits := Re.sub (Re.Cls Re.non_digit) "" phone_str in
    if (9 <=? String.length digits)%nat then digits else "".

(** The four patterns of [extract_phone_from_text], in the source's order. *)
Definition phone_patterns : list Re.regex :=
  let sep := Re.Rep sep_class 0 (Some 1%nat) in
  let d n := Re.exactly Re.digit n in
  let d24 := Re.Rep Re.digit 2 (Some 4%nat) in
  [ (* 0\d{9} *)
    Re.Seq (Re.lit "0") (d 9%nat);
    (* 0\d{2}[\s\.-]?\d{2}[\s\.-]?\d{2}[\s\.-]?\d{2}[\s\.-]?\d{2} *)
    Re.Seq (Re.lit "0") (Re.Seq (d 2%nat)
      (Re.Seq sep (Re.Seq (d 2%nat) (Re.Seq sep (Re.Seq (d 2%nat)
      (Re.Seq sep (Re.Seq (d 2%nat) (Re.Seq sep (d 2%nat)))))))));
    (* \+?\d{2,4}[\s\.-]?\d{2,4}[\s\.-]?\d{2,4}[\s\.-]?\d{2,4} *)
    Re.Seq (Re.Opt (Re.lit "+")) (Re.Seq d24 (Re.Seq sep (Re.Seq d24
      (Re.Seq sep (Re.Seq d24 (Re.Seq sep d24))))));
    (* \d{9,} *)
    Re.Rep Re.digit 9 None ].

(** The loop over the patterns: it stops at the first pattern that matches
    and whose match normalizes to a phone number. *)
Fixpoint extract_phone_loop (patterns : list Re.regex) (text : string)
    : string * string :=
  match patterns with
  | [] => (text, "")
  | pattern :: rest =>
      match Re.search pattern text with
      | Some m =>
          let phone_candidate := normalize_phone (Re.group0 text m) in
          if Py.truthy phone_candidate
          then (Py.strip (Re.sub pattern "" text), phone_candidate)
          else extract_phone_loop rest text
      | None => extract_phone_loop rest text
      end
  end.

(** [extract_phone_from_text]: the text without the number, and the number. *)
Definition extract_phone_from_text (text : string) : string * string :=
  extract_phone_loop phone_patterns text.

(** The patterns of [is_valid_name]. *)
Definition only_numeric : Re.regex :=     (* ^[\d\s/\-\.]+$ *)
  Re.Seq Re.Bol (Re.Seq
    (Re.Rep (fun c => Py.is_digit c || Py.is_space c || date_sep c) 1 None)
    Re.Eol).

Definition leading_date : Re.regex :=     (* ^\d{1,2}[/\-\.]\d{1,2} *)
  Re.Seq Re.Bol (Re.Seq (Re.Rep Re.digit 1 (Some 2%nat))
    (Re.Seq (Re.Cls date_sep) (Re.Rep Re.digit 1 (Some 2%nat)))).

Definition a_letter : Re.regex :=         (* [a-zA-ZÀ-ÿ] *)
  Re.Cls (fun c => Py.between 97 122 c || Py.between 65 90 c
                   || Py.between 192 255 c).

(** [is_valid_name], on a string argument. *)
Definition is_valid_name (text : string) : bool :=
  if negb (Py.truthy text) then false
  else
    let text := Py.strip text in
    if negb (Py.truthy text) then false
    else if bool_decide (is_Some (Re.rmatch only_numeric text)) then false
    else if bool_decide (is_Some (Re.rmatch leading_date text)) then false
    else if (String.length (Py.strip text) <? 2)%nat then false
    else if bool_decide (is_Some (Re.search a_letter text)) then true
    else false.

(** The two clean-up substitutions of [parse_name]. *)
Definition not_word_space_hyphen : Re.regex :=    (* [^\w\s\-] *)
  Re.Cls (fun c => negb (Py.is_word c || Py.is_space c || Py.is_char "-" c)).

Definition spaces : Re.regex :=                   (* \s+ *)
  Re.Rep Py.is_space 1 None.

(** The text [parse_name] splits into words: the input without its phone
    number, punctuation replaced by spaces, white space collapsed. *)
Definition cleaned_text (text_without_phone : string) : string :=
  Py.strip (Re.sub spaces " " (Re.sub not_word_space_hyphen " " text_without_phone)).

(** [parse_name], on a string argument: (nom, prenom, telephone). *)
Definition parse_name (text : string) : string * string * string :=
  if negb (Py.truthy text) then ("", "", "")
  else
    let text := Py.strip text in
    if negb (is_valid_name text) then ("", "", "")
    else
      let '(text_without_phone, phone) := extract_phone_from_text text in
      let text_without_phone := cleaned_text text_without_phone in
      if negb (Py.truthy text_without_phone) then ("", "", phone)
      else if negb (is_valid_name text_without_phone) then ("", "", "")
      else
        match Py.split text_without_phone with
        | [] => ("", "", phone)
        | [nom] => (Py.title nom, "", phone)
        | nom :: prenom :: _ => (Py.title nom, Py.title prenom, phone)
        end.

(** ** Cells

    A cell of a table, as [docx2python] hands it over: a string, a list of
    cells, or any other object, which the code only looks at through
    [bool(x)] and [str(x)]. *)

Inductive cell :=
| Str (s : string)
| Lst (items : list cell)
| Obj (truth : bool) (text : string).

(** [flatten_cell_content] *)
Fixpoint flatten_cell_content (cell_data : cell) : string :=
  match cell_data with
  | Str s => Py.strip s
  | Lst items =>
      let loop :=
        fix loop (items : list cell) (result : list string) : list string :=
          match items with
          | [] => result
          | item :: rest =>
              let flattened := flatten_cell_content item in
              if Py.truthy flattened then loop rest (result ++ [flattened])
              else loop rest result
          end in
      Py.join " " (loop items [])
  | Obj truth text => if truth then Py.strip text else ""
  end.

(** ** Dates *)

(** Lexicographic order on strings by code point: the order of [sorted]. *)
Definition str_le (a b : string) : Prop := String.leb a b = true.
Definition str_lt (a b : string) : Prop := String.ltb a b = true.

#[global] Instance str_le_dec a b : Decision (str_le a b).
Proof. unfold str_le. apply _. Defined.

(** [sorted(list(s))] for a set of strings. *)
Definition sorted_list (s : gset string) : list string :=
  merge_sort str_le (elements s).

(** [list(s)]: the elements in some order without repetition. Python leaves
    the order open; the model fixes one. *)
Definition list_of_set (s : gset string) : list string := elements s.

(** A [datetime.datetime], of which the code reads the date: the type
    admits calendar dates only. *)
Definition is_leap (y : Z) : bool :=
  ((y mod 4 =? 0) && negb (y mod 100 =? 0)) || (y mod 400 =? 0).

Definition days_in_month (y m : Z) : Z :=
  if m =? 2 then (if is_leap y then 29 else 28)
  else if (m =? 4) || (m =? 6) || (m =? 9) || (m =? 11) then 30
  else 31.

Definition valid_date (y m d : Z) : bool :=
  (1 <=? y) && (y <=? 9999) && (1 <=? m) && (m <=? 12)
  && (1 <=? d) && (d <=? days_in_month y m).

Record datetime := {
  year : Z;
  month : Z;
  day : Z;
  date_ok : valid_date year month day = true
}.

(** [d.strftime('%d/%m/%Y')] *)
Definition date_text (d m y : string) : string :=
  Py.zfill2 d +:+ "/" +:+ Py.zfill2 m +:+ "/" +:+ y.

Definition strftime (dt : datetime) : string :=
  date_text (Py.str_of_int (day dt)) (Py.str_of_int (month dt))
    (Py.str_of_int (year dt)).

(** What a call of [dateparser.parse] does: a date, [None], or an
    exception. *)
Inductive parsed :=
| Parsed (dt : datetime)
| NoDate
| Raised.

(** The tokens of a date cell: separators turned into [|], the text cut at
    [|], the pieces stripped and the empty ones dropped. *)
Definition separators : list ascii := [","; ";"; "010"; "013"]%char.

Definition date_parts (date_text : string) : list string :=
  let date_text :=
    fold_left (fun t sep => Py.replace_char sep "|" t) separators date_text in
  omap (fun d => if Py.truthy (Py.strip d) then Some (Py.strip d) else None)
       (Py.split_on "|" date_text).

Definition in_window (y : Z) : bool := (2000 <=? y) && (y <=? 2030).

Definition digits12 : Re.regex := Re.Rep Re.digit 1 (Some 2%nat).
Definition digits24 : Re.regex := Re.Rep Re.digit 2 (Some 4%nat).

Definition grp (n : nat) (m : Re.match_obj) : string :=
  default "" (Re.group n (Re.m_groups m)).

Module Main.

(** (\d{1,2})[/\.-](\d{1,2})[/\.-](\d{2,4}) *)
Definition dmy_pattern : Re.regex :=
  Re.Seq (Re.Grp 1 digits12) (Re.Seq (Re.Cls date_sep)
    (Re.Seq (Re.Grp 2 digits12) (Re.Seq (Re.Cls date_sep) (Re.Grp 3 digits24)))).

Section Dates.
Variable dateparser_parse : string -> parsed.

(** One turn of the loop of [parse_dates]: the dates the token adds. *)
Definition parse_token (date_str : string) : list string :=
  match dateparser_parse date_str with
  | Raised => []
  | Parsed parsed_date =>
      if in_window (year parsed_date) then [strftime parsed_date] else []
  | NoDate =>
      match Re.search dmy_pattern date_str with
      | Some m =>
          let day := grp 1 m in
          let month := grp 2 m in
          let year := grp 3 m in
          let year :=
            if (String.length year =? 2)%nat
            then (if Py.int year <? 50 then "20" +:+ year else "19" +:+ year)
            else year in
          if in_window (Py.int year) then [date_text day month year] else []
      | None => []
      end
  end.

Fixpoint parse_loop (date_parts : list string) (dates : list string)
    : list string :=
  match date_parts with
  | [] => dates
  | date_str :: rest => parse_loop rest (dates ++ parse_token date_str)
  end.

(** [parse_dates] of [main.py] *)
Definition parse_dates (date_text : string) : list string :=
  if negb (Py.truthy date_text) then []
  else parse_loop (date_parts date_text) [].
End Dates.

End Main.

Module App.

(** (\d{1,2})[/\-\.](\d{1,2})(?:[/\-\.](\d{2,4}))? *)
Definition dmy_pattern : Re.regex :=
  Re.Seq (Re.Grp 1 digits12) (Re.Seq (Re.Cls date_sep)
    (Re.Seq (Re.Grp 2 digits12)
      (Re.Opt (Re.Seq (Re.Cls date_sep) (Re.Grp 3 digits24))))).

Section Dates.
Variable dateparser_parse : string -> parsed.
(** [datetime.now().year] *)
Variable current_year : Z.

(** The regex fall-back, reached when [dateparser] gives no date. *)
Definition fallback (date_str : string) : list string :=
  match Re.search dmy_pattern date_str with
  | Some m =>
      let day := Py.int (grp 1 m) in
      let month := Py.int (grp 2 m) in
      let year :=
        match Re.group 3 (Re.m_groups m) with
        | Some g => if Py.truthy g then Py.int g else current_year
        | None => current_year
        end in
      let year := if year <? 100 then year + 2000 else year in
      if (1 <=? day) && (day <=? 31) && (1 <=? month) && (month <=? 12)
         && in_window year
      then [date_text (Py.str_of_int day) (Py.str_of_int month)
              (Py.str_of_int year)]
      else []
  | None => []
  end.

Definition parse_token (date_str : string) : list string :=
  match dateparser_parse date_str with
  | Parsed parsed_date =>
      if in_window (year parsed_date) then [strftime parsed_date] else []
  | NoDate | Raised => fallback date_str
  end.

Fixpoint parse_loop (date_parts : list string) (dates : list string)
    : list string :=
  match date_parts with
  | [] => dates
  | date_str :: rest => parse_loop rest (dates ++ parse_token date_str)
  end.

(** [parse_dates] of [radiance_crm_app.py] *)
Definition parse_dates (date_text : string) : list string :=
  if negb (Py.truthy date_text) then []
  else list_of_set (list_to_set (parse_loop (date_parts date_text) [])).
End Dates.

End App.

(** ** Client records *)

(** The dictionary [extract_clients_from_docx] builds for one client of one
    row. *)
Record client := {
  nom : string;
  prenom : string;
  telephone : string;
  dates : list string;
  nb_seances : Z;
  source_file : string
}.

(** [merged_client] while [merge_duplicate_clients] fills it: the dates and
    the source files are sets. *)
Module Acc.
Record t := {
  nom : string;
  prenom : string;
  telephone : string;
  dates : gset string;
  source_files : gset string
}.
End Acc.

(** [merged_client] as returned: the dates are a sorted list and
    [nb_seances] is set. *)
Module Merged.
Record t := {
  nom : string;
  prenom : string;
  telephone : string;
  dates : list string;
  source_files : gset string;
  nb_seances : Z
}.
End Merged.

(** [enumerate(l)] *)
Definition enumerate {A} (l : list A) : list (nat * A) := imap pair l.

(** ** Extraction of the rows of a document ([main.py]) *)

Definition row := list cell.
Definition table := list row.

(** [split_clients_in_cell]; the pattern is [[\n\r;]+]. *)
Definition client_separator : Re.regex :=
  Re.Rep (fun c => Py.is_char "010" c || Py.is_char "013" c || Py.is_char ";" c)
         1 None.

Definition split_clients_in_cell (cell_text : string) : list string :=
  if negb (Py.truthy cell_text) then []
  else
    omap (fun c => if Py.truthy (Py.strip c) then Some (Py.strip c) else None)
         (Re.split client_separator cell_text).

Module MainExtract.
Section Extract.
Variable dateparser_parse : string -> parsed.
(** [os.path.basename(filepath)] *)
Variable basename : string.

(** The loop over the columns after the first: all the dates of the row. *)
Fixpoint collect_dates (cells : list cell) (all_dates : list string)
    : list string :=
  match cells with
  | [] => all_dates
  | c :: rest =>
      let date_cell := flatten_cell_content c in
      if Py.truthy date_cell
      then collect_dates rest
             (all_dates ++ Main.parse_dates dateparser_parse date_cell)
      else collect_dates rest all_dates
  end.

(** The loop over the clients of one cell. *)
Fixpoint add_clients (client_texts : list string) (unique_dates : list string)
    (clients : list client) : list client :=
  match client_texts with
  | [] => clients
  | client_text :: rest =>
      let '(nom, prenom, telephone) := parse_name client_text in
      if negb (Py.truthy nom) then add_clients rest unique_dates clients
      else
        add_clients rest unique_dates
          (clients ++ [ {| nom := nom; prenom := prenom;
                           telephone := telephone;
                           dates := unique_dates;
                           nb_seances := Z.of_nat (length unique_dates);
                           source_file := basename |} ])
  end.

(** The body of the loop over the rows of a table. *)
Definition do_row (r : row) (clients : list client) : list client :=
  match r with
  | [] => clients
  | first :: others =>
      let name_cell := flatten_cell_content first in
      if negb (Py.truthy name_cell) || negb (Py.truthy (Py.strip name_cell))
      then clients
      else
        let client_texts := split_clients_in_cell name_cell in
        let all_dates := collect_dates others [] in
        let unique_dates := sorted_list (list_to_set all_dates) in
        add_clients client_texts unique_dates clients
  end.

Definition do_table (t : table) (clients : list client) : list client :=
  fold_left (fun clients r => do_row r clients) t clients.

(** [extract_clients_from_docx]; [doc] is [None] when [docx2python] fails
    to read the file, and the tables of [doc.body] otherwise. *)
Definition extract_clients_from_docx (doc : option (list table))
    : list client :=
  match doc with
  | None => []
  | Some body => fold_left (fun clients t => do_table t clients) body []
  end.
End Extract.

(** [process_all_docx_files]: the files of the directory, each with its name
    and what reading it gives; Word's temporary files are left out. *)
Definition process_all_docx_files (dateparser_parse : string -> parsed)
    (docx_files : list (string * option (list table))) : list client :=
  let docx_files :=
    filter (fun f => negb (String.prefix "~$" (fst f))) docx_files in
  fold_left
    (fun all_clients f =>
       all_clients ++ extract_clients_from_docx dateparser_parse (fst f) (snd f))
    docx_files [].
End MainExtract.

(** ** Deduplication

    [merge_duplicate_clients] is the same in both files up to the similarity
    it calls, which is a parameter here. The loops run over the pairs of
    [enumerate]: when [rest] is [enumerate(clients)] from index [i] on, its
    tail is [enumerate(clients[i+1:], start=i+1)]. *)

(** A cluster: the seed, and the records absorbed in the order of the
    scan. *)
Abbreviation cluster := ((nat * client) * list (nat * client))%type.

Section Merge.
Variable calculate_similarity : client -> client -> Q.
Variable threshold : Z.

Definition similar (client1 client2 : client) : bool :=
  Qle_bool (inject_Z threshold) (calculate_similarity client1 client2).

Definition seed (client1 : client) : Acc.t :=
  {| Acc.nom := nom client1;
     Acc.prenom := prenom client1;
     Acc.telephone := telephone client1;
     Acc.dates := list_to_set (dates client1);
     Acc.source_files := {[ source_file client1 ]} |}.

(** The body of [if similarity >= threshold]. *)
Definition absorb (merged_client : Acc.t) (client2 : client) : Acc.t :=
  {| Acc.nom := Acc.nom merged_client;
     Acc.prenom := Acc.prenom merged_client;
     Acc.telephone :=
       if (String.length (Acc.telephone merged_client)
           <? String.length (telephone client2))%nat
       then telephone client2 else Acc.telephone merged_client;
     Acc.dates := Acc.dates merged_client ∪ list_to_set (dates client2);
     Acc.source_files :=
       Acc.source_files merged_client ∪ {[ source_file client2 ]} |}.

(** The inner loop. *)
Fixpoint scan (client1 : client) (later : list (nat * client))
    (merged_client : Acc.t) (processed : gset nat) : Acc.t * gset nat :=
  match later with
  | [] => (merged_client, processed)
  | (j, client2) :: later' =>
      if decide (j ∈ processed) then scan client1 later' merged_client processed
      else if similar client1 client2
      then scan client1 later' (absorb merged_client client2)
             ({[ j ]} ∪ processed)
      else scan client1 later' merged_client processed
  end.

(** The last statements of the outer loop's body. *)
Definition finish (merged_client : Acc.t) : Merged.t :=
  let dates := sorted_list (Acc.dates merged_client) in
  {| Merged.nom := Acc.nom merged_client;
     Merged.prenom := Acc.prenom merged_client;
     Merged.telephone := Acc.telephone merged_client;
     Merged.dates := dates;
     Merged.source_files := Acc.source_files merged_client;
     Merged.nb_seances := Z.of_nat (length dates) |}.

(** The outer loop. *)
Fixpoint merge_loop (rest : list (nat * client)) (merged : list Merged.t)
    (processed : gset nat) : list Merged.t :=
  match rest with
  | [] => merged
  | (i, client1) :: later =>
      if decide (i ∈ processed) then merge_loop later merged processed
      else
        let '(merged_client, processed) :=
          scan client1 later (seed client1) processed in
        merge_loop later (merged ++ [finish merged_client])
          ({[ i ]} ∪ processed)
  end.

Definition merge_duplicate_clients (clients : list client) : list Merged.t :=
  match clients with
  | [] => []
  | _ => merge_loop (enumerate clients) [] ∅
  end.

(** *** The clusters behind the merged records

    The code keeps no trace of which records went into a merged record.
    [clusters] runs the same two loops and keeps, for each merged record,
    the seed and the records absorbed, each with its index. *)

Fixpoint scan_members (client1 : client) (later : list (nat * client))
    (processed : gset nat) : list (nat * client) :=
  match later with
  | [] => []
  | (j, client2) :: later' =>
      if decide (j ∈ processed) then scan_members client1 later' processed
      else if similar client1 client2
      then (j, client2) :: scan_members client1 later' ({[ j ]} ∪ processed)
      else scan_members client1 later' processed
  end.

Definition members (cl : cluster) : list (nat * client) := cl.1 :: cl.2.

Fixpoint cluster_loop (rest : list (nat * client)) (found : list cluster)
    (processed : gset nat) : list cluster :=
  match rest with
  | [] => found
  | (i, client1) :: later =>
      if decide (i ∈ processed) then cluster_loop later found processed
      else
        let absorbed := scan_members client1 later processed in
        cluster_loop later (found ++ [((i, client1), absorbed)])
          ({[ i ]} ∪ (list_to_set absorbed.*1 ∪ processed))
  end.

Definition clusters (clients : list client) : list cluster :=
  cluster_loop (enumerate clients) [] ∅.

(** The merged record of a cluster: the seed, then the records absorbed
    one after the other. *)
Definition cluster_record (cl : cluster) : Merged.t :=
  finish (fold_left absorb cl.2.*2 (seed cl.1.2)).

(** The indices consumed by the clusters before the [k]-th. *)
Definition consumed_before (k : nat) (found : list cluster) : list nat :=
  (concat (members <$> take k found)).*1.

(** What the scan of a seed absorbs: a record not consumed so far whose
    similarity to the seed meets the threshold. *)
Definition absorbable (client1 : client) (consumed : list nat)
    (x : nat * client) : Prop :=
  (x.1 ∉ consumed) ∧ similar client1 x.2 = true.

#[global] Instance absorbable_dec client1 consumed x :
  Decision (absorbable client1 consumed x).
Proof. unfold absorbable. apply _. Defined.

(** The clusters are those of the greedy scan over [all]: the seed of the
    [k]-th cluster is the first record the earlier clusters left, and the
    cluster absorbs, of the records after its seed, those the earlier
    clusters left and that are similar to the seed. *)
Definition greedy (all : list (nat * client)) (found : list cluster) : Prop :=
  ∀ k cl, found !! k = Some cl →
    ∃ pre later,
      all = pre ++ cl.1 :: later
      ∧ Forall (λ x, x.1 ∈ consumed_before k found) pre
      ∧ (cl.1.1 ∉ consumed_before k found)
      ∧ cl.2 = filter (absorbable cl.1.2 (consumed_before k found)) later.
End Merge.

(** [fuzz.ratio] of [rapidfuzz], which the repository imports: a score
    between 0 and 100. The functions below take it as the parameter
    [ratio]. [indel_ratio] is the documented definition of it, 100 times
    twice the length of a longest common subsequence over the sum of the
    lengths, used to run the functions on examples. *)
Module Fuzz.
Fixpoint lcs_row (x : ascii) (b : list ascii) (prev : list nat)
    (diag left : nat) : list nat :=
  match b, prev with
  | y :: b', up :: prev' =>
      let v := if Ascii.eqb x y then S diag else Nat.max up left in
      v :: lcs_row x b' prev' up v
  | _, _ => []
  end.

Definition lcs (a b : list ascii) : nat :=
  List.last
    (fold_left (fun prev x => lcs_row x b prev 0 0) a (repeat 0%nat (length b)))
    0%nat.

Definition indel_ratio (s1 s2 : string) : Q :=
  let a := list_ascii_of_string s1 in
  let b := list_ascii_of_string s2 in
  match (length a + length b)%nat with
  | O => 100
  | S n => (200 * Z.of_nat (lcs a b)) # Pos.of_succ_nat n
  end.
End Fuzz.

Definition full_name (c : client) : string := nom c +:+ " " +:+ prenom c.

(** [max(a, b)] of Python: the first argument unless the second is
    greater. *)
Definition py_max (a b : Q) : Q := if Qle_bool b a then a else b.

Module MainMerge.
Section Sim.
Variable ratio : string -> string -> Q.

(** [calculate_similarity] of [main.py] *)
Definition calculate_similarity (client1 client2 : client) : Q :=
  let name1 := Py.lower (Py.strip (full_name client1)) in
  let name2 := Py.lower (Py.strip (full_name client2)) in
  ratio name1 name2.

(** [merge_duplicate_clients] of [main.py] *)
Definition merge_duplicate_clients (clients : list client) (threshold : Z)
    : list Merged.t :=
  merge_duplicate_clients calculate_similarity threshold clients.
End Sim.
End MainMerge.

Module AppMerge.
Section Sim.
Variable ratio : string -> string -> Q.

(** [calculate_similarity] of [radiance_crm_app.py] *)
Definition calculate_similarity (c1 c2 : client) : Q :=
  let name1 := Py.strip (full_name c1) in
  let name2 := Py.strip (full_name c2) in
  let name_score := ratio (Py.lower name1) (Py.lower name2) in
  if Py.truthy (telephone c1) && Py.truthy (telephone c2)
     && String.eqb (telephone c1) (telephone c2)
  then py_max name_score 95
  else name_score.

(** [merge_duplicate_clients] of [radiance_crm_app.py] *)
Definition merge_duplicate_clients (clients : list client) (threshold : Z)
    : list Merged.t :=
  merge_duplicate_clients calculate_similarity threshold clients.
End Sim.
End AppMerge.

(** The default of [threshold]: [FUZZY_THRESHOLD] in [main.py], the default
    argument in [radiance_crm_app.py]. *)
Definition FUZZY_THRESHOLD : Z := 85.
Definition MIN_SESSIONS : Z := 2.

(** [filter_loyal_clients]: the list comprehension, as the loop it stands
    for. *)
Fixpoint filter_loyal_clients (clients : list Merged.t) (min_sessions : Z)
    : list Merged.t :=
  match clients with
  | [] => []
  | c :: rest =>
      if min_sessions <=? Merged.nb_seances c
      then c :: filter_loyal_clients rest min_sessions
      else filter_loyal_clients rest min_sessions
  end.

(** The text a cell must flatten to according to the specification's
    contract, with a truthy leaf coerced to its text and a falsy one
    flattened to nothing: the non-empty flattenings of the items of a list,
    joined by single spaces. *)
Fixpoint flatten_spec (cell_data : cell) : string :=
  match cell_data with
  | Str s => Py.strip s
  | Lst items =>
      Py.join " "
        (List.filter Py.truthy (List.map flatten_spec items))
  | Obj truth text => if truth then Py.strip text else ""
  end.

(** Chronological key of a date written [DD/MM/YYYY]: year, month, day. *)
Definition chrono_key (d : string) : Z :=
  Py.int (substring 6 4 d) * 10000 + Py.int (substring 3 2 d) * 100
  + Py.int (substring 0 2 d).

(** ** Extraction of the rows of a document ([radiance_crm_app.py])

    This version reads the first row of a table as its header and finds
    the columns by key words. *)

Module AppExtract.

(** [k in h] for two strings. *)
Fixpoint contains (k h : string) : bool :=
  String.prefix k h
  || match h with
     | String _ h' => contains k h'
     | "" => false
     end.

(** The letter e with an acute accent, U+00E9. *)
Definition e_acute : string := String "233" "".

Definition name_keys : list string :=
  ["nom"; "pr" +:+ e_acute +:+ "nom"; "prenom"; "name"; "client"].

Definition date_keys : list string :=
  ["date"; "s" +:+ e_acute +:+ "ance"; "seance"; "rendez"; "rdv"].

Definition phone_keys : list string :=
  ["tel"; "t" +:+ e_acute +:+ "l"; "phone"; "portable"; "mobile"].

(** [next((i for i, h in enumerate(header_texts) if any(k in h for k in
    keys)), None)], on the pairs of [enumerate]. *)
Fixpoint find_col (keys : list string) (header_texts : list (nat * string))
    : option nat :=
  match header_texts with
  | [] => None
  | (i, h) :: rest =>
      if existsb (λ k, contains k h) keys then Some i
      else find_col keys rest
  end.

Section Extract.
Variable dateparser_parse : string -> parsed.
Variable current_year : Z.
(** [Path(filepath).name] *)
Variable filename : string.

(** The body of the loop over the rows after the header. A look-up that
    fails is a row too short for the column. *)
Definition do_row (name_col : nat) (date_col phone_col : option nat)
    (r : row) (clients : list client) : list client :=
  match r !! name_col with
  | None => clients
  | Some name_cell =>
      let name_text := flatten_cell_content name_cell in
      let '(nom, prenom, phone_from_name) := parse_name name_text in
      if negb (Py.truthy nom) then clients
      else
        let phone :=
          match phone_col ≫= (λ col, r !! col) with
          | Some phone_cell =>
              let phone_text := flatten_cell_content phone_cell in
              if Py.truthy (normalize_phone phone_text)
              then normalize_phone phone_text else phone_from_name
          | None => phone_from_name
          end in
        let dates :=
          match date_col ≫= (λ col, r !! col) with
          | Some date_cell =>
              App.parse_dates dateparser_parse current_year
                (flatten_cell_content date_cell)
          | None => []
          end in
        clients ++ [ {| nom := nom; prenom := prenom; telephone := phone;
                        dates := dates;
                        nb_seances := Z.of_nat (length dates);
                        source_file := filename |} ]
  end.

(** The body of the loop over the tables. *)
Definition do_table (t : table) (clients : list client) : list client :=
  if (length t <? 2)%nat then clients
  else
    let header_row := match t with h :: _ => h | [] => [] end in
    let header_texts :=
      enumerate ((λ cell, Py.lower (flatten_cell_content cell)) <$> header_row) in
    let name_col := find_col name_keys header_texts in
    let date_col := find_col date_keys header_texts in
    let phone_col := find_col phone_keys header_texts in
    match name_col with
    | None => clients
    | Some name_col =>
        fold_left (λ clients r, do_row name_col date_col phone_col r clients)
                  (tl t) clients
    end.

(** [extract_clients_from_docx]; [doc] is [None] when [docx2python] fails,
    and otherwise [doc.body], which this version reads as sections of
    tables. *)
Definition extract_clients_from_docx (doc : option (list (list table)))
    : list client :=
  match doc with
  | None => []
  | Some body =>
      fold_left
        (λ clients body_section,
           fold_left (λ clients t, do_table t clients) body_section clients)
        body []
  end.
End Extract.

(** [process_all_docx_files]: the files with their names. *)
Definition process_all_docx_files (dateparser_parse : string -> parsed)
    (current_year : Z)
    (docx_files : list (string * option (list (list table)))) : list client :=
  fold_left
    (λ all_clients f,
       all_clients
       ++ extract_clients_from_docx dateparser_parse current_year f.1 f.2)
    docx_files [].
End AppExtract.

(** ** Export

    The export functions write files. The model gives the rows they hand
    to the CSV writer after the header, or [None] when they return without
    writing. *)

Module Exports.

(** The key [(-c['nb_seances'], c['nom'], c['prenom'])] and the order of
    Python on such tuples. *)
Definition sort_key (c : Merged.t) : Z * string * string :=
  (- Merged.nb_seances c, Merged.nom c, Merged.prenom c).

Definition key_lt (a b : Z * string * string) : bool :=
  let '(n1, s1, t1) := a in
  let '(n2, s2, t2) := b in
  if n1 =? n2
  then (if String.eqb s1 s2 then String.ltb t1 t2 else String.ltb s1 s2)
  else n1 <? n2.

(** [sorted(clients, key=...)]. The sort of Python is stable: records with
    equal keys keep their order. Insertion from the right, each record
    put before the first record whose key is not smaller, is such a
    sort. *)
Fixpoint insert (c : Merged.t) (l : list Merged.t) : list Merged.t :=
  match l with
  | [] => [c]
  | d :: l' =>
      if key_lt (sort_key d) (sort_key c) then d :: insert c l'
      else c :: l
  end.

Definition sorted_clients (clients : list Merged.t) : list Merged.t :=
  foldr insert [] clients.

Record csv_row := {
  Nom : string;
  Prenom : string;
  Telephone : string;
  Nombre_de_seances : Z
}.

Record odoo_row := {
  Name : string;
  Phone : string;
  Tags : option string;
  Notes : string
}.

Definition client_fidele : string :=
  "Client Fid" +:+ String "232" "" +:+ "le".

Definition notes (nb_seances : string) : string :=
  "Nombre de s" +:+ AppExtract.e_acute +:+ "ances: " +:+ nb_seances.

Definition to_csv_row (c : Merged.t) : csv_row :=
  {| Nom := Merged.nom c; Prenom := Merged.prenom c;
     Telephone := Merged.telephone c;
     Nombre_de_seances := Merged.nb_seances c |}.

(** [export_to_csv] of [main.py], [export_standard_csv] of
    [radiance_crm_app.py] *)
Definition export_to_csv (clients : list Merged.t) : option (list csv_row) :=
  match clients with
  | [] => None
  | _ => Some (to_csv_row <$> sorted_clients clients)
  end.

(** [export_to_odoo_format] of [main.py] *)
Definition export_to_odoo_format (clients : list Merged.t)
    : option (list odoo_row) :=
  match clients with
  | [] => None
  | _ =>
      Some ((λ client,
               let nom_complet :=
                 if Py.truthy (Merged.prenom client)
                 then Merged.prenom client +:+ " " +:+ Merged.nom client
                 else Merged.nom client in
               {| Name := nom_complet; Phone := Merged.telephone client;
                  Tags := Some client_fidele;
                  Notes := notes (Py.str_of_int (Merged.nb_seances client)) |})
            <$> sorted_clients clients)
  end.

(** [export_odoo_csv] of [radiance_crm_app.py] *)
Definition export_odoo_csv (clients : list Merged.t) (include_tags : bool)
    : option (list odoo_row) :=
  match clients with
  | [] => None
  | _ =>
      Some ((λ c,
               let name :=
                 if Py.truthy (Merged.prenom c)
                 then Py.strip (Merged.prenom c +:+ " " +:+ Merged.nom c)
                 else Merged.nom c in
               {| Name := name; Phone := Merged.telephone c;
                  Tags := if include_tags then Some client_fidele else None;
                  Notes := notes (Py.str_of_int (Merged.nb_seances c)) |})
            <$> sorted_clients clients)
  end.





(** [main] of [main.py], up to what it exports. *)
Inductive outcome :=
| NoClient
| NoLoyalClient
| Exported (csv : option (list csv_row)) (odoo : option (list odoo_row)).

Definition main (dateparser_parse : string -> parsed)
    (ratio : string -> string -> Q)
    (docx_files : list (string * option (list table))) : outcome :=
  let all_clients :=
    MainExtract.process_all_docx_files dateparser_parse docx_files in
  match all_clients with
  | [] => NoClient
  | _ =>
      let merged_clients :=
        MainMerge.merge_duplicate_clients ratio all_clients FUZZY_THRESHOLD in
      let loyal_clients := filter_loyal_clients merged_clients MIN_SESSIONS in
      match loyal_clients with
      | [] => NoLoyalClient
      | _ => Exported (export_to_csv loyal_clients)
                      (export_to_odoo_format loyal_clients)
      end
  end.
End Exports.

(** ** Statistics

    [display_statistics] prints; the model gives what it prints. *)

Module Stats.

(** The loop that fills [session_counts]. *)
Definition session_counts (clients : list Merged.t) : gmap Z nat :=
  fold_left
    (λ counts client,
       let nb := Merged.nb_seances client in
       <[nb := (default 0%nat (counts !! nb) + 1)%nat]> counts)
    clients ∅.

(** [sorted(session_counts.keys(), reverse=True)] *)
Definition descending (a b : Z) : Prop := b <= a.

#[global] Instance descending_dec a b : Decision (descending a b).
Proof. unfold descending. apply _. Defined.

Definition keys_descending (counts : gmap Z nat) : list Z :=
  merge_sort descending (elements (dom counts)).

(** [sorted(clients, key=lambda c: c['nb_seances'], reverse=True)]: stable
    too, the records with the same count keep their order. *)
Fixpoint insert (c : Merged.t) (l : list Merged.t) : list Merged.t :=
  match l with
  | [] => [c]
  | d :: l' =>
      if Merged.nb_seances c <? Merged.nb_seances d then d :: insert c l'
      else c :: l
  end.

Definition by_sessions (clients : list Merged.t) : list Merged.t :=
  foldr insert [] clients.

Record report := {
  total : nat;
  distribution : list (Z * nat);
  top_clients : list Merged.t;
  with_phone : nat;
  percent : Z
}.

Definition display_statistics (clients : list Merged.t) : option report :=
  match clients with
  | [] => None
  | _ =>
      let counts := session_counts clients in
      let with_phone :=
        length (List.filter (λ c, Py.truthy (Merged.telephone c)) clients) in
      Some {| total := length clients;
              distribution :=
                (λ nb, (nb, default 0%nat (counts !! nb)))
                <$> keys_descending counts;
              top_clients := take 5 (by_sessions clients);
              with_phone := with_phone;
              percent :=
                Z.of_nat with_phone * 100 / Z.of_nat (length clients) |}
  end.
End Stats.

(** ** Examples *)

(** Two records with the same phone number and unlike names, and a third
    whose name is close to the first's. *)
Definition dupont : client :=
  {| nom := "Dupont"; prenom := "Marie"; telephone := "0601020304";
     dates := ["12/03/2024"]; nb_seances := 1; source_file := "a.docx" |}.

Definition martin : client :=
  {| nom := "Martin"; prenom := "Paul"; telephone := "0601020304";
     dates := ["05/04/2024"]; nb_seances := 1; source_file := "b.docx" |}.

Definition dupon : client :=
  {| nom := "Dupon"; prenom := "Marie"; telephone := "";
     dates := ["19/04/2024"]; nb_seances := 1; source_file := "b.docx" |}.

Definition example_clients : list client := [dupon; dupont; martin].

Definition example_found : list cluster :=
  clusters (AppMerge.calculate_similarity Fuzz.indel_ratio) FUZZY_THRESHOLD
    example_clients.

(** What [dateparser] answers on the tokens of the examples. *)
Definition march_12 : datetime :=
  {| year := 2024; month := 3; day := 12; date_ok := eq_refl |}.

Definition dateparser_example (date_str : string) : parsed :=
  if String.eqb date_str "12/03/2024" then Parsed march_12 else NoDate.

(** A document with one table of one row: a client and two cells of
    dates. *)
Definition example_body : list table :=
  [[ [Str "Dupont Marie 0601020304";
      Lst [Str "12/03/2024, 05/04/2024"; Str "12/03/2024"]] ]].

Definition example_files : list (string * option (list table)) :=
  [("a.docx", Some example_body)].

(** The record extracted from it, and the record merged from that. *)
Definition example_extracted : client :=
  {| nom := "Dupont"; prenom := "Marie"; telephone := "0601020304";
     dates := ["05/04/2024"; "12/03/2024"]; nb_seances := 2;
     source_file := "a.docx" |}.

Definition example_merged : Merged.t :=
  {| Merged.nom := "Dupont"; Merged.prenom := "Marie";
     Merged.telephone := "0601020304";
     Merged.dates := ["05/04/2024"; "12/03/2024"];
     Merged.source_files := {[ "a.docx" ]};
     Merged.nb_seances := 2 |}.

(** A merged record with a given session count. *)
Definition with_count (n : Z) : Merged.t :=
  {| Merged.nom := "Dupont"; Merged.prenom := "Marie";
     Merged.telephone := ""; Merged.dates := [];
     Merged.source_files := ∅; Merged.nb_seances := n |}.

(** A row of [main.py] whose first cell names two clients, and the second
    of the two records it gives. *)
Definition example_row : row :=
  [Str "Dupont Marie 0601020304; Martin Paul"; Str "12/03/2024, 05/04/2024"].

Definition martin_extracted : client :=
  {| nom := "Martin"; prenom := "Paul"; telephone := "";
     dates := ["05/04/2024"; "12/03/2024"]; nb_seances := 2;
     source_file := "a.docx" |}.

(** A document as [radiance_crm_app.py] reads it: a table with a header
    row; and the record merged from it. *)
Definition example_app_table : table :=
  [ [Str "Nom"; Str "Date"];
    [Str "Dupont Marie 0601020304"; Str "12/03/2024"] ].

Definition example_app_files : list (string * option (list (list table))) :=
  [("a.docx", Some [[example_app_table]])].

Definition example_app_merged : Merged.t :=
  {| Merged.nom := "Dupont"; Merged.prenom := "Marie";
     Merged.telephone := "0601020304";
     Merged.dates := ["12/03/2024"];
     Merged.source_files := {[ "a.docx" ]};
     Merged.nb_seances := 1 |}.

(** A table without a name column. *)
Definition example_dates_table : table :=
  [ [Str "Date"]; [Str "12/03/2024"] ].

(** Three loyal clients, and what [display_statistics] shows of them. *)
Definition example_loyal : list Merged.t :=
  [example_merged; with_count 3; with_count 2].

Definition example_report : Stats.report :=
  {| Stats.total := 3;
     Stats.distribution := [(3, 1%nat); (2, 2%nat)];
     Stats.top_clients := [with_count 3; example_merged; with_count 2];
     Stats.with_phone := 1;
     Stats.percent := 33 |}.

(** ** Predicates of the statements *)

(** A date text with a day, a month and a year in range. *)
Definition date_in_range (s : string) : Prop :=
  ∃ d m y : Z,
    s = date_text (Py.str_of_int d) (Py.str_of_int m) (Py.str_of_int y)
    ∧ 1 <= d <= 31 ∧ 1 <= m <= 12 ∧ 2000 <= y <= 2030.

(** What holds of every record the extraction builds: a last name, the
    dates listed once each in increasing order, and their count. *)
Definition well_formed (c : client) : Prop :=
  nom c <> "" ∧ StronglySorted str_lt (dates c)
  ∧ nb_seances c = Z.of_nat (length (dates c)).

(** ** Predicates on text *)

Definition chars (s : string) : list ascii := list_ascii_of_string s.

(** Every character of [s] is in the class [p]; none is. *)
Definition all_chars (p : ascii -> bool) (s : string) : Prop :=
  Forall (λ c, p c = true) (chars s).

Definition no_char (p : ascii -> bool) (s : string) : Prop :=
  Forall (λ c, p c = false) (chars s).

(** [s] has no white space at either end. *)
Definition stripped (s : string) : Prop := Py.strip s = s.

(** The class [[\d\s/\-\.]] of [is_valid_name]. *)
Definition numeric_class (c : ascii) : bool :=
  Py.is_digit c || Py.is_space c || date_sep c.

(** The separators of [split_clients_in_cell] and of [parse_dates], with
    the [|] the latter turns them into. *)
Definition client_sep_class (c : ascii) : bool :=
  Py.is_char "010" c || Py.is_char "013" c || Py.is_char ";" c.

Definition date_sep_class (c : ascii) : bool :=
  existsb (λ sep, Py.is_char sep c) ("|"%char :: separators).

(** A phone number as the code keeps it: nothing, or at least nine
    characters, all digits. *)
Definition phone_shape (phone : string) : Prop :=
  phone = "" ∨ (all_chars Py.is_digit phone ∧ (9 <= String.length phone)%nat).

(** What holds of every record the extraction of [radiance_crm_app.py]
    builds from the file [filename]. *)
Definition app_record_ok (filename : string) (c : client) : Prop :=
  nom c <> ""
  ∧ no_char Py.is_space (nom c) ∧ no_char Py.is_space (prenom c)
  ∧ phone_shape (telephone c)
  ∧ NoDup (dates c) ∧ Forall date_in_range (dates c)
  ∧ nb_seances c = Z.of_nat (length (dates c))
  ∧ source_file c = filename.

(** The order of the export: [c] comes no later than [d] when the key of
    [d] is not smaller than the key of [c]. *)
Definition export_le (c d : Merged.t) : Prop :=
  Exports.key_lt (Exports.sort_key d) (Exports.sort_key c) = false.

(** Records with names as [parse_name] makes them: stripped, and a last
    name. *)
Definition names_ok (c : Merged.t) : Prop :=
  Merged.nom c <> "" ∧ stripped (Merged.nom c) ∧ stripped (Merged.prenom c)
  ∧ stripped (Merged.telephone c).

(** The number of clients with [n] sessions. *)
Definition with_sessions (n : Z) (clients : list Merged.t) : nat :=
  length (filter (λ c, Merged.nb_seances c = n) clients).

(** * Properties *)

(** ** The order of [sorted] on strings *)

Lemma ascii_compare_N (x y : ascii) :
  Ascii.compare x y = (N_of_ascii x ?= N_of_ascii y)%N.
Proof. reflexivity. Qed.

Lemma string_leb_trans (a b c : string) :
  String.leb a b = true -> String.leb b c = true -> String.leb a c = true.
Proof.
  unfold String.leb. revert b c.
  induction a as [|x a IH]; intros [|y b] [|z c]; simpl; try done.
  rewrite !ascii_compare_N.
  destruct (N.compare_spec (N_of_ascii x) (N_of_ascii y)) as [E1|L1|G1];
    try done;
    destruct (N.compare_spec (N_of_ascii y) (N_of_ascii z)) as [E2|L2|G2];
    try done; intros H1 H2.
  - rewrite E1, E2, N.compare_refl. by apply (IH b c).
  - rewrite E1. by rewrite (proj2 (N.compare_lt_iff _ _) L2).
  - rewrite <- E2. by rewrite (proj2 (N.compare_lt_iff _ _) L1).
  - by rewrite (proj2 (N.compare_lt_iff _ _) (N.lt_trans _ _ _ L1 L2)).
Qed.

#[global] Instance str_le_trans : Transitive str_le.
Proof. intros a b c. apply string_leb_trans. Qed.

#[global] Instance str_le_total : Total str_le.
Proof. intros a b. apply String.leb_total. Qed.

#[global] Instance str_le_antisym : AntiSymm (=) str_le.
Proof. intros a b. apply String.leb_antisym. Qed.

Lemma str_lt_le_ne (a b : string) : str_lt a b <-> str_le a b /\ a <> b.
Proof.
  unfold str_lt, str_le, String.ltb, String.leb.
  destruct (String.compare a b) eqn:E; split; try done.
  - intros [_ H]. destruct H. by apply String.compare_eq_iff.
  - intros _. split; [done|]. intros Heq. rewrite Heq in E.
    pose proof (String.compare_antisym b b) as H.
    rewrite E in H. discriminate H.
  - by intros [? _].
Qed.

(** [sorted(list(s))] lists each element of [s] once, in strictly
    increasing order. *)
Lemma sorted_list_perm (s : gset string) : sorted_list s ≡ₚ elements s.
Proof. apply merge_sort_Permutation. Qed.

Lemma sorted_list_elem (s : gset string) (d : string) :
  d ∈ sorted_list s <-> d ∈ s.
Proof. by rewrite sorted_list_perm, elem_of_elements. Qed.

Lemma sorted_list_NoDup (s : gset string) : NoDup (sorted_list s).
Proof. rewrite sorted_list_perm. apply NoDup_elements. Qed.

Lemma sorted_list_length (s : gset string) : length (sorted_list s) = size s.
Proof. by rewrite sorted_list_perm. Qed.

Lemma StronglySorted_strict (l : list string) :
  NoDup l -> StronglySorted str_le l -> StronglySorted str_lt l.
Proof.
  induction 2 as [|x l Hs IH Hx]; constructor.
  - apply IH. by eapply NoDup_cons_1_2.
  - apply Forall_forall. intros y Hy. apply str_lt_le_ne. split.
    + rewrite Forall_forall in Hx. by apply Hx.
    + intros Heq. subst y. apply NoDup_cons_1_1 in H. by apply H.
Qed.

Lemma sorted_list_sorted (s : gset string) :
  StronglySorted str_lt (sorted_list s).
Proof.
  apply StronglySorted_strict; [apply sorted_list_NoDup|].
  apply StronglySorted_merge_sort; apply _.
Qed.

(** A strictly increasing list is the sorted list of its own elements. *)
Lemma sorted_list_id (l : list string) :
  StronglySorted str_lt l -> sorted_list (list_to_set l) = l.
Proof.
  intros Hl.
  assert (Hle : StronglySorted str_le l).
  { induction Hl as [|x l Hs IH Hx]; constructor; [done|].
    eapply Forall_impl; [exact Hx|]. intros y Hy. by apply str_lt_le_ne. }
  assert (Hnd : NoDup l).
  { induction Hl as [|x l Hs IH Hx]; constructor.
    - intros Hin. rewrite Forall_forall in Hx.
      apply Hx, str_lt_le_ne in Hin. by destruct Hin.
    - apply IH. by inversion Hle. }
  apply (StronglySorted_unique str_le).
  - apply StronglySorted_merge_sort; apply _.
  - done.
  - rewrite sorted_list_perm. by apply elements_list_to_set.
Qed.

(** ** [enumerate] *)

Lemma imap_pair_fst {A} (f : nat -> nat) (l : list A) :
  (imap (λ i x, (f i, x)) l).*1 = f <$> seq 0 (length l).
Proof.
  revert f. induction l as [|x l IH]; intros f; [done|].
  simpl. f_equal. rewrite <- fmap_S_seq, <- list_fmap_compose. apply (IH (f ∘ S)).
Qed.

Lemma enumerate_fst {A} (l : list A) : (enumerate l).*1 = seq 0 (length l).
Proof.
  unfold enumerate. etransitivity; [apply (imap_pair_fst (λ i, i) l)|].
  apply list_fmap_id.
Qed.

Lemma imap_pair_snd {A} (f : nat -> nat) (l : list A) :
  (imap (λ i x, (f i, x)) l).*2 = l.
Proof.
  revert f. induction l as [|x l IH]; intros f; [done|].
  simpl. f_equal. apply (IH (f ∘ S)).
Qed.

Lemma enumerate_snd {A} (l : list A) : (enumerate l).*2 = l.
Proof. apply (imap_pair_snd (λ i, i)). Qed.

Lemma enumerate_NoDup {A} (l : list A) : NoDup (enumerate l).*1.
Proof. rewrite enumerate_fst. apply NoDup_seq. Qed.

(** ** The two loops of [merge_duplicate_clients] and their clusters *)

Section MergeFacts.
Variable calculate_similarity : client -> client -> Q.
Variable threshold : Z.

Abbreviation scan := (scan calculate_similarity threshold).
Abbreviation scan_members := (scan_members calculate_similarity threshold).
Abbreviation merge_loop := (merge_loop calculate_similarity threshold).
Abbreviation cluster_loop := (cluster_loop calculate_similarity threshold).
Abbreviation absorbable := (absorbable calculate_similarity threshold).
Abbreviation greedy := (greedy calculate_similarity threshold).
Abbreviation similar := (similar calculate_similarity threshold).

(** The inner loop leaves the seed absorbed with the members, and marks
    the members. *)
Lemma scan_members_spec client1 later acc (P : gset nat) :
  scan client1 later acc P
  = (fold_left absorb (scan_members client1 later P).*2 acc,
     list_to_set (scan_members client1 later P).*1 ∪ P).
Proof.
  revert acc P. induction later as [|[j client2] later IH]; intros acc P; simpl.
  - f_equal. set_solver.
  - case_decide; [apply IH|].
    destruct (similar client1 client2); [|apply IH].
    rewrite IH. simpl. f_equal. set_solver.
Qed.

Lemma cluster_loop_app rest found (P : gset nat) :
  cluster_loop rest found P = found ++ cluster_loop rest [] P.
Proof.
  revert found P. induction rest as [|[i client1] later IH]; intros found P; simpl.
  - by rewrite app_nil_r.
  - case_decide; [apply IH|].
    rewrite IH. rewrite (IH [_]). by rewrite app_assoc.
Qed.

Lemma merge_loop_clusters rest merged (P : gset nat) :
  merge_loop rest merged P
  = merged ++ (cluster_record <$> cluster_loop rest [] P).
Proof.
  revert merged P. induction rest as [|[i client1] later IH]; intros merged P; simpl.
  - by rewrite app_nil_r.
  - case_decide; [apply IH|].
    rewrite scan_members_spec, IH, (cluster_loop_app later [_]), fmap_app.
    by rewrite app_assoc.
Qed.

Lemma merge_duplicate_clients_clusters clients :
  merge_duplicate_clients calculate_similarity threshold clients
  = cluster_record <$> clusters calculate_similarity threshold clients.
Proof.
  unfold merge_duplicate_clients, clusters.
  destruct clients; [done|]. apply merge_loop_clusters.
Qed.

(** Marking a record during a scan does not change what the scan does with
    the records after it: the scan absorbs what was absorbable when it
    started. *)
Lemma scan_members_filter client1 later (P : gset nat) (consumed : list nat) :
  NoDup later.*1 ->
  (∀ x, x ∈ later -> x.1 ∈ P <-> x.1 ∈ consumed) ->
  scan_members client1 later P = filter (absorbable client1 consumed) later.
Proof.
  revert P. induction later as [|[j client2] later IH]; intros P Hnd HP; [done|].
  simpl in *. apply NoDup_cons in Hnd as [Hj Hnd].
  assert (Hrest : ∀ x, x ∈ later -> x.1 ∈ P <-> x.1 ∈ consumed).
  { intros x Hx. apply HP. by right. }
  pose proof (HP (j, client2) ltac:(left)) as Hhead. simpl in Hhead.
  rewrite filter_cons. case_decide as Hin.
  - rewrite decide_False by (intros [? _]; simpl in *; tauto). by apply IH.
  - destruct (similar client1 client2) eqn:Hsim.
    + rewrite decide_True by (split; simpl; [tauto|done]).
      f_equal. apply IH; [done|].
      intros x Hx. rewrite <- (Hrest x Hx).
      assert (x.1 ≠ j). { intros <-. apply Hj. by apply list_elem_of_fmap_2. }
      set_solver.
    + rewrite decide_False by (intros [_ Hs]; simpl in *; congruence).
      by apply IH.
Qed.
Lemma NoDup_fst_inj {A B} (l : list (A * B)) (x y : A * B) :
  NoDup l.*1 -> x ∈ l -> y ∈ l -> x.1 = y.1 -> x = y.
Proof.
  induction l as [|z l IH]; intros Hnd Hx Hy Heq; [by apply elem_of_nil in Hx|].
  simpl in Hnd. apply NoDup_cons in Hnd as [Hz Hnd].
  apply elem_of_cons in Hx as [->|Hx]; apply elem_of_cons in Hy as [->|Hy].
  - done.
  - destruct Hz. rewrite Heq. by apply list_elem_of_fmap_2.
  - destruct Hz. rewrite <- Heq. by apply list_elem_of_fmap_2.
  - by apply IH.
Qed.

Lemma consumed_snoc (found : list cluster) (cl : cluster) :
  concat (members <$> (found ++ [cl]))
  = concat (members <$> found) ++ members cl.
Proof. rewrite fmap_app, concat_app. simpl. by rewrite app_nil_r. Qed.

Lemma greedy_snoc all found (cl : cluster) :
  greedy all found ->
  (∃ pre later,
      all = pre ++ cl.1 :: later
      ∧ Forall (λ x, x.1 ∈ (concat (members <$> found)).*1) pre
      ∧ (cl.1.1 ∉ (concat (members <$> found)).*1)
      ∧ cl.2 = filter (absorbable cl.1.2 (concat (members <$> found)).*1) later) ->
  greedy all (found ++ [cl]).
Proof.
  intros Hg Hcl k cl' Hk. unfold consumed_before.
  destruct (decide (k < length found)%nat) as [Hlt|Hge].
  - rewrite lookup_app_l in Hk by done.
    rewrite take_app_le by lia. by apply Hg.
  - rewrite lookup_app_r in Hk by lia.
    apply list_lookup_singleton_Some in Hk as [Hk ->].
    replace k with (length found) by lia.
    by rewrite take_app_length.
Qed.

(** The invariant of the outer loop: the records marked are those of the
    clusters found, which lie in the input without repetition, and every
    record passed is marked. *)
Lemma cluster_loop_inv all rest pre found (P : gset nat) :
  NoDup all.*1 ->
  all = pre ++ rest ->
  P = list_to_set (concat (members <$> found)).*1 ->
  NoDup (concat (members <$> found)) ->
  concat (members <$> found) ⊆ all ->
  Forall (λ x, x.1 ∈ P) pre ->
  greedy all found ->
  concat (members <$> cluster_loop rest found P) ≡ₚ all
  ∧ greedy all (cluster_loop rest found P).
Proof.
  intros Hall. revert pre found P.
  induction rest as [|[i client1] later IH];
    intros pre found P Hsplit HP Hnd Hsub Hpre Hg; simpl.
  - split; [|done]. rewrite app_nil_r in Hsplit. subst pre.
    apply NoDup_Permutation; [done|by eapply NoDup_fmap_1|].
    intros x. split; [apply Hsub|]. intros Hx.
    rewrite Forall_forall in Hpre. pose proof (Hpre x Hx) as Hm.
    rewrite HP, elem_of_list_to_set in Hm.
    apply list_elem_of_fmap in Hm as (y & Hxy & Hy).
    by rewrite (NoDup_fst_inj all x y Hall Hx (Hsub y Hy) Hxy).
  - assert (Hsplit' : all = (pre ++ [(i, client1)]) ++ later).
    { by rewrite <- app_assoc. }
    assert (Hi : (i ∉ later.*1) ∧ NoDup later.*1).
    { rewrite Hsplit, fmap_app, fmap_cons in Hall.
      apply NoDup_app in Hall as (_ & _ & Hall).
      by apply NoDup_cons in Hall. }
    destruct Hi as [Hi Hlater].
    case_decide as HiP.
    + apply (IH (pre ++ [(i, client1)])); try done.
      apply Forall_app. split; [done|]. by constructor.
    + set (C := concat (members <$> found)) in *.
      assert (Habs : scan_members client1 later P
                     = filter (absorbable client1 C.*1) later).
      { apply scan_members_filter; [done|].
        intros x _. by rewrite HP, elem_of_list_to_set. }
      rewrite Habs.
      set (absorbed := filter (absorbable client1 C.*1) later).
      assert (Hin : ∀ x, x ∈ absorbed -> x ∈ later ∧ x.1 ∉ C.*1).
      { intros x Hx. apply list_elem_of_filter in Hx as [[Hx _] Hl]. done. }
      assert (HiC : i ∉ C.*1).
      { intros HiC. apply HiP. by rewrite HP, elem_of_list_to_set. }
      apply (IH (pre ++ [(i, client1)])); try done.
      * rewrite consumed_snoc. unfold members. simpl. fold C.
        rewrite fmap_app, fmap_cons, list_to_set_app_L, list_to_set_cons.
        simpl. rewrite HP. fold C. set_solver.
      * rewrite consumed_snoc. fold C. apply NoDup_app. split_and!; [done| |].
        -- intros x HxC Hm. unfold members in Hm. simpl in Hm.
           apply elem_of_cons in Hm as [->|Hm].
           ++ apply HiC. by apply (list_elem_of_fmap_2 fst) in HxC.
           ++ apply Hin in Hm as [_ Hm]. apply Hm.
              by apply list_elem_of_fmap_2.
        -- unfold members. simpl. apply NoDup_cons. split.
           ++ intros Hm. apply Hin in Hm as [Hm _]. apply Hi.
              by apply (list_elem_of_fmap_2 fst) in Hm.
           ++ apply NoDup_filter. by eapply NoDup_fmap_1.
      * rewrite consumed_snoc. fold C. intros x Hx.
        apply elem_of_app in Hx as [Hx|Hx]; [by apply Hsub|].
        rewrite Hsplit. unfold members in Hx. simpl in Hx.
        apply elem_of_cons in Hx as [->|Hx]; [set_solver|].
        apply Hin in Hx as [Hx _]. set_solver.
      * apply Forall_app. split.
        -- eapply Forall_impl; [exact Hpre|]. intros x Hx. simpl in Hx. set_solver.
        -- constructor; [|done]. simpl. set_solver.
      * apply greedy_snoc; [done|]. exists pre, later. simpl. fold C.
        split_and!; try done.
        eapply Forall_impl; [exact Hpre|]. intros x Hx. simpl in Hx.
        by rewrite HP, elem_of_list_to_set in Hx.
Qed.

(** The clusters of a list of clients: a partition of the enumerated
    records, found by the greedy scan. *)
Lemma clusters_partition clients :
  concat (members <$> clusters calculate_similarity threshold clients)
    ≡ₚ enumerate clients
  ∧ greedy (enumerate clients) (clusters calculate_similarity threshold clients).
Proof.
  unfold clusters.
  apply (cluster_loop_inv (enumerate clients) (enumerate clients) []);
    try done.
  - apply enumerate_NoDup.
  - constructor.
  - intros x Hx. by apply elem_of_nil in Hx.
Qed.
End MergeFacts.

(** ** Merged records *)

Lemma elem_of_concat {A} (x : A) (ls : list (list A)) :
  x ∈ concat ls <-> ∃ l, l ∈ ls ∧ x ∈ l.
Proof.
  induction ls as [|l ls IH]; simpl.
  - split; [by intros ?%elem_of_nil|]. by intros (l & ?%elem_of_nil & _).
  - rewrite elem_of_app, IH. split.
    + intros [Hx|(l' & Hl' & Hx)]; [exists l|exists l']; split; try done;
        [by left|by right].
    + intros (l' & [->|Hl']%elem_of_cons & Hx); [by left|right; eauto].
Qed.

Lemma fold_absorb_names (l : list client) (acc : Acc.t) :
  Acc.nom (fold_left absorb l acc) = Acc.nom acc
  ∧ Acc.prenom (fold_left absorb l acc) = Acc.prenom acc.
Proof.
  revert acc. induction l as [|c l IH]; intros acc; [done|].
  simpl. by destruct (IH (absorb acc c)) as [-> ->].
Qed.

Lemma finish_dates (acc : Acc.t) :
  NoDup (Merged.dates (finish acc))
  ∧ StronglySorted str_lt (Merged.dates (finish acc))
  ∧ Merged.nb_seances (finish acc) = Z.of_nat (length (Merged.dates (finish acc)))
  ∧ ∀ d, d ∈ Merged.dates (finish acc) <-> d ∈ Acc.dates acc.
Proof.
  simpl. split_and!; [apply sorted_list_NoDup|apply sorted_list_sorted|done|].
  intros d. apply sorted_list_elem.
Qed.

Section MergedFacts.
Variable calculate_similarity : client -> client -> Q.
Variable threshold : Z.

(** Every merged record is the record of a cluster, whose seed is one of
    the clients. *)
Lemma merged_from_cluster clients (m : Merged.t) :
  m ∈ merge_duplicate_clients calculate_similarity threshold clients ->
  ∃ cl, cl ∈ clusters calculate_similarity threshold clients
        ∧ m = cluster_record cl ∧ cl.1.2 ∈ clients.
Proof.
  rewrite merge_duplicate_clients_clusters.
  intros (cl & -> & Hcl)%list_elem_of_fmap. exists cl. split_and!; [done..|].
  destruct (clusters_partition calculate_similarity threshold clients)
    as [Hperm _].
  assert (Hseed : cl.1 ∈ enumerate clients).
  { rewrite <- Hperm. apply elem_of_concat. exists (members cl).
    split; [by apply list_elem_of_fmap_2|by left]. }
  apply (list_elem_of_fmap_2 snd) in Hseed. by rewrite enumerate_snd in Hseed.
Qed.

Lemma merged_dates_facts clients (m : Merged.t) :
  m ∈ merge_duplicate_clients calculate_similarity threshold clients ->
  NoDup (Merged.dates m) ∧ StronglySorted str_lt (Merged.dates m)
  ∧ Merged.nb_seances m = Z.of_nat (length (Merged.dates m)).
Proof.
  intros (cl & _ & -> & _)%merged_from_cluster.
  unfold cluster_record.
  destruct (finish_dates (fold_left absorb cl.2.*2 (seed cl.1.2)))
    as (? & ? & ? & _).
  done.
Qed.

Lemma merged_nom_from_client clients (m : Merged.t) :
  m ∈ merge_duplicate_clients calculate_similarity threshold clients ->
  ∃ c, c ∈ clients ∧ Merged.nom m = nom c ∧ Merged.prenom m = prenom c.
Proof.
  intros (cl & _ & -> & Hc)%merged_from_cluster. exists cl.1.2.
  split; [done|]. unfold cluster_record. simpl.
  by destruct (fold_absorb_names cl.2.*2 (seed cl.1.2)) as [-> ->].
Qed.
End MergedFacts.

(** ** Claims about deduplication *)

(** C2. [merge_duplicate_clients] assigns every input record to exactly one
    cluster. Its output is the list of the records of [clusters]; the
    members of the clusters, put end to end, are a rearrangement of the
    enumerated input, so each record lies in one cluster and in one only;
    and the [k]-th cluster is made of a seed, which is the first record the
    earlier clusters left (all the records before it are consumed, it is
    not), followed by exactly the records after the seed, in input order,
    that the earlier clusters left and whose similarity to the seed meets
    the threshold. *)
Theorem merge_duplicate_clients_partition
    (calculate_similarity : client -> client -> Q) (threshold : Z)
    (clients : list client) :
  let found := clusters calculate_similarity threshold clients in
  merge_duplicate_clients calculate_similarity threshold clients
    = cluster_record <$> found
  ∧ concat (members <$> found) ≡ₚ enumerate clients
  ∧ ∀ k cl, found !! k = Some cl ->
      ∃ pre later,
        enumerate clients = pre ++ cl.1 :: later
        ∧ Forall (λ x, x.1 ∈ consumed_before k found) pre
        ∧ (cl.1.1 ∉ consumed_before k found)
        ∧ cl.2 = filter (absorbable calculate_similarity threshold cl.1.2
                           (consumed_before k found)) later.
Proof.
  simpl. split; [apply merge_duplicate_clients_clusters|].
  apply clusters_partition.
Qed.

(** C7. Deduplication of a single record [r] returns one record with the
    last name, first name and phone of [r], the dates of [r] as a set
    (listed once each), a session count equal to the number of distinct
    dates of [r], and the source file of [r]; when the dates of [r] are
    already listed once each in increasing order, the list of dates is
    unchanged too. *)
Theorem merge_singleton
    (calculate_similarity : client -> client -> Q) (threshold : Z)
    (r : client) :
  ∃ m, merge_duplicate_clients calculate_similarity threshold [r] = [m]
    ∧ Merged.nom m = nom r
    ∧ Merged.prenom m = prenom r
    ∧ Merged.telephone m = telephone r
    ∧ (∀ d, d ∈ Merged.dates m <-> d ∈ dates r)
    ∧ NoDup (Merged.dates m)
    ∧ Merged.nb_seances m
      = Z.of_nat (size (list_to_set (dates r) : gset string))
    ∧ Merged.source_files m = {[ source_file r ]}
    ∧ (StronglySorted str_lt (dates r) ->
       Merged.dates m = dates r
       ∧ Merged.nb_seances m = Z.of_nat (length (dates r))).
Proof.
  exists (finish (seed r)). split_and!; try done.
  - intros d. simpl. rewrite sorted_list_elem. set_solver.
  - apply sorted_list_NoDup.
  - simpl. by rewrite sorted_list_length.
  - intros Hs. simpl. by rewrite (sorted_list_id _ Hs).
Qed.

(** C10. The dates of every record returned by [merge_duplicate_clients]
    are listed once each, in strictly increasing lexicographic order of the
    strings. The order looks at the day digits first and is not
    chronological: a client seen on 15/01/2024 and 01/02/2024 gets the
    dates in the order 01/02/2024, 15/01/2024. *)
Theorem merged_dates_lexicographic :
  (∀ (calculate_similarity : client -> client -> Q) (threshold : Z)
     (clients : list client) (m : Merged.t),
     m ∈ merge_duplicate_clients calculate_similarity threshold clients ->
     NoDup (Merged.dates m) ∧ StronglySorted str_lt (Merged.dates m))
  ∧ (Merged.dates <$>
       MainMerge.merge_duplicate_clients Fuzz.indel_ratio
         [ {| nom := "Dupont"; prenom := "Marie"; telephone := "";
              dates := ["15/01/2024"; "01/02/2024"]; nb_seances := 2;
              source_file := "a.docx" |} ] FUZZY_THRESHOLD
     = [["01/02/2024"; "15/01/2024"]]
     ∧ chrono_key "15/01/2024" < chrono_key "01/02/2024").
Proof.
  split.
  - intros sim th clients m Hm.
    by destruct (merged_dates_facts sim th clients m Hm) as (? & ? & _).
  - split; [by vm_compute|]. by vm_compute.
Qed.

(** ** The phone rule of [calculate_similarity] *)

Lemma py_max_ge (a b : Q) : (b <= py_max a b)%Q.
Proof.
  unfold py_max. destruct (Qle_bool b a) eqn:E.
  - by apply Qle_bool_iff.
  - apply Qle_refl.
Qed.

Lemma truthy_nonempty (s : string) : Py.truthy s = true <-> s <> "".
Proof. by destruct s. Qed.

Lemma app_similarity_phone (ratio : string -> string -> Q) (c1 c2 : client) :
  telephone c1 = telephone c2 -> telephone c1 <> "" ->
  (95 <= AppMerge.calculate_similarity ratio c1 c2)%Q.
Proof.
  intros Heq Hne. unfold AppMerge.calculate_similarity.
  rewrite <- Heq, String.eqb_refl.
  rewrite (proj2 (truthy_nonempty _) Hne). simpl. apply py_max_ge.
Qed.

Lemma app_similar_phone (ratio : string -> string -> Q) (threshold : Z)
    (c1 c2 : client) :
  threshold <= 95 ->
  telephone c1 = telephone c2 -> telephone c1 <> "" ->
  similar (AppMerge.calculate_similarity ratio) threshold c1 c2 = true.
Proof.
  intros Hth Heq Hne. unfold similar. apply Qle_bool_iff.
  apply Qle_trans with (inject_Z 95).
  - by rewrite <- Zle_Qle.
  - by apply app_similarity_phone.
Qed.

(** C1, as stated, fails. In [main.py] the score of two records with the
    same non-empty phone number is the ratio of the names alone, here
    800/23, below 95 and below the threshold, and the two records are not
    merged. In [radiance_crm_app.py] two records with the same phone number
    end in different clusters when an earlier cluster has taken one of
    them. *)
Lemma phone_rule_counterexample :
  (telephone dupont = telephone martin ∧ telephone dupont <> ""
   ∧ MainMerge.calculate_similarity Fuzz.indel_ratio dupont martin = 800 # 23
   ∧ ¬ (95 <= MainMerge.calculate_similarity Fuzz.indel_ratio dupont martin)%Q
   ∧ length (MainMerge.merge_duplicate_clients Fuzz.indel_ratio
               [dupont; martin] FUZZY_THRESHOLD) = 2%nat)
  ∧ (clusters (AppMerge.calculate_similarity Fuzz.indel_ratio) FUZZY_THRESHOLD
       [dupon; dupont; martin]
     = [((0%nat, dupon), [(1%nat, dupont)]); ((2%nat, martin), [])]).
Proof.
  split; [split_and!|]; try by vm_compute.
Qed.

(** C1, amended. In [radiance_crm_app.py] the score of two records whose
    phone numbers are equal and non-empty is at least 95. Consequently, for
    every threshold up to 95 (85 by default), a cluster absorbs every record
    after its seed that the earlier clusters left and that has the seed's
    non-empty phone number, whatever the names; in particular the list of
    two such records is merged into one record. *)
Theorem app_phone_rule :
  (∀ (ratio : string -> string -> Q) (c1 c2 : client),
     telephone c1 = telephone c2 -> telephone c1 <> "" ->
     (95 <= AppMerge.calculate_similarity ratio c1 c2)%Q)
  ∧ (∀ (ratio : string -> string -> Q) (threshold : Z) (clients : list client)
       (k : nat) (cl : cluster),
       threshold <= 95 ->
       clusters (AppMerge.calculate_similarity ratio) threshold clients !! k
         = Some cl ->
       ∃ pre later,
         enumerate clients = pre ++ cl.1 :: later
         ∧ ∀ x, x ∈ later ->
             x.1 ∉ consumed_before k
                     (clusters (AppMerge.calculate_similarity ratio)
                        threshold clients) ->
             telephone cl.1.2 = telephone x.2 -> telephone cl.1.2 <> "" ->
             x ∈ cl.2)
  ∧ (∀ (ratio : string -> string -> Q) (threshold : Z) (c1 c2 : client),
       threshold <= 95 ->
       telephone c1 = telephone c2 -> telephone c1 <> "" ->
       clusters (AppMerge.calculate_similarity ratio) threshold [c1; c2]
         = [((0%nat, c1), [(1%nat, c2)])]
       ∧ ∃ m, AppMerge.merge_duplicate_clients ratio [c1; c2] threshold = [m]).
Proof.
  split_and!.
  - apply app_similarity_phone.
  - intros ratio threshold clients k cl Hth Hk.
    destruct (clusters_partition (AppMerge.calculate_similarity ratio)
                threshold clients) as [_ Hg].
    destruct (Hg k cl Hk) as (pre & later & Hsplit & _ & _ & Hfilter).
    exists pre, later. split; [done|].
    intros x Hx Hfree Htel Hne. rewrite Hfilter.
    apply list_elem_of_filter. split; [|done]. split; [done|].
    by apply app_similar_phone.
  - intros ratio threshold c1 c2 Hth Htel Hne.
    assert (Hc : clusters (AppMerge.calculate_similarity ratio) threshold
                   [c1; c2] = [((0%nat, c1), [(1%nat, c2)])]).
    { unfold clusters, enumerate. simpl.
      by rewrite (app_similar_phone ratio threshold c1 c2 Hth Htel Hne). }
    split; [done|]. unfold AppMerge.merge_duplicate_clients.
    rewrite merge_duplicate_clients_clusters, Hc. by eexists.
Qed.

(** ** The loyalty filter *)

(** C9. [filter_loyal_clients] returns the records of its input whose
    session count is at least [min_sessions], in the order of the input and
    as they are: it is the filter of the input by that test, a sublist of
    the input, with the records that pass the test as members. Records with
    the counts 1, 2, 3 and [min_sessions = 2] give the second and the third
    record. *)
Theorem filter_loyal_clients_exact :
  (∀ (clients : list Merged.t) (min_sessions : Z),
     let loyal := filter_loyal_clients clients min_sessions in
     loyal = filter (λ c, min_sessions <= Merged.nb_seances c) clients
     ∧ sublist loyal clients
     ∧ ∀ c, c ∈ loyal <-> c ∈ clients ∧ min_sessions <= Merged.nb_seances c)
  ∧ (∀ c1 c2 c3 : Merged.t,
       Merged.nb_seances c1 = 1 -> Merged.nb_seances c2 = 2 ->
       Merged.nb_seances c3 = 3 ->
       filter_loyal_clients [c1; c2; c3] MIN_SESSIONS = [c2; c3]).
Proof.
  assert (Hfilter : ∀ clients min_sessions,
    filter_loyal_clients clients min_sessions
    = filter (λ c, min_sessions <= Merged.nb_seances c) clients).
  { intros clients min_sessions. induction clients as [|c clients IH]; [done|].
    simpl. rewrite filter_cons, IH.
    destruct (Z.leb_spec min_sessions (Merged.nb_seances c)).
    - by rewrite decide_True.
    - by rewrite decide_False by lia. }
  split.
  - intros clients min_sessions. simpl. rewrite Hfilter. split_and!; [done| |].
    + apply sublist_filter.
    + intros c. rewrite list_elem_of_filter. tauto.
  - intros c1 c2 c3 H1 H2 H3. simpl. by rewrite H1, H2, H3.
Qed.

(** ** Cells *)

(** C8, as stated, fails: a leaf that is neither a string nor a list and
    that is falsy, such as the integer 0, is flattened to the empty string
    and not to its text. *)
Lemma flatten_falsy_leaf :
  flatten_cell_content (Obj false "0") = ""
  ∧ flatten_cell_content (Obj false "0") <> Py.strip "0"
  ∧ flatten_cell_content (Lst [Str "a"; Obj false "0"; Str "b"]) = "a b".
Proof. split_and!; by vm_compute. Qed.

Lemma flatten_loop_spec (items : list cell) (result : list string) :
  Forall (λ c, flatten_cell_content c = flatten_spec c) items ->
  (fix loop (items : list cell) (result : list string) : list string :=
     match items with
     | [] => result
     | item :: rest =>
         if Py.truthy (flatten_cell_content item)
         then loop rest (result ++ [flatten_cell_content item])
         else loop rest result
     end) items result
  = result ++ List.filter Py.truthy (List.map flatten_spec items).
Proof.
  intros H. revert result.
  induction H as [|item rest Hitem _ IH]; intros result; simpl.
  - by rewrite app_nil_r.
  - rewrite <- Hitem. destruct (Py.truthy (flatten_cell_content item)).
    + rewrite IH. by rewrite <- app_assoc.
    + apply IH.
Qed.

(** Induction on cells, with the hypothesis for every item of a list. *)
Lemma cell_rect_items (P : cell -> Prop) :
  (∀ s, P (Str s)) ->
  (∀ items, Forall P items -> P (Lst items)) ->
  (∀ truth text, P (Obj truth text)) ->
  ∀ c, P c.
Proof.
  intros HStr HLst HObj.
  fix cell_ind 1. intros [s|items|truth text]; [apply HStr| |apply HObj].
  apply HLst. induction items as [|item items IH]; constructor; [|done].
  apply cell_ind.
Qed.

(** C8, amended. For every cell value [flatten_cell_content] returns a
    string, built depth first: a string gives itself stripped; a list gives
    the non-empty flattenings of its items, in order, joined by single
    spaces; any other leaf gives its text stripped when it is truthy and
    the empty string when it is falsy. *)
Theorem flatten_cell_content_spec (cell_data : cell) :
  flatten_cell_content cell_data = flatten_spec cell_data.
Proof.
  induction cell_data as [s|items IH|truth text] using cell_rect_items;
    [done| |done].
  simpl. f_equal. by rewrite (flatten_loop_spec items [] IH).
Qed.

(** ** Dates *)

Lemma days_in_month_le (y m : Z) : days_in_month y m <= 31.
Proof. unfold days_in_month. repeat case_match; lia. Qed.

Lemma datetime_bounds (dt : datetime) :
  1 <= day dt <= 31 ∧ 1 <= month dt <= 12.
Proof.
  pose proof (date_ok dt) as H. unfold valid_date in H.
  pose proof (days_in_month_le (year dt) (month dt)).
  repeat (apply andb_prop in H as [H ?]). lia.
Qed.

Lemma strftime_in_range (dt : datetime) :
  in_window (year dt) = true -> date_in_range (strftime dt).
Proof.
  intros Hw. exists (day dt), (month dt), (year dt).
  pose proof (datetime_bounds dt). unfold in_window in Hw.
  split_and!; try done; lia.
Qed.

Section AppDates.
Variable dateparser_parse : string -> parsed.
Variable current_year : Z.

Lemma app_fallback_in_range (date_str s : string) :
  s ∈ App.fallback current_year date_str -> date_in_range s.
Proof.
  unfold App.fallback. destruct (Re.search App.dmy_pattern date_str) as [m|];
    [|by intros ?%elem_of_nil].
  match goal with |- context [if ?c then _ else _] => destruct c eqn:Hc end;
    [|by intros ?%elem_of_nil].
  intros ->%list_elem_of_singleton. unfold in_window in Hc.
  eexists _, _, _. split; [reflexivity|]. lia.
Qed.

Lemma app_parse_token_in_range (date_str s : string) :
  s ∈ App.parse_token dateparser_parse current_year date_str ->
  date_in_range s.
Proof.
  unfold App.parse_token. destruct (dateparser_parse date_str) as [dt| |].
  - destruct (in_window (year dt)) eqn:Hw; [|by intros ?%elem_of_nil].
    intros ->%list_elem_of_singleton. by apply strftime_in_range.
  - apply app_fallback_in_range.
  - apply app_fallback_in_range.
Qed.

Lemma app_parse_loop_elem (parts dates : list string) (s : string) :
  s ∈ App.parse_loop dateparser_parse current_year parts dates ->
  s ∈ dates
  ∨ ∃ date_str, date_str ∈ parts
      ∧ s ∈ App.parse_token dateparser_parse current_year date_str.
Proof.
  revert dates. induction parts as [|p parts IH]; intros dates; simpl; [auto|].
  intros [[Hs|Hs]%elem_of_app|(t & Ht & Hs)]%IH.
  - by left.
  - right. exists p. split; [by left|done].
  - right. exists t. split; [by right|done].
Qed.

(** [parse_dates] of [radiance_crm_app.py] returns dates in range only. *)
Lemma app_parse_dates_in_range (date_text s : string) :
  s ∈ App.parse_dates dateparser_parse current_year date_text ->
  date_in_range s.
Proof.
  unfold App.parse_dates, list_of_set.
  destruct (Py.truthy date_text); simpl; [|by intros ?%elem_of_nil].
  rewrite elem_of_elements, elem_of_list_to_set.
  intros [?%elem_of_nil|(t & _ & Hs)]%app_parse_loop_elem; [done|].
  by eapply app_parse_token_in_range.
Qed.

Lemma app_parse_dates_NoDup (date_text : string) :
  NoDup (App.parse_dates dateparser_parse current_year date_text).
Proof.
  unfold App.parse_dates, list_of_set.
  destruct (Py.truthy date_text); simpl; [apply NoDup_elements|constructor].
Qed.
End AppDates.

(** What [parse_dates] of [main.py] does guarantee: the year of every date
    it returns lies in the window. *)
Lemma int_str_in_window (n : Z) :
  in_window n = true -> Py.int (Py.str_of_int n) = n.
Proof.
  intros Hw. unfold in_window in Hw.
  assert (Hcases : ∃ k : nat, (k < 31)%nat ∧ n = Z.of_nat k + 2000).
  { exists (Z.to_nat (n - 2000)). lia. }
  destruct Hcases as (k & Hk & ->).
  do 31 (destruct k as [|k]; [by vm_compute|]).
  lia.
Qed.

Lemma main_parse_token_year (dateparser_parse : string -> parsed)
    (date_str s : string) :
  s ∈ Main.parse_token dateparser_parse date_str ->
  ∃ d m y, s = date_text d m y ∧ in_window (Py.int y) = true.
Proof.
  unfold Main.parse_token. destruct (dateparser_parse date_str) as [dt| |].
  - destruct (in_window (year dt)) eqn:Hw; [|by intros ?%elem_of_nil].
    intros ->%list_elem_of_singleton. eexists _, _, _. split; [reflexivity|].
    by rewrite int_str_in_window.
  - destruct (Re.search Main.dmy_pattern date_str) as [m|];
      [|by intros ?%elem_of_nil].
    match goal with |- context [if in_window ?y then _ else _] =>
      destruct (in_window y) eqn:Hw end; [|by intros ?%elem_of_nil].
    intros ->%list_elem_of_singleton. eexists _, _, _. by split.
  - by intros ?%elem_of_nil.
Qed.

Lemma main_parse_loop_elem (dateparser_parse : string -> parsed)
    (parts dates : list string) (s : string) :
  s ∈ Main.parse_loop dateparser_parse parts dates ->
  s ∈ dates
  ∨ ∃ date_str, date_str ∈ parts
      ∧ s ∈ Main.parse_token dateparser_parse date_str.
Proof.
  revert dates. induction parts as [|p parts IH]; intros dates; simpl; [auto|].
  intros [[Hs|Hs]%elem_of_app|(t & Ht & Hs)]%IH.
  - by left.
  - right. exists p. split; [by left|done].
  - right. exists t. split; [by right|done].
Qed.

Lemma main_parse_dates_year_window (dateparser_parse : string -> parsed)
    (text s : string) :
  s ∈ Main.parse_dates dateparser_parse text ->
  ∃ d m y, s = date_text d m y ∧ in_window (Py.int y) = true.
Proof.
  unfold Main.parse_dates.
  destruct (Py.truthy text); simpl; [|by intros ?%elem_of_nil].
  intros [?%elem_of_nil|(t & _ & Hs)]%main_parse_loop_elem; [done|].
  by eapply main_parse_token_year.
Qed.

(** The day of a date in range is written with two digits, the first of
    which is at most 3. *)
Lemma day_digits (d : Z) :
  1 <= d <= 31 ->
  ∃ a b, Py.zfill2 (Py.str_of_int d) = String a (String b "")
         ∧ Py.code a <= 51.
Proof.
  intros Hd.
  assert (Hcases : ∃ n : nat, (n < 31)%nat ∧ d = Z.of_nat n + 1).
  { exists (Z.to_nat (d - 1)). lia. }
  destruct Hcases as (n & Hn & ->).
  do 31 (destruct n as [|n];
         [eexists _, _; split; [by vm_compute|by vm_compute]|]).
  lia.
Qed.

Lemma day_99_not_in_range : ¬ date_in_range "99/99/2020".
Proof.
  intros (d & m & y & Heq & Hd & _).
  destruct (day_digits d Hd) as (a & b & Hab & Ha).
  unfold date_text in Heq. rewrite Hab in Heq. simpl in Heq.
  injection Heq as <- _. vm_compute in Ha. by apply Ha.
Qed.

(** C3 holds for [parse_dates] of [radiance_crm_app.py]
    ([app_parse_dates_in_range]) and fails for [parse_dates] of [main.py]:
    its regex fall-back checks the year and neither the day nor the month.
    When [dateparser] finds no date in the token [99/99/2020], the token is
    returned as a date, with a day and a month out of range. *)
Theorem main_parse_dates_out_of_range (dateparser_parse : string -> parsed) :
  dateparser_parse "99/99/2020" = NoDate ->
  Main.parse_dates dateparser_parse "99/99/2020" = ["99/99/2020"]
  ∧ ¬ date_in_range "99/99/2020".
Proof.
  intros Hnone. split; [|apply day_99_not_in_range].
  unfold Main.parse_dates.
  replace (date_parts "99/99/2020") with ["99/99/2020"] by by vm_compute.
  simpl. unfold Main.parse_token. rewrite Hnone. by vm_compute.
Qed.

Lemma main_parse_dates_out_of_range_witness :
  Main.parse_dates (λ _, NoDate) "99/99/2020" = ["99/99/2020"]
  ∧ ¬ date_in_range "99/99/2020".
Proof. by apply (main_parse_dates_out_of_range (λ _, NoDate)). Defined.

(** C5, as stated, fails for [parse_dates] of [main.py], which returns the
    accepted dates token by token: a date written twice comes twice. *)
Lemma main_parse_dates_repeats :
  Main.parse_dates dateparser_example "12/03/2024, 12/03/2024"
    = ["12/03/2024"; "12/03/2024"]
  ∧ ¬ NoDup (Main.parse_dates dateparser_example "12/03/2024, 12/03/2024").
Proof.
  assert (H : Main.parse_dates dateparser_example "12/03/2024, 12/03/2024"
              = ["12/03/2024"; "12/03/2024"]) by by vm_compute.
  split; [done|]. rewrite H. intros [Hin _]%NoDup_cons. apply Hin. by left.
Qed.

(** ** The records of the extraction of [main.py] *)

Lemma StronglySorted_str_lt_NoDup (l : list string) :
  StronglySorted str_lt l -> NoDup l.
Proof.
  induction 1 as [|x l Hs IH Hx]; constructor; [|done].
  intros Hin. rewrite Forall_forall in Hx.
  apply Hx, str_lt_le_ne in Hin. by destruct Hin.
Qed.

Lemma fold_left_Forall {A B} (P : A -> Prop) (f : list A -> B -> list A)
    (l : list B) (init : list A) :
  (∀ acc x, Forall P acc -> Forall P (f acc x)) ->
  Forall P init -> Forall P (fold_left f l init).
Proof.
  intros Hf. revert init. induction l as [|x l IH]; intros init Hinit; [done|].
  simpl. by apply IH, Hf.
Qed.

Section ExtractFacts.
Variable dateparser_parse : string -> parsed.

Lemma add_clients_well_formed basename client_texts unique_dates clients :
  StronglySorted str_lt unique_dates ->
  Forall well_formed clients ->
  Forall well_formed
    (MainExtract.add_clients basename client_texts unique_dates clients).
Proof.
  intros Hs. revert clients.
  induction client_texts as [|t texts IH]; intros clients Hc; [done|].
  simpl. destruct (parse_name t) as [[n p] tel].
  destruct (Py.truthy n) eqn:Hn; simpl; [|by apply IH].
  apply IH, Forall_app. split; [done|]. constructor; [|done].
  split_and!; try done. simpl. by apply truthy_nonempty.
Qed.

Lemma do_row_well_formed basename (r : row) clients :
  Forall well_formed clients ->
  Forall well_formed (MainExtract.do_row dateparser_parse basename r clients).
Proof.
  intros Hc. unfold MainExtract.do_row. destruct r as [|first others]; [done|].
  case_match; [done|].
  apply add_clients_well_formed; [apply sorted_list_sorted|done].
Qed.

Lemma extract_well_formed basename doc :
  Forall well_formed
    (MainExtract.extract_clients_from_docx dateparser_parse basename doc).
Proof.
  destruct doc as [body|]; [|constructor]. simpl.
  apply fold_left_Forall; [|constructor].
  intros acc t Hacc. unfold MainExtract.do_table.
  apply fold_left_Forall; [|done].
  intros acc' r Hacc'. by apply do_row_well_formed.
Qed.

Lemma process_all_well_formed docx_files :
  Forall well_formed
    (MainExtract.process_all_docx_files dateparser_parse docx_files).
Proof.
  unfold MainExtract.process_all_docx_files.
  apply fold_left_Forall; [|constructor].
  intros acc f Hacc. apply Forall_app. split; [done|].
  apply extract_well_formed.
Qed.
End ExtractFacts.

(** C5, amended. For every input text, [parse_dates] of
    [radiance_crm_app.py] returns a list without duplicates. [parse_dates]
    of [main.py] may repeat a date; its caller
    [extract_clients_from_docx] removes the repetitions, and every record
    it builds lists its dates once each. *)
Theorem parse_dates_deduplicated :
  (∀ (dateparser_parse : string -> parsed) (current_year : Z)
     (date_text : string),
     NoDup (App.parse_dates dateparser_parse current_year date_text))
  ∧ (∀ (dateparser_parse : string -> parsed) (basename : string)
       (doc : option (list table)) (c : client),
       c ∈ MainExtract.extract_clients_from_docx dateparser_parse basename doc ->
       NoDup (dates c)).
Proof.
  split; [apply app_parse_dates_NoDup|].
  intros dp basename doc c Hc.
  pose proof (extract_well_formed dp basename doc) as Hwf.
  rewrite Forall_forall in Hwf. destruct (Hwf c Hc) as (_ & Hs & _).
  by apply StronglySorted_str_lt_NoDup.
Qed.

(** C4. Every merged record of the pipeline of [main.py], the
    deduplication of the records extracted from the documents, has a
    non-empty last name, and its session count is the number of its dates,
    which are listed once each: the number of distinct dates. *)
Theorem pipeline_record_invariant
    (dateparser_parse : string -> parsed) (ratio : string -> string -> Q)
    (docx_files : list (string * option (list table))) (threshold : Z)
    (m : Merged.t) :
  m ∈ MainMerge.merge_duplicate_clients ratio
        (MainExtract.process_all_docx_files dateparser_parse docx_files)
        threshold ->
  Merged.nom m <> ""
  ∧ NoDup (Merged.dates m)
  ∧ Merged.nb_seances m = Z.of_nat (length (Merged.dates m))
  ∧ Merged.nb_seances m
    = Z.of_nat (size (list_to_set (Merged.dates m) : gset string)).
Proof.
  intros Hm. unfold MainMerge.merge_duplicate_clients in Hm.
  destruct (merged_dates_facts _ _ _ _ Hm) as (Hnd & _ & Hnb).
  destruct (merged_nom_from_client _ _ _ _ Hm) as (c & Hc & Hnom & _).
  pose proof (process_all_well_formed dateparser_parse docx_files) as Hwf.
  rewrite Forall_forall in Hwf. destruct (Hwf c Hc) as (Hne & _).
  split_and!; try done; [by rewrite Hnom|].
  rewrite Hnb. f_equal. symmetry. by apply size_list_to_set.
Qed.

(** ** Names *)

(** C6, as stated, fails: the cleaned text of
    [0601020304 1-2 Dupont Marie] without its phone number splits into the
    three words [1-2], [Dupont], [Marie], and [parse_name] returns no name,
    because the second call of [is_valid_name] rejects a text that starts
    like a date. *)
Lemma parse_name_counterexample :
  let text := "0601020304 1-2 Dupont Marie" in
  Py.split (cleaned_text (extract_phone_from_text (Py.strip text)).1)
    = ["1-2"; "Dupont"; "Marie"]
  ∧ parse_name text = ("", "", "")
  ∧ parse_name text <> (Py.title "1-2", Py.title "Dupont", "0601020304").
Proof. split_and!; by vm_compute. Qed.

Lemma is_valid_name_nonempty (text : string) :
  is_valid_name text = true -> text <> "".
Proof. by intros H ->. Qed.

Lemma strip_nonempty (text : string) : Py.strip text <> "" -> text <> "".
Proof. by intros H ->. Qed.

(** C6, amended. For every input that [is_valid_name] accepts and whose
    cleaned text without the phone number [is_valid_name] accepts too, when
    that text splits into two words or more, [parse_name] returns the first
    word in title case as the last name, the second word in title case as
    the first name, and the phone number found; the other words are
    dropped. In particular [parse_name("Dupont Marie 0601020304")] is
    [("Dupont", "Marie", "0601020304")]. *)
Theorem parse_name_two_words :
  (∀ (text text_without_phone phone word1 word2 : string)
     (others : list string),
     is_valid_name (Py.strip text) = true ->
     extract_phone_from_text (Py.strip text) = (text_without_phone, phone) ->
     is_valid_name (cleaned_text text_without_phone) = true ->
     Py.split (cleaned_text text_without_phone) = word1 :: word2 :: others ->
     parse_name text = (Py.title word1, Py.title word2, phone))
  ∧ parse_name "Dupont Marie 0601020304" = ("Dupont", "Marie", "0601020304").
Proof.
  split; [|by vm_compute].
  intros text twp phone word1 word2 others Hv1 Hphone Hv2 Hsplit.
  unfold parse_name.
  rewrite (proj2 (truthy_nonempty text))
    by by apply strip_nonempty, is_valid_name_nonempty.
  simpl. rewrite Hv1, Hphone. simpl.
  rewrite (proj2 (truthy_nonempty _) (is_valid_name_nonempty _ Hv2)).
  simpl. by rewrite Hv2, Hsplit.
Qed.

(** ** The theorems on the examples *)

Lemma app_phone_rule_witness :
  (95 <= AppMerge.calculate_similarity Fuzz.indel_ratio dupont martin)%Q
  ∧ (∃ pre later,
       enumerate [dupon; dupont; martin] = pre ++ (2%nat, martin) :: later
       ∧ ∀ x, x ∈ later ->
           x.1 ∉ consumed_before 1
                   (clusters (AppMerge.calculate_similarity Fuzz.indel_ratio)
                      FUZZY_THRESHOLD [dupon; dupont; martin]) ->
           telephone martin = telephone x.2 -> telephone martin <> "" ->
           x ∈ [])
  ∧ clusters (AppMerge.calculate_similarity Fuzz.indel_ratio) FUZZY_THRESHOLD
      [dupont; martin]
    = [((0%nat, dupont), [(1%nat, martin)])].
Proof.
  destruct app_phone_rule as (H1 & H2 & H3). split_and!.
  - apply (H1 Fuzz.indel_ratio dupont martin); [reflexivity|discriminate].
  - apply (H2 Fuzz.indel_ratio FUZZY_THRESHOLD [dupon; dupont; martin] 1%nat
             ((2%nat, martin), [])); [discriminate|reflexivity].
  - apply (H3 Fuzz.indel_ratio FUZZY_THRESHOLD dupont martin);
      [discriminate|reflexivity|discriminate].
Defined.

Lemma merge_duplicate_clients_partition_witness :
  ∃ pre later,
    enumerate example_clients = pre ++ (2%nat, martin) :: later
    ∧ Forall (λ x, x.1 ∈ consumed_before 1 example_found) pre
    ∧ (2%nat ∉ consumed_before 1 example_found)
    ∧ [] = filter (absorbable (AppMerge.calculate_similarity Fuzz.indel_ratio)
                     FUZZY_THRESHOLD martin
                     (consumed_before 1 example_found)) later.
Proof.
  apply (proj2 (proj2 (merge_duplicate_clients_partition
                         (AppMerge.calculate_similarity Fuzz.indel_ratio)
                         FUZZY_THRESHOLD example_clients))
           1%nat ((2%nat, martin), [])).
  reflexivity.
Defined.

Lemma pipeline_record_invariant_witness :
  Merged.nom example_merged <> ""
  ∧ NoDup (Merged.dates example_merged)
  ∧ Merged.nb_seances example_merged
    = Z.of_nat (length (Merged.dates example_merged))
  ∧ Merged.nb_seances example_merged
    = Z.of_nat (size (list_to_set (Merged.dates example_merged) : gset string)).
Proof.
  apply (pipeline_record_invariant dateparser_example Fuzz.indel_ratio
           example_files FUZZY_THRESHOLD example_merged).
  vm_compute. apply list_elem_of_here.
Defined.

Lemma parse_dates_deduplicated_witness :
  NoDup (dates example_extracted).
Proof.
  apply (proj2 parse_dates_deduplicated dateparser_example "a.docx"
           (Some example_body) example_extracted).
  vm_compute. apply list_elem_of_here.
Defined.

Lemma parse_name_two_words_witness :
  parse_name "Dupont Marie 0601020304"
  = (Py.title "Dupont", Py.title "Marie", "0601020304").
Proof.
  apply (proj1 parse_name_two_words "Dupont Marie 0601020304" "Dupont Marie"
           "0601020304" "Dupont" "Marie" []); by vm_compute.
Defined.

Lemma merge_singleton_witness :
  ∃ m, merge_duplicate_clients
         (MainMerge.calculate_similarity Fuzz.indel_ratio) FUZZY_THRESHOLD
         [example_extracted] = [m]
       ∧ Merged.dates m = dates example_extracted
       ∧ Merged.nb_seances m = 2.
Proof.
  destruct (merge_singleton (MainMerge.calculate_similarity Fuzz.indel_ratio)
              FUZZY_THRESHOLD example_extracted)
    as (m & Hm & _ & _ & _ & _ & _ & _ & _ & Hsorted).
  exists m. split; [exact Hm|]. apply Hsorted.
  repeat constructor.
Defined.

Lemma filter_loyal_clients_witness :
  filter_loyal_clients [with_count 1; with_count 2; with_count 3] MIN_SESSIONS
  = [with_count 2; with_count 3].
Proof.
  apply (proj2 filter_loyal_clients_exact (with_count 1) (with_count 2)
           (with_count 3)); reflexivity.
Defined.

Lemma merged_dates_lexicographic_witness :
  NoDup (Merged.dates example_merged)
  ∧ StronglySorted str_lt (Merged.dates example_merged).
Proof.
  apply (proj1 merged_dates_lexicographic
           (MainMerge.calculate_similarity Fuzz.indel_ratio) FUZZY_THRESHOLD
           [example_extracted] example_merged).
  vm_compute. apply list_elem_of_here.
Defined.

(** * Further properties of the code *)

(** ** [strip] *)

Lemma lstrip_head (s : string) :
  Py.lstrip s = "" ∨ ∃ c t, Py.lstrip s = String c t ∧ Py.is_space c = false.
Proof.
  induction s as [|c s IH]; simpl; [by left|].
  destruct (Py.is_space c) eqn:E; [done|]. right. by exists c, s.
Qed.

Lemma rstrip_cons_nonspace (c : ascii) (s : string) :
  Py.is_space c = false -> Py.rstrip (String c s) = String c (Py.rstrip s).
Proof. intros E. simpl. rewrite E. by destruct (Py.rstrip s). Qed.

Lemma rstrip_idem (s : string) : Py.rstrip (Py.rstrip s) = Py.rstrip s.
Proof.
  induction s as [|c s IH]; [done|]. simpl.
  destruct (Py.rstrip s) as [|d r] eqn:E.
  - destruct (Py.is_space c) eqn:Ec; [done|]. simpl. by rewrite Ec.
  - simpl in IH. simpl. destruct (Py.rstrip r) as [|e r'] eqn:Er.
    + destruct (Py.is_space d); [done|]. by rewrite IH.
    + by rewrite IH.
Qed.

Lemma lstrip_nonspace (c : ascii) (s : string) :
  Py.is_space c = false -> Py.lstrip (String c s) = String c s.
Proof. intros E. simpl. by rewrite E. Qed.

Lemma strip_stripped (s : string) : stripped (Py.strip s).
Proof.
  unfold stripped, Py.strip.
  destruct (lstrip_head s) as [->|(c & t & -> & E)]; [done|].
  rewrite (rstrip_cons_nonspace c t E), (lstrip_nonspace _ _ E).
  rewrite <- (rstrip_cons_nonspace c t E). apply rstrip_idem.
Qed.

Lemma stripped_both (s : string) :
  stripped s <-> Py.lstrip s = s ∧ Py.rstrip s = s.
Proof.
  unfold stripped, Py.strip. split.
  - intros H. assert (Hr : Py.rstrip s = s).
    { rewrite <- H at 1. rewrite rstrip_idem. exact H. }
    split; [|done].
    destruct (lstrip_head s) as [E|(c & t & E & Ec)]; rewrite E in H.
    + by rewrite E, <- H.
    + rewrite <- H at 1. rewrite (rstrip_cons_nonspace c t Ec).
      rewrite (lstrip_nonspace _ _ Ec).
      by rewrite <- (rstrip_cons_nonspace c t Ec).
  - by intros [-> ->].
Qed.

Lemma lstrip_chars (s : string) : chars (Py.lstrip s) ⊆ chars s.
Proof.
  induction s as [|c s IH]; simpl; [done|].
  destruct (Py.is_space c); [|done]. unfold chars in *. simpl. set_solver.
Qed.

Lemma rstrip_chars (s : string) : chars (Py.rstrip s) ⊆ chars s.
Proof.
  induction s as [|c s IH]; simpl; [done|].
  unfold chars in *. simpl. destruct (Py.rstrip s) as [|d r].
  - destruct (Py.is_space c); simpl; set_solver.
  - simpl in *. set_solver.
Qed.

Lemma strip_chars (s : string) : chars (Py.strip s) ⊆ chars s.
Proof.
  unfold Py.strip. etransitivity; [apply rstrip_chars|apply lstrip_chars].
Qed.

Lemma all_chars_subseteq (p : ascii -> bool) (s t : string) :
  chars s ⊆ chars t -> all_chars p t -> all_chars p s.
Proof.
  unfold all_chars. rewrite !Forall_forall. intros Hsub Ht c Hc.
  by apply Ht, Hsub.
Qed.

Lemma no_char_subseteq (p : ascii -> bool) (s t : string) :
  chars s ⊆ chars t -> no_char p t -> no_char p s.
Proof.
  unfold no_char. rewrite !Forall_forall. intros Hsub Ht c Hc.
  by apply Ht, Hsub.
Qed.

Lemma chars_app (s t : string) : chars (s +:+ t) = chars s ++ chars t.
Proof. induction s as [|c s IH]; simpl; [done|]. unfold chars in *. simpl. by f_equal. Qed.

Lemma length_chars (s : string) : length (chars s) = String.length s.
Proof. induction s as [|c s IH]; simpl; [done|]. unfold chars in *. simpl. by f_equal. Qed.

Lemma chars_inj (s t : string) : chars s = chars t -> s = t.
Proof.
  intros H. rewrite <- (string_of_list_ascii_of_string s).
  rewrite <- (string_of_list_ascii_of_string t). unfold chars in H. by rewrite H.
Qed.

(** ** The matcher on the patterns of the phone and name functions *)

Lemma sub_cls_chars (text : string) (p : ascii -> bool) (pos : nat) (s : string) :
  chars (Re.sub_from text (Re.Cls p) "" pos 0 s)
  = filter (λ c, p c = false) (chars s).
Proof.
  revert pos. induction s as [|c s IH]; intros pos; [done|].
  unfold chars in *. simpl. unfold Re.at_pos. simpl.
  rewrite filter_cons. destruct (p c) eqn:E.
  - replace (pos <? S pos)%nat with true by (symmetry; apply Nat.ltb_lt; lia).
    replace (S pos - pos - 1)%nat with 0%nat by lia.
    rewrite decide_False by done. simpl. apply IH.
  - rewrite decide_True by done. simpl. f_equal. apply IH.
Qed.

Lemma rep_all (p : ascii -> bool) (s : string) :
  ∀ (lo pos : nat) (k : nat -> string -> option Re.outcome),
    all_chars p s -> (lo <= String.length s)%nat ->
    (∀ pos', is_Some (k pos' "")) ->
    is_Some (Re.rep p lo None pos s k).
Proof.
  induction s as [|c s IH]; intros lo pos k Hall Hlo Hk; simpl in *.
  - replace lo with 0%nat by lia. apply Hk.
  - unfold all_chars, chars in Hall. simpl in Hall.
    apply Forall_cons in Hall as [Hc Hall]. rewrite Hc.
    destruct (IH (Nat.pred lo) (S pos) k Hall ltac:(lia) Hk) as [o Ho].
    simpl. rewrite Ho. by eexists.
Qed.

Lemma search_from_cls (text : string) (p : ascii -> bool) (pos : nat)
    (s : string) (r : nat * Re.outcome) :
  Re.search_from text (Re.Cls p) pos s = Some r ->
  ∃ c, c ∈ chars s ∧ p c = true.
Proof.
  revert pos. induction s as [|c s IH]; intros pos; simpl; [done|].
  unfold Re.at_pos. simpl. destruct (p c) eqn:E.
  - intros _. exists c. split; [by left|done].
  - intros (d & Hd & Hp)%IH. exists d. split; [by right|done].
Qed.

(** ** Phone numbers *)

Lemma normalize_phone_chars (phone_str : string) :
  chars (normalize_phone phone_str)
  = let digits := filter (λ c, Py.is_digit c = true) (chars phone_str) in
    if decide (9 <= length digits)%nat then digits else [].
Proof.
  unfold normalize_phone. destruct phone_str as [|c s]; [done|].
  cbn [Py.truthy negb]. unfold Re.sub.
  set (d := Re.sub_from _ _ _ _ _ _).
  assert (Hd : chars d = filter (λ c, Py.is_digit c = true) (chars (String c s))).
  { unfold d. rewrite sub_cls_chars. apply list_filter_iff.
    intros x. unfold Re.non_digit. by destruct (Py.is_digit x). }
  cbv zeta. rewrite <- Hd, length_chars.
  destruct (Nat.leb_spec 9 (String.length d)).
  - by rewrite decide_True.
  - by rewrite decide_False by lia.
Qed.

Lemma normalize_phone_shape (phone_str : string) :
  phone_shape (normalize_phone phone_str).
Proof.
  pose proof (normalize_phone_chars phone_str) as H. cbv zeta in H.
  case_decide as Hlen.
  - right. split.
    + unfold all_chars. rewrite H. apply Forall_forall.
      by intros c [Hc _]%list_elem_of_filter.
    + by rewrite <- length_chars, H.
  - left. by apply chars_inj.
Qed.

Lemma filter_all {A} (P : A -> Prop) `{∀ x, Decision (P x)} (l : list A) :
  Forall P l -> filter P l = l.
Proof.
  induction 1 as [|x l Hx _ IH]; [done|].
  by rewrite filter_cons, decide_True, IH.
Qed.

(** X1. [normalize_phone] keeps the digits of its argument, in order, when
    there are at least nine of them, and returns the empty string
    otherwise; so its result is empty or at least nine digits, and
    normalizing a second time changes nothing. *)
Theorem normalize_phone_digits (phone_str : string) :
  chars (normalize_phone phone_str)
  = (let digits := filter (λ c, Py.is_digit c = true) (chars phone_str) in
     if decide (9 <= length digits)%nat then digits else [])
  ∧ phone_shape (normalize_phone phone_str)
  ∧ normalize_phone (normalize_phone phone_str) = normalize_phone phone_str.
Proof.
  split_and!; [apply normalize_phone_chars|apply normalize_phone_shape|].
  apply chars_inj. rewrite normalize_phone_chars. cbv zeta.
  destruct (normalize_phone_shape phone_str) as [->|[Hall Hlen]]; [done|].
  rewrite (filter_all _ _ Hall), decide_True; [done|].
  by rewrite length_chars.
Qed.

Lemma extract_phone_loop_shape (patterns : list Re.regex) (text : string) :
  let r := extract_phone_loop patterns text in
  (r.2 = "" ∧ r.1 = text)
  ∨ (r.2 <> "" ∧ phone_shape r.2 ∧ stripped r.1).
Proof.
  induction patterns as [|pattern rest IH]; simpl; [by left|].
  destruct (Re.search pattern text) as [m|]; [|apply IH].
  destruct (Py.truthy (normalize_phone (Re.group0 text m))) eqn:E; [|apply IH].
  right. simpl. split_and!.
  - by destruct (normalize_phone (Re.group0 text m)).
  - apply normalize_phone_shape.
  - apply strip_stripped.
Qed.

(** X2. [extract_phone_from_text] either finds no phone number and returns
    the text as it is, or returns a phone number of at least nine digits,
    all digits, with a text that has no white space at its ends. *)
Theorem extract_phone_from_text_shape (text : string) :
  let '(clean_text, phone) := extract_phone_from_text text in
  (phone = "" ∧ clean_text = text)
  ∨ (phone <> "" ∧ all_chars Py.is_digit phone
     ∧ (9 <= String.length phone)%nat ∧ stripped clean_text).
Proof.
  unfold extract_phone_from_text.
  pose proof (extract_phone_loop_shape phone_patterns text) as H.
  destruct (extract_phone_loop phone_patterns text) as [clean phone].
  simpl in H. destruct H as [H|(Hne & [->|[Hd Hl]] & Hs)]; [by left|done|].
  by right.
Qed.

(** ** Names *)

Lemma rmatch_only_numeric (s : string) :
  s <> "" -> all_chars numeric_class s ->
  is_Some (Re.rmatch only_numeric s).
Proof.
  intros Hne Hall. unfold Re.rmatch, Re.at_pos, only_numeric. simpl.
  apply fmap_is_Some. apply rep_all; [done| |by intros; eexists].
  destruct s; [done|simpl; lia].
Qed.

(** X3. [is_valid_name] rejects every text made only of digits, white
    space and the separators [/], [-], [.]; a text it accepts has at least
    two characters once stripped, among them a letter of [a-zA-ZÀ-ÿ]. *)
Theorem is_valid_name_sound (text : string) :
  (all_chars numeric_class text -> is_valid_name text = false)
  ∧ (is_valid_name text = true ->
     (2 <= String.length (Py.strip text))%nat
     ∧ ∃ c, c ∈ chars text
            ∧ (Py.between 97 122 c || Py.between 65 90 c
               || Py.between 192 255 c) = true).
Proof.
  unfold is_valid_name. split.
  - intros Hall. destruct (Py.truthy text); [|done]. simpl.
    destruct (Py.truthy (Py.strip text)) eqn:E; [|done]. simpl.
    rewrite bool_decide_eq_true_2; [done|].
    apply rmatch_only_numeric; [by destruct (Py.strip text)|].
    eapply all_chars_subseteq; [apply strip_chars|done].
  - repeat (case_match; try done). intros _. split.
    + rewrite strip_stripped in *. by apply Nat.ltb_ge.
    + match goal with H : bool_decide (is_Some (Re.search a_letter _)) = true
        |- _ => apply bool_decide_eq_true_1 in H as [m Hm] end.
      unfold Re.search in Hm. apply fmap_Some in Hm as (r & Hr & _).
      apply search_from_cls in Hr as (c & Hc & Hp).
      exists c. split; [by apply strip_chars|done].
Qed.

(** ** Words and title case *)

Lemma chars_of_list (l : list ascii) : chars (string_of_list_ascii l) = l.
Proof. apply list_ascii_of_string_of_list_ascii. Qed.

Lemma split_ws_words (cur : list ascii) (s : string) :
  Forall (λ c, Py.is_space c = false) cur ->
  Forall (λ w, w <> "" ∧ no_char Py.is_space w) (Py.split_ws cur s).
Proof.
  assert (Hflush : ∀ cur acc,
    Forall (λ c, Py.is_space c = false) cur ->
    Forall (λ w, w <> "" ∧ no_char Py.is_space w) acc ->
    Forall (λ w, w <> "" ∧ no_char Py.is_space w) (Py.flush cur acc)).
  { intros [|c l] acc Hl Hacc; [done|]. simpl. constructor; [|done]. split.
    - intros H. apply (f_equal chars) in H. rewrite chars_of_list in H.
      simpl in H. by destruct (rev l).
    - unfold no_char. rewrite chars_of_list. by apply Forall_rev in Hl. }
  revert cur. induction s as [|c s IH]; intros cur Hcur; simpl.
  - by apply Hflush.
  - destruct (Py.is_space c) eqn:E.
    + apply Hflush; [done|]. by apply IH.
    + apply IH. by constructor.
Qed.

Lemma split_words (s : string) :
  Forall (λ w, w <> "" ∧ no_char Py.is_space w) (Py.split s).
Proof. by apply split_ws_words. Qed.

Lemma lower_char_space (c : ascii) :
  Py.is_space c = false -> Py.is_space (Py.lower_char c) = false.
Proof. destruct c as [[] [] [] [] [] [] [] []]; by vm_compute. Qed.

Lemma title_char_space_b (c : ascii) :
  Py.is_space c = false ->
  negb (String.eqb (Py.title_char c) "")
  && forallb (λ x, negb (Py.is_space x)) (chars (Py.title_char c)) = true.
Proof. destruct c as [[] [] [] [] [] [] [] []]; by vm_compute. Qed.

Lemma title_char_space (c : ascii) :
  Py.is_space c = false ->
  Py.title_char c <> "" ∧ no_char Py.is_space (Py.title_char c).
Proof.
  intros [H1 H2]%title_char_space_b%andb_prop. split.
  - intros E. rewrite E in H1. done.
  - unfold no_char. apply Forall_forall. intros x Hx.
    rewrite forallb_forall in H2. apply list_elem_of_In, H2 in Hx.
    by destruct (Py.is_space x).
Qed.

Lemma no_char_app (p : ascii -> bool) (s t : string) :
  no_char p (s +:+ t) <-> no_char p s ∧ no_char p t.
Proof. unfold no_char. rewrite chars_app. apply Forall_app. Qed.

Lemma title_from_space (b : bool) (s : string) :
  no_char Py.is_space s -> no_char Py.is_space (Py.title_from b s).
Proof.
  revert b. induction s as [|c s IH]; intros b H; [done|].
  unfold no_char, chars in H. simpl in H. apply Forall_cons in H as [Hc H].
  simpl. apply no_char_app. split; [|by apply IH].
  destruct b.
  - repeat constructor. by apply lower_char_space.
  - by apply title_char_space.
Qed.

Lemma title_nonempty (s : string) :
  s <> "" -> no_char Py.is_space s -> Py.title s <> "".
Proof.
  destruct s as [|c s]; [done|]. intros _ H.
  unfold no_char, chars in H. simpl in H. apply Forall_cons in H as [Hc _].
  unfold Py.title. simpl.
  destruct (title_char_space c Hc) as [Hne _].
  by destruct (Py.title_char c).
Qed.

(** A text without white space is stripped. *)
Lemma no_space_stripped (s : string) : no_char Py.is_space s -> stripped s.
Proof.
  intros H. apply stripped_both. split.
  - destruct s as [|c s]; [done|].
    unfold no_char, chars in H. simpl in H. apply Forall_cons in H as [Hc _].
    by apply lstrip_nonspace.
  - induction s as [|c s IH]; [done|].
    unfold no_char, chars in H. simpl in H. apply Forall_cons in H as [Hc H].
    by rewrite (rstrip_cons_nonspace _ _ Hc), IH.
Qed.

Lemma parse_name_facts (text : string) :
  let '(nom, prenom, telephone) := parse_name text in
  (nom = "" -> prenom = "")
  ∧ no_char Py.is_space nom ∧ no_char Py.is_space prenom
  ∧ phone_shape telephone
  ∧ (is_valid_name (Py.strip text) = false ->
     nom = "" ∧ prenom = "" ∧ telephone = "").
Proof.
  assert (Hempty : no_char Py.is_space "") by constructor.
  unfold parse_name. destruct (Py.truthy text) eqn:Et; simpl.
  2: { split_and!; try done. by left. }
  destruct (is_valid_name (Py.strip text)) eqn:Ev; simpl.
  2: { split_and!; try done. by left. }
  pose proof (extract_phone_loop_shape phone_patterns (Py.strip text)) as Hp.
  unfold extract_phone_from_text.
  destruct (extract_phone_loop phone_patterns (Py.strip text)) as [twp phone].
  simpl in Hp.
  assert (Hphone : phone_shape phone).
  { destruct Hp as [[-> _]|(_ & H & _)]; [by left|done]. }
  destruct (Py.truthy (cleaned_text twp)); simpl; [|by split_and!].
  destruct (is_valid_name (cleaned_text twp)); simpl.
  2: { split_and!; try done. by left. }
  pose proof (split_words (cleaned_text twp)) as Hw.
  destruct (Py.split (cleaned_text twp)) as [|w1 [|w2 ws]]; [by split_and!| |].
  - apply Forall_cons in Hw as [[Hne Hsp] _]. split_and!; try done.
    by apply title_from_space.
  - apply Forall_cons in Hw as [[Hne1 Hsp1] Hw].
    apply Forall_cons in Hw as [[Hne2 Hsp2] _]. split_and!; try done.
    + intros H. by apply title_nonempty in H.
    + by apply title_from_space.
    + by apply title_from_space.
Qed.

(** X4. Whatever the text, [parse_name] returns a last name and a first
    name without any white space, never a first name without a last name,
    and a phone number that is empty or made of at least nine digits; when
    [is_valid_name] rejects the stripped text, the three are empty. *)
Theorem parse_name_shape (text : string) :
  let '(nom, prenom, telephone) := parse_name text in
  (nom = "" -> prenom = "")
  ∧ no_char Py.is_space nom ∧ no_char Py.is_space prenom
  ∧ phone_shape telephone
  ∧ (is_valid_name (Py.strip text) = false ->
     nom = "" ∧ prenom = "" ∧ telephone = "").
Proof. apply parse_name_facts. Qed.

(** ** Cutting a cell into clients and into dates *)

Lemma rep0_some (p : ascii -> bool) (s : string) (pos : nat)
    (k : nat -> string -> option Re.outcome) :
  (∀ pos' s', k pos' s' = Some (pos', s', [])) ->
  ∃ e s', Re.rep p 0 None pos s k = Some (e, s', []) ∧ (pos <= e)%nat.
Proof.
  intros Hk. revert pos.
  induction s as [|c s IH]; intros pos; simpl; [by eexists _, _|].
  destruct (p c); [|by eexists _, _].
  destruct (IH (S pos)) as (e & s' & -> & He). exists e, s'. split; [done|lia].
Qed.

Lemma at_pos_rep1 (text : string) (p : ascii -> bool) (pos : nat) (c : ascii)
    (s : string) :
  if p c
  then ∃ e s', Re.at_pos text (Re.Rep p 1 None) pos (String c s) = Some (e, s', [])
               ∧ (pos < e)%nat
  else Re.at_pos text (Re.Rep p 1 None) pos (String c s) = None.
Proof.
  unfold Re.at_pos. simpl. destruct (p c); [|done].
  match goal with |- context [Re.rep p 0 None (S pos) s ?k] =>
    destruct (rep0_some p s (S pos) k) as (e & s' & Heq & He); [done|] end.
  exists e, s'. rewrite Heq. split; [done|lia].
Qed.

Lemma hd_tl_Forall {A} (P : A -> Prop) (d : A) (l : list A) :
  P d -> Forall P l -> P (hd d l) ∧ Forall P (tl l).
Proof. intros Hd [|x l' Hx Hl]; by split. Qed.

Lemma split_from_no_sep (text : string) (p : ascii -> bool) (s : string) :
  ∀ pos skip, Forall (no_char p) (Re.split_from text (Re.Rep p 1 None) pos skip s).
Proof.
  induction s as [|c s IH]; intros pos skip; simpl; [by repeat constructor|].
  destruct skip as [|skip]; [|apply IH].
  pose proof (at_pos_rep1 text p pos c s) as Hat.
  destruct (p c) eqn:Ec.
  - destruct Hat as (e & s' & -> & He).
    rewrite (proj2 (Nat.ltb_lt _ _) He). constructor; [constructor|apply IH].
  - rewrite Hat.
    destruct (hd_tl_Forall (no_char p) "" _ ltac:(constructor) (IH (S pos) 0%nat))
      as [Hh Ht].
    constructor; [|done]. unfold no_char, chars. simpl. by constructor.
Qed.

Lemma split_from_whole (text : string) (p : ascii -> bool) (s : string) :
  no_char p s -> ∀ pos, Re.split_from text (Re.Rep p 1 None) pos 0 s = [s].
Proof.
  induction s as [|c s IH]; intros Hno pos; simpl; [done|].
  unfold no_char, chars in Hno. simpl in Hno. apply Forall_cons in Hno as [Hc Hno].
  pose proof (at_pos_rep1 text p pos c s) as Hat. rewrite Hc in Hat.
  by rewrite Hat, (IH Hno).
Qed.

Lemma truthy_true (s : string) : Py.truthy s = true <-> s <> "".
Proof. by destruct s. Qed.

Lemma stripped_pieces (p : ascii -> bool) (pieces : list string) :
  Forall (no_char p) pieces ->
  Forall (λ f, f <> "" ∧ stripped f ∧ no_char p f)
    (omap (λ c, if Py.truthy (Py.strip c) then Some (Py.strip c) else None)
          pieces).
Proof.
  intros Hp. apply Forall_forall. intros f (c & Hc & Hf)%list_elem_of_omap.
  destruct (Py.truthy (Py.strip c)) eqn:E; [|done]. injection Hf as <-.
  split_and!; [by apply truthy_true|apply strip_stripped|].
  rewrite Forall_forall in Hp.
  eapply no_char_subseteq; [apply strip_chars|by apply Hp].
Qed.

(** X5. Every fragment [split_clients_in_cell] returns is non-empty, has no
    white space at its ends and contains no line break and no semicolon;
    a cell that is already such a fragment is returned alone, and the empty
    cell gives no fragment. *)
Theorem split_clients_in_cell_fragments :
  (∀ cell_text : string,
     Forall (λ f, f <> "" ∧ stripped f ∧ no_char client_sep_class f)
       (split_clients_in_cell cell_text))
  ∧ (∀ cell_text : string,
       cell_text <> "" -> stripped cell_text ->
       no_char client_sep_class cell_text ->
       split_clients_in_cell cell_text = [cell_text])
  ∧ split_clients_in_cell "" = [].
Proof.
  split_and!; [| |done].
  - intros cell_text. unfold split_clients_in_cell.
    destruct (Py.truthy cell_text); simpl; [|constructor].
    apply stripped_pieces. apply split_from_no_sep.
  - intros cell_text Hne Hs Hno. unfold split_clients_in_cell.
    rewrite (proj2 (truthy_true _) Hne). simpl.
    unfold Re.split, client_separator.
    rewrite (split_from_whole _ client_sep_class _ Hno). simpl.
    rewrite Hs. by rewrite (proj2 (truthy_true _) Hne).
Qed.

Lemma replace_char_chars (a b : ascii) (s : string) :
  chars (Py.replace_char a b s)
  = (λ c, if Py.is_char a c then b else c) <$> chars s.
Proof.
  induction s as [|c s IH]; [done|]. unfold chars in *. simpl. by f_equal.
Qed.

Lemma replace_char_id (a b : ascii) (s : string) :
  no_char (Py.is_char a) s -> Py.replace_char a b s = s.
Proof.
  induction s as [|c s IH]; [done|]. intros H.
  unfold no_char, chars in H. simpl in H. apply Forall_cons in H as [Hc H].
  simpl. by rewrite Hc, IH.
Qed.

(** The text [date_parts] cuts: the separators turned into [|]. *)
Lemma separators_replaced_b (c : ascii) :
  let r := fold_left (λ x sep, if Py.is_char sep x then "|"%char else x)
             separators c in
  negb (date_sep_class r) || Py.is_char "|" r = true.
Proof. destruct c as [[] [] [] [] [] [] [] []]; by vm_compute. Qed.

Lemma chars_fold_replace (seps : list ascii) (text : string) :
  chars (fold_left (λ t sep, Py.replace_char sep "|" t) seps text)
  = (λ c, fold_left (λ x sep, if Py.is_char sep x then "|"%char else x) seps c)
    <$> chars text.
Proof.
  revert text. induction seps as [|sep seps IH]; intros text.
  - simpl. by rewrite list_fmap_id.
  - cbn [fold_left]. rewrite IH, replace_char_chars, <- list_fmap_compose.
    done.
Qed.

Lemma separators_replaced (text : string) :
  Forall (λ c, date_sep_class c = true -> c = "|"%char)
    (chars (fold_left (λ t sep, Py.replace_char sep "|" t) separators text)).
Proof.
  rewrite chars_fold_replace. apply Forall_fmap, Forall_forall.
  intros c _ H. pose proof (separators_replaced_b c) as Hb.
  cbv zeta in Hb. unfold compose in H.
  set (r := fold_left _ separators c) in *.
  rewrite H in Hb. change (Py.is_char "|" r = true) in Hb.
  unfold Py.is_char in Hb. by apply Ascii.eqb_eq in Hb.
Qed.

Lemma split_on_pieces (sep : ascii) (s : string) :
  Forall (λ piece, no_char (Py.is_char sep) piece ∧ chars piece ⊆ chars s)
    (Py.split_on sep s).
Proof.
  induction s as [|c s IH]; simpl.
  - constructor; [|constructor]. split; [constructor|done].
  - assert (Hmono : Forall (λ piece, no_char (Py.is_char sep) piece
                                     ∧ chars piece ⊆ chars (String c s))
                      (Py.split_on sep s)).
    { eapply Forall_impl; [exact IH|]. intros piece [? Hsub]. split; [done|].
      unfold chars in *. simpl. set_solver. }
    destruct (Py.is_char sep c) eqn:E.
    + constructor; [|done]. split; [constructor|]. unfold chars. simpl.
      set_solver.
    + assert (Hd : no_char (Py.is_char sep) ""
                   ∧ chars "" ⊆ chars (String c s)).
      { split; [constructor|]. intros x Hx. by apply elem_of_nil in Hx. }
      destruct (hd_tl_Forall _ "" _ Hd Hmono) as [[Hh1 Hh2] Ht].
      constructor; [|done]. split.
      * unfold no_char, chars. simpl. by constructor.
      * unfold chars in *. simpl. set_solver.
Qed.

Lemma split_on_whole (sep : ascii) (s : string) :
  no_char (Py.is_char sep) s -> Py.split_on sep s = [s].
Proof.
  induction s as [|c s IH]; [done|]. intros H.
  unfold no_char, chars in H. simpl in H. apply Forall_cons in H as [Hc H].
  simpl. by rewrite Hc, IH.
Qed.

Lemma date_sep_class_false (c : ascii) :
  date_sep_class c = false ->
  Py.is_char "|" c = false ∧ Forall (λ sep, Py.is_char sep c = false) separators.
Proof.
  unfold date_sep_class, separators. simpl.
  intros H. repeat (apply orb_false_elim in H as [? H]).
  split; [done|]. by repeat constructor.
Qed.

(** X6. Every token [parse_dates] works on is non-empty, has no white space
    at its ends and contains no comma, semicolon, line break or [|]; a text
    that is already such a token is the only token. *)
Theorem date_parts_tokens :
  (∀ date_text : string,
     Forall (λ t, t <> "" ∧ stripped t ∧ no_char date_sep_class t)
       (date_parts date_text))
  ∧ (∀ date_text : string,
       date_text <> "" -> stripped date_text ->
       no_char date_sep_class date_text ->
       date_parts date_text = [date_text]).
Proof.
  split.
  - intros date_text. unfold date_parts. cbv zeta.
    pose proof (separators_replaced date_text) as Hrep.
    set (t := fold_left _ separators date_text) in *.
    apply stripped_pieces.
    eapply Forall_impl; [apply (split_on_pieces "|" t)|].
    intros piece [Hno Hsub]. unfold no_char in *. rewrite Forall_forall in *.
    intros c Hc. destruct (date_sep_class c) eqn:E; [|done].
    pose proof (Hrep c (Hsub c Hc) E) as ->. specialize (Hno _ Hc).
    by vm_compute in Hno.
  - intros date_text Hne Hs Hno. unfold date_parts. cbv zeta.
    assert (Hsep : ∀ sep, sep ∈ "|"%char :: separators ->
                          no_char (Py.is_char sep) date_text).
    { intros sep Hsep. unfold no_char in *. rewrite Forall_forall in *.
      intros c Hc. specialize (Hno c Hc).
      apply date_sep_class_false in Hno as [Hbar Hall].
      apply elem_of_cons in Hsep as [->|Hsep]; [done|].
      rewrite Forall_forall in Hall. by apply Hall. }
    unfold separators in *. cbn [fold_left].
    rewrite (replace_char_id "," "|" date_text) by (apply Hsep; set_solver).
    rewrite (replace_char_id ";" "|" date_text) by (apply Hsep; set_solver).
    rewrite (replace_char_id "010" "|" date_text) by (apply Hsep; set_solver).
    rewrite (replace_char_id "013" "|" date_text) by (apply Hsep; set_solver).
    rewrite split_on_whole by (apply Hsep; set_solver).
    cbn [omap list_omap]. rewrite Hs.
    by rewrite (proj2 (truthy_true _) Hne).
Qed.

(** ** What a merged record holds *)

Lemma fold_absorb_dates (l : list client) (acc : Acc.t) (d : string) :
  d ∈ Acc.dates (fold_left absorb l acc)
  <-> d ∈ Acc.dates acc ∨ ∃ c, c ∈ l ∧ d ∈ dates c.
Proof.
  revert acc. induction l as [|c l IH]; intros acc; simpl.
  - split; [by left|]. intros [H|(c & Hc & _)]; [done|].
    by apply elem_of_nil in Hc.
  - rewrite IH. simpl. rewrite elem_of_union, elem_of_list_to_set. split.
    + intros [[H|H]|(c' & Hc' & H)]; [by left| |].
      * right. exists c. split; [by left|done].
      * right. exists c'. split; [by right|done].
    + intros [H|(c' & [->|Hc']%elem_of_cons & H)]; [by left;left|by left;right|].
      right. by exists c'.
Qed.

Lemma fold_absorb_sources (l : list client) (acc : Acc.t) (f : string) :
  f ∈ Acc.source_files (fold_left absorb l acc)
  <-> f ∈ Acc.source_files acc ∨ ∃ c, c ∈ l ∧ f = source_file c.
Proof.
  revert acc. induction l as [|c l IH]; intros acc; simpl.
  - split; [by left|]. intros [H|(c & Hc & _)]; [done|].
    by apply elem_of_nil in Hc.
  - rewrite IH. simpl. rewrite elem_of_union, elem_of_singleton. split.
    + intros [[H|H]|(c' & Hc' & H)]; [by left| |].
      * right. exists c. split; [by left|done].
      * right. exists c'. split; [by right|done].
    + intros [H|(c' & [->|Hc']%elem_of_cons & H)]; [by left;left|by left;right|].
      right. by exists c'.
Qed.

Lemma cluster_record_dates (cl : cluster) (d : string) :
  d ∈ Merged.dates (cluster_record cl)
  <-> ∃ x, x ∈ members cl ∧ d ∈ dates x.2.
Proof.
  unfold cluster_record, members. simpl.
  rewrite sorted_list_elem, fold_absorb_dates. simpl.
  rewrite elem_of_list_to_set. split.
  - intros [H|(c & (x & -> & Hx)%list_elem_of_fmap & H)].
    + exists cl.1. split; [by left|done].
    + exists x. split; [by right|done].
  - intros (x & [->|Hx]%elem_of_cons & H); [by left|].
    right. exists x.2. split; [by apply list_elem_of_fmap_2|done].
Qed.

Lemma cluster_record_sources (cl : cluster) (f : string) :
  f ∈ Merged.source_files (cluster_record cl)
  <-> ∃ x, x ∈ members cl ∧ f = source_file x.2.
Proof.
  unfold cluster_record, members. simpl.
  rewrite fold_absorb_sources. simpl. rewrite elem_of_singleton. split.
  - intros [H|(c & (x & -> & Hx)%list_elem_of_fmap & H)].
    + exists cl.1. split; [by left|done].
    + exists x. split; [by right|done].
  - intros (x & [->|Hx]%elem_of_cons & H); [by left|].
    right. exists x.2. split; [by apply list_elem_of_fmap_2|done].
Qed.

Section MergeContents.
Variable calculate_similarity : client -> client -> Q.
Variable threshold : Z.

Lemma merged_date_origin (clients : list client) (m : Merged.t) (d : string) :
  m ∈ merge_duplicate_clients calculate_similarity threshold clients ->
  d ∈ Merged.dates m -> ∃ c, c ∈ clients ∧ d ∈ dates c.
Proof.
  rewrite merge_duplicate_clients_clusters.
  destruct (clusters_partition calculate_similarity threshold clients)
    as [Hperm _].
  intros (cl & -> & Hcl)%list_elem_of_fmap (x & Hx & Hd)%cluster_record_dates.
  exists x.2. split; [|done].
  rewrite <- (enumerate_snd clients). apply list_elem_of_fmap_2.
  rewrite <- Hperm. apply elem_of_concat. exists (members cl).
  split; [by apply list_elem_of_fmap_2|done].
Qed.

(** X7. The dates of a merged record are the dates of the records of its
    cluster, and its source files are theirs. So deduplication loses no
    date and invents none: every date of every input record is in a merged
    record, and every date of a merged record is a date of an input
    record. *)
Theorem merged_dates_union (clients : list client) :
  let found := clusters calculate_similarity threshold clients in
  let merged := merge_duplicate_clients calculate_similarity threshold clients in
  (∀ k cl m, found !! k = Some cl -> merged !! k = Some m ->
     (∀ d, d ∈ Merged.dates m <-> ∃ x, x ∈ members cl ∧ d ∈ dates x.2)
     ∧ (∀ f, f ∈ Merged.source_files m
             <-> ∃ x, x ∈ members cl ∧ f = source_file x.2))
  ∧ (∀ c d, c ∈ clients -> d ∈ dates c ->
       ∃ m, m ∈ merged ∧ d ∈ Merged.dates m)
  ∧ (∀ m d, m ∈ merged -> d ∈ Merged.dates m ->
       ∃ c, c ∈ clients ∧ d ∈ dates c).
Proof.
  cbv zeta. rewrite merge_duplicate_clients_clusters.
  destruct (clusters_partition calculate_similarity threshold clients)
    as [Hperm _].
  split_and!.
  - intros k cl m Hcl Hm. rewrite list_lookup_fmap, Hcl in Hm.
    injection Hm as <-. split.
    + apply cluster_record_dates.
    + apply cluster_record_sources.
  - intros c d Hc Hd.
    rewrite <- (enumerate_snd clients) in Hc.
    apply list_elem_of_fmap in Hc as (x & -> & Hx).
    rewrite <- Hperm in Hx.
    apply elem_of_concat in Hx as (l & (cl & -> & Hcl)%list_elem_of_fmap & Hx).
    exists (cluster_record cl). split; [by apply list_elem_of_fmap_2|].
    apply cluster_record_dates. by exists x.
  - intros m d (cl & -> & Hcl)%list_elem_of_fmap
      (x & Hx & Hd)%cluster_record_dates.
    exists x.2. split; [|done].
    rewrite <- (enumerate_snd clients). apply list_elem_of_fmap_2.
    rewrite <- Hperm. apply elem_of_concat. exists (members cl).
    split; [by apply list_elem_of_fmap_2|done].
Qed.

Lemma fold_absorb_phone (l : list client) :
  ∀ (before after : list client) (x : client) (acc : Acc.t),
    Acc.telephone acc = telephone x ->
    Forall (λ y, (String.length (telephone y)
                  < String.length (telephone x))%nat) before ->
    Forall (λ y, (String.length (telephone y)
                  <= String.length (telephone x))%nat) after ->
    ∃ pre x' post,
      before ++ x :: after ++ l = pre ++ x' :: post
      ∧ Acc.telephone (fold_left absorb l acc) = telephone x'
      ∧ Forall (λ y, (String.length (telephone y)
                      < String.length (telephone x'))%nat) pre
      ∧ Forall (λ y, (String.length (telephone y)
                      <= String.length (telephone x'))%nat) post.
Proof.
  induction l as [|c l IH]; intros before after x acc Hacc Hb Ha.
  - exists before, x, after. by rewrite app_nil_r.
  - simpl. destruct (Nat.ltb_spec (String.length (Acc.telephone acc))
                       (String.length (telephone c))) as [Hlt|Hge].
    + rewrite Hacc in Hlt.
      destruct (IH (before ++ x :: after) [] c (absorb acc c)) as
        (pre & x' & post & Heq & Htel & Hpre & Hpost).
      * simpl. rewrite Hacc.
        by rewrite (proj2 (Nat.ltb_lt _ _) Hlt).
      * apply Forall_app. split; [|constructor; [done|]].
        -- eapply Forall_impl; [exact Hb|]. simpl. lia.
        -- eapply Forall_impl; [exact Ha|]. simpl. lia.
      * constructor.
      * exists pre, x', post. split; [|done].
        rewrite <- Heq. simpl. by rewrite <- !app_assoc.
    + rewrite Hacc in Hge.
      destruct (IH before (after ++ [c]) x (absorb acc c)) as
        (pre & x' & post & Heq & Htel & Hpre & Hpost).
      * simpl. rewrite Hacc.
        by rewrite (proj2 (Nat.ltb_ge _ _) Hge).
      * done.
      * apply Forall_app. split; [done|]. by constructor.
      * exists pre, x', post. split; [|done].
        rewrite <- Heq. by rewrite <- !app_assoc.
Qed.

(** X8. The phone number of a merged record is the phone number of the
    first record of its cluster that has the longest one: a record of the
    cluster, with strictly shorter numbers before it and none longer after
    it. *)
Theorem merged_phone_longest (clients : list client) (k : nat) (cl : cluster)
    (m : Merged.t) :
  clusters calculate_similarity threshold clients !! k = Some cl ->
  merge_duplicate_clients calculate_similarity threshold clients !! k = Some m ->
  ∃ pre x post,
    (members cl).*2 = pre ++ x :: post
    ∧ Merged.telephone m = telephone x
    ∧ Forall (λ y, (String.length (telephone y)
                    < String.length (telephone x))%nat) pre
    ∧ Forall (λ y, (String.length (telephone y)
                    <= String.length (telephone x))%nat) post.
Proof.
  intros Hcl Hm. rewrite merge_duplicate_clients_clusters in Hm.
  rewrite list_lookup_fmap, Hcl in Hm. injection Hm as <-.
  unfold cluster_record, members.
  destruct (fold_absorb_phone cl.2.*2 [] [] cl.1.2 (seed cl.1.2))
    as (pre & x & post & Heq & Htel & Hpre & Hpost); [done..|].
  by exists pre, x, post.
Qed.
End MergeContents.

(** ** How many records deduplication returns *)

Section MergeCounts.
Variable calculate_similarity : client -> client -> Q.
Variable threshold : Z.

Abbreviation similar' := (similar calculate_similarity threshold).
Abbreviation scan_members' := (scan_members calculate_similarity threshold).
Abbreviation cluster_loop' := (cluster_loop calculate_similarity threshold).
Abbreviation clusters' := (clusters calculate_similarity threshold).
Abbreviation merge' :=
  (merge_duplicate_clients calculate_similarity threshold).

Lemma scan_members_none client1 later (P : gset nat) :
  (∀ x, x ∈ later -> similar' client1 x.2 = false) ->
  scan_members' client1 later P = [].
Proof.
  revert P. induction later as [|[j c] later IH]; intros P H; [done|].
  simpl. case_decide.
  - apply IH. intros x Hx. apply H. by right.
  - pose proof (H (j, c) ltac:(by left)) as Hjc. simpl in Hjc. rewrite Hjc.
    apply IH. intros x Hx. apply H. by right.
Qed.

Lemma scan_members_all client1 later (P : gset nat) :
  NoDup later.*1 ->
  (∀ x, x ∈ later -> x.1 ∉ P) ->
  (∀ x, x ∈ later -> similar' client1 x.2 = true) ->
  scan_members' client1 later P = later.
Proof.
  intros Hnd HP Hsim.
  rewrite (scan_members_filter _ _ client1 later P (elements P) Hnd).
  - apply filter_all. apply Forall_forall. intros x Hx. split.
    + rewrite elem_of_elements. by apply HP.
    + by apply Hsim.
  - intros x _. by rewrite elem_of_elements.
Qed.

Lemma cluster_loop_skip rest found (P : gset nat) :
  (∀ x, x ∈ rest -> x.1 ∈ P) -> cluster_loop' rest found P = found.
Proof.
  revert found. induction rest as [|[i c] rest IH]; intros found H; [done|].
  simpl. rewrite decide_True by (apply (H (i, c)); by left).
  apply IH. intros x Hx. apply H. by right.
Qed.

Lemma cluster_loop_alone rest found (P : gset nat) :
  NoDup rest.*1 ->
  (∀ x, x ∈ rest -> x.1 ∉ P) ->
  StronglySorted (λ c1 c2, similar' c1 c2 = false) rest.*2 ->
  cluster_loop' rest found P = found ++ ((λ x, (x, [])) <$> rest).
Proof.
  revert found P. induction rest as [|[i c] rest IH]; intros found P Hnd HP Hs.
  - by rewrite app_nil_r.
  - simpl in *. apply NoDup_cons in Hnd as [Hi Hnd].
    apply StronglySorted_inv in Hs as [Hs Hc].
    rewrite decide_False by (apply (HP (i, c)); by left).
    rewrite scan_members_none.
    2: { intros x Hx. rewrite Forall_forall in Hc. apply Hc.
         by apply list_elem_of_fmap_2. }
    rewrite IH; [by rewrite <- app_assoc|done| |done].
    intros x Hx. specialize (HP x ltac:(by right)).
    assert (x.1 ≠ i).
    { intros <-. apply Hi. by apply list_elem_of_fmap_2. }
    set_solver.
Qed.

(** X9. The two extremes of deduplication. When no record of the input is
    similar to a record that comes after it, deduplication returns one
    record for each input record, in the order of the input. When every
    record after the first is similar to the first, it returns a single
    record, with the name of the first record and the dates of all. *)
Theorem merge_extremes :
  (∀ clients : list client,
     StronglySorted (λ c1 c2, similar' c1 c2 = false) clients ->
     merge' clients = (λ c, finish (seed c)) <$> clients)
  ∧ (∀ (c : client) (rest : list client),
       (∀ c2, c2 ∈ rest -> similar' c c2 = true) ->
       ∃ m, merge' (c :: rest) = [m]
            ∧ Merged.nom m = nom c ∧ Merged.prenom m = prenom c
            ∧ ∀ d, d ∈ Merged.dates m <-> ∃ x, x ∈ c :: rest ∧ d ∈ dates x).
Proof.
  split.
  - intros clients Hs. rewrite merge_duplicate_clients_clusters.
    unfold clusters. rewrite cluster_loop_alone.
    + simpl. rewrite <- list_fmap_compose.
      rewrite <- (enumerate_snd clients) at 2.
      by rewrite <- list_fmap_compose.
    + apply enumerate_NoDup.
    + set_solver.
    + by rewrite enumerate_snd.
  - intros c rest Hs. rewrite merge_duplicate_clients_clusters.
    pose proof (enumerate_NoDup (c :: rest)) as Hnd.
    pose proof (enumerate_snd (c :: rest)) as Hsnd.
    unfold clusters. unfold enumerate in *. simpl in Hnd, Hsnd.
    set (later := imap (pair ∘ S) rest) in *.
    apply NoDup_cons in Hnd as [H0 Hnd]. injection Hsnd as Hsnd.
    change (later.*2 = rest) in Hsnd. change (NoDup later.*1) in Hnd.
    change (0%nat ∉ later.*1) in H0.
    simpl. fold later. rewrite decide_False by set_solver.
    rewrite (scan_members_all c later ∅); [|done|set_solver|].
    2: { intros x Hx. apply Hs. rewrite <- Hsnd.
         by apply list_elem_of_fmap_2. }
    rewrite (cluster_loop_skip later).
    2: { intros x Hx. apply (list_elem_of_fmap_2 fst) in Hx. set_solver. }
    eexists. split; [reflexivity|]. unfold cluster_record. simpl.
    destruct (fold_absorb_names later.*2 (seed c)) as [-> ->].
    split_and!; [done..|]. intros d.
    rewrite sorted_list_elem, fold_absorb_dates, Hsnd. simpl.
    rewrite elem_of_list_to_set. split.
    + intros [H|(x & Hx & H)]; [exists c|exists x]; split; try done;
        [by left|by right].
    + intros (x & [->|Hx]%elem_of_cons & H); [by left|right; by exists x].
Qed.

Lemma length_concat_members (found : list cluster) :
  (length found <= length (concat (members <$> found)))%nat.
Proof.
  induction found as [|cl found IH]; [done|].
  rewrite fmap_cons. cbn [concat]. rewrite length_app.
  unfold members at 1. cbn [length]. lia.
Qed.

(** X10. Deduplication never returns more records than it is given, and
    returns none only for the empty list; the first record returned is the
    cluster of the first input record and bears its name. *)
Theorem merge_count (clients : list client) :
  (length (merge' clients) <= length clients)%nat
  ∧ (merge' clients = [] <-> clients = [])
  ∧ ∀ c rest, clients = c :: rest ->
      ∃ m ms, merge' clients = m :: ms
              ∧ Merged.nom m = nom c ∧ Merged.prenom m = prenom c.
Proof.
  assert (Hfirst : ∀ c rest, clients = c :: rest ->
            ∃ m ms, merge' clients = m :: ms
                    ∧ Merged.nom m = nom c ∧ Merged.prenom m = prenom c).
  { intros c rest ->. unfold merge_duplicate_clients, enumerate. simpl.
    rewrite decide_False by set_solver.
    rewrite scan_members_spec, merge_loop_clusters. simpl.
    eexists _, _. split; [reflexivity|].
    simpl. by destruct (fold_absorb_names
      (scan_members' c (imap (pair ∘ S) rest) ∅).*2 (seed c)) as [-> ->]. }
  split_and!; [| |done].
  - rewrite merge_duplicate_clients_clusters, length_fmap.
    destruct (clusters_partition calculate_similarity threshold clients)
      as [Hperm _].
    etransitivity; [apply length_concat_members|].
    rewrite Hperm. unfold enumerate. by rewrite length_imap.
  - split; [|by intros ->].
    destruct clients as [|c rest]; [done|]. intros H.
    destruct (Hfirst c rest eq_refl) as (m & ms & Hm & _). congruence.
Qed.
End MergeCounts.

(** ** The loyalty filter, alone and after deduplication *)

Lemma filter_loyal_clients_filter (clients : list Merged.t) (min_sessions : Z) :
  filter_loyal_clients clients min_sessions
  = filter (λ c, min_sessions <= Merged.nb_seances c) clients.
Proof.
  induction clients as [|c clients IH]; [done|].
  simpl. rewrite filter_cons, IH.
  destruct (Z.leb_spec min_sessions (Merged.nb_seances c)).
  - by rewrite decide_True.
  - by rewrite decide_False by lia.
Qed.

(** X11. Filtering twice is filtering once with the larger minimum, so
    filtering again with the same minimum changes nothing and a larger
    minimum keeps a sublist of what a smaller one keeps; the filter of two
    lists put end to end is the two filters put end to end. *)
Theorem filter_loyal_clients_compose
    (clients more : list Merged.t) (min1 min2 : Z) :
  filter_loyal_clients (filter_loyal_clients clients min1) min2
    = filter_loyal_clients clients (Z.max min1 min2)
  ∧ filter_loyal_clients (filter_loyal_clients clients min1) min1
    = filter_loyal_clients clients min1
  ∧ sublist (filter_loyal_clients clients (Z.max min1 min2))
            (filter_loyal_clients clients min1)
  ∧ filter_loyal_clients (clients ++ more) min1
    = filter_loyal_clients clients min1 ++ filter_loyal_clients more min1.
Proof.
  assert (H2 : ∀ a b, filter_loyal_clients (filter_loyal_clients clients a) b
                      = filter_loyal_clients clients (Z.max a b)).
  { intros a b. rewrite !filter_loyal_clients_filter, list_filter_filter.
    apply list_filter_iff. intros c. lia. }
  split_and!.
  - apply H2.
  - by rewrite H2, Z.max_id.
  - rewrite <- H2, (filter_loyal_clients_filter (filter_loyal_clients _ _)).
    apply sublist_filter.
  - rewrite !filter_loyal_clients_filter. apply filter_app.
Qed.

Section Loyal.
Variable calculate_similarity : client -> client -> Q.
Variable threshold : Z.

(** X12. A merged record that passes the loyalty filter has at least
    [min_sessions] distinct dates; with the default minimum of 2 it has two
    different dates. A minimum of zero or less keeps every merged
    record. *)
Theorem loyal_clients_sessions (clients : list client) :
  let merged := merge_duplicate_clients calculate_similarity threshold clients in
  (∀ min_sessions m,
     m ∈ filter_loyal_clients merged min_sessions ->
     min_sessions
     <= Z.of_nat (size (list_to_set (Merged.dates m) : gset string)))
  ∧ (∀ m, m ∈ filter_loyal_clients merged MIN_SESSIONS ->
       ∃ d1 d2, d1 ∈ Merged.dates m ∧ d2 ∈ Merged.dates m ∧ d1 <> d2)
  ∧ (∀ min_sessions, min_sessions <= 0 ->
       filter_loyal_clients merged min_sessions = merged).
Proof.
  cbv zeta. split_and!.
  - intros min_sessions m. rewrite filter_loyal_clients_filter.
    intros [Hmin Hm]%list_elem_of_filter.
    destruct (merged_dates_facts _ _ _ _ Hm) as (Hnd & _ & Hnb).
    rewrite size_list_to_set by done. lia.
  - intros m. rewrite filter_loyal_clients_filter.
    intros [Hmin Hm]%list_elem_of_filter.
    destruct (merged_dates_facts _ _ _ _ Hm) as (Hnd & _ & Hnb).
    unfold MIN_SESSIONS in Hmin. rewrite Hnb in Hmin.
    destruct (Merged.dates m) as [|d1 [|d2 ds]]; simpl in Hmin; [lia..|].
    exists d1, d2. split_and!; [by left|by right; left|].
    apply NoDup_cons in Hnd as [Hd1 _]. intros ->. apply Hd1. by left.
  - intros min_sessions Hmin. rewrite filter_loyal_clients_filter.
    apply filter_all. apply Forall_forall. intros m Hm.
    destruct (merged_dates_facts _ _ _ _ Hm) as (_ & _ & Hnb). lia.
Qed.
End Loyal.

(** ** Cells once flattened *)

Lemma flatten_eq_spec (cell_data : cell) :
  flatten_cell_content cell_data = flatten_spec cell_data.
Proof.
  induction cell_data as [s|items IH|truth text] using cell_rect_items;
    [done| |done].
  simpl. f_equal. by rewrite (flatten_loop_spec items [] IH).
Qed.

Lemma lstrip_app (a x : string) :
  a <> "" -> Py.lstrip a = a -> Py.lstrip (a +:+ x) = a +:+ x.
Proof.
  destruct a as [|c a]; [done|]. intros _ H. simpl in *.
  destruct (Py.is_space c); [|done].
  exfalso. pose proof (f_equal String.length H) as Hlen. simpl in Hlen.
  assert (Hle : ∀ s, (String.length (Py.lstrip s) <= String.length s)%nat).
  { clear. induction s as [|c s IH]; simpl; [done|].
    destruct (Py.is_space c); simpl; lia. }
  specialize (Hle a). lia.
Qed.

Lemma append_nonempty_r (a b : string) : b <> "" -> a +:+ b <> "".
Proof.
  destruct a as [|c a]; [done|]. intros _.
  change (String c (a +:+ b) <> ""). done.
Qed.

Lemma append_assoc (a b c : string) : (a +:+ b) +:+ c = a +:+ (b +:+ c).
Proof.
  induction a as [|x a IH]; [done|].
  change (String x ((a +:+ b) +:+ c) = String x (a +:+ (b +:+ c))).
  by rewrite IH.
Qed.

Lemma rstrip_app (x b : string) :
  b <> "" -> Py.rstrip b = b -> Py.rstrip (x +:+ b) = x +:+ b.
Proof.
  intros Hne Hb. induction x as [|c x IH]; [done|].
  change (Py.rstrip (String c (x +:+ b)) = String c (x +:+ b)).
  simpl. rewrite IH. destruct (x +:+ b) eqn:E; [|done].
  by apply append_nonempty_r in E.
Qed.

Lemma join_stripped (parts : list string) :
  Forall (λ f, f <> "" ∧ stripped f) parts ->
  stripped (Py.join " " parts) ∧ (parts <> [] -> Py.join " " parts <> "").
Proof.
  induction 1 as [|p parts [Hne Hs] Hparts [IHs IHne]]; [done|].
  destruct parts as [|q parts]; [done|].
  change (Py.join " " (p :: q :: parts))
    with (p +:+ " " +:+ Py.join " " (q :: parts)).
  specialize (IHne ltac:(done)).
  apply stripped_both in Hs as [Hl Hr]. apply stripped_both in IHs as [Jl Jr].
  split; [|intros _; by destruct p].
  apply stripped_both. split.
  - by apply lstrip_app.
  - rewrite <- (append_assoc p " " (Py.join " " (q :: parts))).
    by apply rstrip_app.
Qed.

(** X13. The text of a flattened cell has no white space at its ends;
    wrapping a cell in a list, as [docx2python] nests its output, does not
    change its text, and items that flatten to nothing do not show in the
    text of a list. *)
Theorem flatten_cell_content_stripped :
  (∀ cell_data, stripped (flatten_cell_content cell_data))
  ∧ (∀ cell_data,
       flatten_cell_content (Lst [cell_data]) = flatten_cell_content cell_data)
  ∧ (∀ items,
       flatten_cell_content (Lst items)
       = flatten_cell_content
           (Lst (List.filter (λ c, Py.truthy (flatten_cell_content c)) items))).
Proof.
  split_and!.
  - induction cell_data as [s|items IH|truth text] using cell_rect_items.
    + apply strip_stripped.
    + rewrite flatten_eq_spec. simpl. apply join_stripped.
      apply Forall_forall. intros f Hf.
      apply list_elem_of_In, filter_In in Hf as [Hf Ht].
      apply in_map_iff in Hf as (c & <- & Hc). split; [by apply truthy_true|].
      rewrite <- flatten_eq_spec. rewrite Forall_forall in IH.
      by apply IH, list_elem_of_In.
    + simpl. destruct truth; [apply strip_stripped|done].
  - intros cell_data. simpl. by destruct (flatten_cell_content cell_data).
  - intros items. rewrite !flatten_eq_spec. simpl. f_equal.
    induction items as [|c items IH]; [done|]. simpl.
    rewrite <- flatten_eq_spec.
    destruct (Py.truthy (flatten_cell_content c)) eqn:E; simpl.
    + rewrite <- flatten_eq_spec, E. by f_equal.
    + done.
Qed.

(** ** The two versions of [parse_dates] *)

(** X14. On a text in every token of which [dateparser] finds a date, the
    two versions of [parse_dates] return the same dates: the version of
    [radiance_crm_app.py] returns, once each, the dates the version of
    [main.py] returns. Either version returns at most one date for each
    token. *)
Theorem parse_dates_agree (dateparser_parse : string -> parsed)
    (current_year : Z) (date_text : string) :
  ((∀ t, t ∈ date_parts date_text -> ∃ dt, dateparser_parse t = Parsed dt) ->
   ∀ s, s ∈ App.parse_dates dateparser_parse current_year date_text
        <-> s ∈ Main.parse_dates dateparser_parse date_text)
  ∧ (length (Main.parse_dates dateparser_parse date_text)
     <= length (date_parts date_text))%nat
  ∧ (length (App.parse_dates dateparser_parse current_year date_text)
     <= length (date_parts date_text))%nat.
Proof.
  assert (Hlen_main : ∀ parts dates,
    (length (Main.parse_loop dateparser_parse parts dates)
     <= length dates + length parts)%nat).
  { induction parts as [|p parts IH]; intros dates; simpl; [lia|].
    etransitivity; [apply IH|]. rewrite length_app.
    assert (length (Main.parse_token dateparser_parse p) <= 1)%nat; [|lia].
    unfold Main.parse_token. repeat case_match; simpl; lia. }
  assert (Hlen_app : ∀ parts dates,
    (length (App.parse_loop dateparser_parse current_year parts dates)
     <= length dates + length parts)%nat).
  { induction parts as [|p parts IH]; intros dates; simpl; [lia|].
    etransitivity; [apply IH|]. rewrite length_app.
    assert (length (App.parse_token dateparser_parse current_year p) <= 1)%nat;
      [|lia].
    unfold App.parse_token, App.fallback. repeat case_match; simpl; lia. }
  split_and!.
  - intros Hall s. unfold App.parse_dates, Main.parse_dates, list_of_set.
    destruct (Py.truthy date_text); simpl; [|done].
    rewrite elem_of_elements, elem_of_list_to_set.
    assert (Heq : ∀ parts dates,
      (∀ t, t ∈ parts -> ∃ dt, dateparser_parse t = Parsed dt) ->
      App.parse_loop dateparser_parse current_year parts dates
      = Main.parse_loop dateparser_parse parts dates).
    { induction parts as [|p parts IH]; intros dates Hp; [done|]. simpl.
      destruct (Hp p ltac:(by left)) as [dt Hdt].
      unfold App.parse_token, Main.parse_token. rewrite Hdt.
      apply IH. intros t Ht. apply Hp. by right. }
    by rewrite Heq.
  - unfold Main.parse_dates. destruct (Py.truthy date_text); simpl; [|lia].
    apply (Hlen_main _ []).
  - unfold App.parse_dates, list_of_set.
    destruct (Py.truthy date_text); simpl; [|lia].
    etransitivity; [|apply (Hlen_app (date_parts date_text) [])].
    set (l := App.parse_loop _ _ _ _).
    change (size (list_to_set l : gset string) <= length l)%nat.
    clearbody l. induction l as [|x l IH]; [done|].
    rewrite list_to_set_cons, size_union_alt, size_singleton.
    assert (size (list_to_set l ∖ {[x]} : gset string)
            <= size (list_to_set l : gset string))%nat.
    { apply subseteq_size. set_solver. }
    simpl. lia.
Qed.

(** ** The records of the extraction of [radiance_crm_app.py] *)

Section AppExtractFacts.
Variable dateparser_parse : string -> parsed.
Variable current_year : Z.
Variable filename : string.

Lemma app_do_row_ok name_col date_col phone_col (r : row) clients :
  Forall (app_record_ok filename) clients ->
  Forall (app_record_ok filename)
    (AppExtract.do_row dateparser_parse current_year filename
       name_col date_col phone_col r clients).
Proof.
  intros Hc. unfold AppExtract.do_row.
  destruct (r !! name_col) as [name_cell|]; [|done].
  pose proof (parse_name_facts (flatten_cell_content name_cell)) as Hp.
  destruct (parse_name (flatten_cell_content name_cell)) as [[n p] tel].
  destruct Hp as (_ & Hn & Hpn & Htel & _).
  destruct (Py.truthy n) eqn:En; simpl; [|done].
  apply Forall_app. split; [done|]. constructor; [|done].
  unfold app_record_ok. simpl. split_and!; try done.
  - by apply truthy_true.
  - destruct (phone_col ≫= _) as [phone_cell|]; [|done].
    case_match; [apply normalize_phone_shape|done].
  - destruct (date_col ≫= _) as [date_cell|]; [|constructor].
    apply app_parse_dates_NoDup.
  - destruct (date_col ≫= _) as [date_cell|]; [|constructor].
    apply Forall_forall. intros s Hs. by eapply app_parse_dates_in_range.
Qed.

Lemma app_do_table_ok (t : table) clients :
  Forall (app_record_ok filename) clients ->
  Forall (app_record_ok filename)
    (AppExtract.do_table dateparser_parse current_year filename t clients).
Proof.
  intros Hc. unfold AppExtract.do_table. case_match; [done|].
  cbv zeta. case_match; [|done].
  apply fold_left_Forall; [|done]. intros acc r Hacc. by apply app_do_row_ok.
Qed.

Lemma app_extract_ok doc :
  Forall (app_record_ok filename)
    (AppExtract.extract_clients_from_docx dateparser_parse current_year
       filename doc).
Proof.
  destruct doc as [body|]; [|constructor]. simpl.
  apply fold_left_Forall; [|constructor]. intros acc section Hacc.
  apply fold_left_Forall; [|done]. intros acc' t Hacc'.
  by apply app_do_table_ok.
Qed.

Lemma app_do_row_length name_col date_col phone_col (r : row) clients :
  (length (AppExtract.do_row dateparser_parse current_year filename
             name_col date_col phone_col r clients)
   <= S (length clients))%nat.
Proof.
  unfold AppExtract.do_row. repeat case_match; rewrite ?length_app; simpl; lia.
Qed.

(** X15. Every record [extract_clients_from_docx] of [radiance_crm_app.py]
    builds has a non-empty last name, names without white space, a phone
    number that is empty or made of at least nine digits, dates without
    repetition that all have a day, a month and a year in range, a session
    count equal to the number of its dates, and the name of the file. *)
Theorem app_extract_records (doc : option (list (list table))) :
  Forall
    (λ c, nom c <> ""
          ∧ no_char Py.is_space (nom c) ∧ no_char Py.is_space (prenom c)
          ∧ phone_shape (telephone c)
          ∧ NoDup (dates c) ∧ Forall date_in_range (dates c)
          ∧ nb_seances c = Z.of_nat (length (dates c))
          ∧ source_file c = filename)
    (AppExtract.extract_clients_from_docx dateparser_parse current_year
       filename doc).
Proof. apply app_extract_ok. Qed.

(** X16. A table gives [radiance_crm_app.py] at most one record for each
    row after its first, which is the header and gives none: a table of
    fewer than two rows gives nothing, and so does a table whose header
    names no name column. *)
Theorem app_table_records (t : table) (clients : list client) :
  let result :=
    AppExtract.do_table dateparser_parse current_year filename t clients in
  (length result <= length clients + (length t - 1))%nat
  ∧ ((length t < 2)%nat -> result = clients)
  ∧ (AppExtract.find_col AppExtract.name_keys
       (enumerate ((λ cell, Py.lower (flatten_cell_content cell))
                   <$> hd [] t)) = None ->
     result = clients).
Proof.
  cbv zeta. unfold AppExtract.do_table. split_and!.
  - case_match; [lia|]. cbv zeta. case_match; [|lia].
    destruct t as [|h rows]; [simpl; lia|]. simpl tl. simpl length.
    replace (S (length rows) - 1)%nat with (length rows) by lia.
    clear. revert clients.
    induction rows as [|r rows IH]; intros clients; simpl; [lia|].
    etransitivity; [apply IH|].
    pose proof (app_do_row_length n
      (AppExtract.find_col AppExtract.date_keys
         (enumerate ((λ cell, Py.lower (flatten_cell_content cell)) <$> h)))
      (AppExtract.find_col AppExtract.phone_keys
         (enumerate ((λ cell, Py.lower (flatten_cell_content cell)) <$> h)))
      r clients). lia.
  - intros Hlen. by rewrite (proj2 (Nat.ltb_lt _ _) Hlen).
  - intros Hnone. case_match; [done|]. cbv zeta.
    destruct t as [|h rows]; [done|].
    unfold hd in Hnone. lazy beta match in Hnone. lazy beta match.
    by rewrite Hnone.
Qed.
End AppExtractFacts.

(** ** The rows of [main.py] *)

Section MainRows.
Variable dateparser_parse : string -> parsed.
Variable basename : string.

Lemma add_clients_new client_texts unique_dates clients :
  ∃ new,
    MainExtract.add_clients basename client_texts unique_dates clients
      = clients ++ new
    ∧ (length new <= length client_texts)%nat
    ∧ Forall (λ c, dates c = unique_dates ∧ source_file c = basename
                   ∧ no_char Py.is_space (nom c)
                   ∧ no_char Py.is_space (prenom c)
                   ∧ phone_shape (telephone c)) new.
Proof.
  revert clients. induction client_texts as [|t texts IH]; intros clients.
  - exists []. by rewrite app_nil_r.
  - simpl. pose proof (parse_name_facts t) as Hp.
    destruct (parse_name t) as [[n p] tel].
    destruct Hp as (_ & Hn & Hpn & Htel & _).
    destruct (Py.truthy n); simpl.
    + destruct (IH (clients ++ [ {| nom := n; prenom := p; telephone := tel;
                                    dates := unique_dates;
                                    nb_seances := Z.of_nat (length unique_dates);
                                    source_file := basename |} ]))
        as (new & -> & Hlen & Hnew).
      eexists (_ :: new). split; [by rewrite <- app_assoc|].
      split; [simpl; lia|]. by constructor.
    + destruct (IH clients) as (new & -> & Hlen & Hnew).
      exists new. split_and!; [done|lia|done].
Qed.

(** X17. The records [main.py] builds from one row of a table all carry
    the same dates, those of the row, whichever client of the cell they
    are for; there are at most as many as [split_clients_in_cell] finds
    fragments in the first cell; and each has names without white space, a
    phone number that is empty or of at least nine digits, and the name of
    the file. *)
Theorem main_row_records (r : row) :
  let records := MainExtract.do_row dateparser_parse basename r [] in
  (∀ c1 c2, c1 ∈ records -> c2 ∈ records -> dates c1 = dates c2)
  ∧ (length records
     <= length (split_clients_in_cell
                  (flatten_cell_content (hd (Str "") r))))%nat
  ∧ Forall (λ c, source_file c = basename
                 ∧ no_char Py.is_space (nom c)
                 ∧ no_char Py.is_space (prenom c)
                 ∧ phone_shape (telephone c)) records.
Proof.
  cbv zeta. unfold MainExtract.do_row. destruct r as [|first others].
  { split_and!; [|simpl; lia|constructor]. by intros c1 c2 ?%elem_of_nil. }
  case_match.
  { split_and!; [|simpl; lia|constructor]. by intros c1 c2 ?%elem_of_nil. }
  cbv zeta.
  destruct (add_clients_new
              (split_clients_in_cell (flatten_cell_content first))
              (sorted_list (list_to_set
                 (MainExtract.collect_dates dateparser_parse others []))) [])
    as (new & -> & Hlen & Hnew).
  simpl. rewrite Forall_forall in Hnew. split_and!.
  - intros c1 c2 H1 H2.
    destruct (Hnew c1 H1) as [-> _]. by destruct (Hnew c2 H2) as [-> _].
  - done.
  - apply Forall_forall. intros c Hc. by destruct (Hnew c Hc) as (_ & ? & ?).
Qed.
End MainRows.

(** ** The pipeline of [radiance_crm_app.py] *)

Lemma app_process_all_ok (dateparser_parse : string -> parsed)
    (current_year : Z)
    (docx_files : list (string * option (list (list table)))) :
  Forall (λ c, ∃ filename, app_record_ok filename c)
    (AppExtract.process_all_docx_files dateparser_parse current_year docx_files).
Proof.
  unfold AppExtract.process_all_docx_files.
  apply fold_left_Forall; [|constructor].
  intros acc f Hacc. apply Forall_app. split; [done|].
  eapply Forall_impl; [apply app_extract_ok|]. intros c Hc. by exists f.1.
Qed.

(** X18. Every merged record of the pipeline of [radiance_crm_app.py],
    extraction then deduplication, has a non-empty last name, dates that
    all have a day, a month and a year in range, listed once each, and a
    session count equal to their number. *)
Theorem app_pipeline_record_invariant
    (dateparser_parse : string -> parsed) (current_year : Z)
    (ratio : string -> string -> Q)
    (docx_files : list (string * option (list (list table))))
    (threshold : Z) (m : Merged.t) :
  m ∈ AppMerge.merge_duplicate_clients ratio
        (AppExtract.process_all_docx_files dateparser_parse current_year
           docx_files)
        threshold ->
  Merged.nom m <> ""
  ∧ Forall date_in_range (Merged.dates m)
  ∧ NoDup (Merged.dates m)
  ∧ Merged.nb_seances m = Z.of_nat (length (Merged.dates m)).
Proof.
  intros Hm. unfold AppMerge.merge_duplicate_clients in Hm.
  pose proof (app_process_all_ok dateparser_parse current_year docx_files)
    as Hok.
  rewrite Forall_forall in Hok.
  destruct (merged_dates_facts _ _ _ _ Hm) as (Hnd & _ & Hnb).
  destruct (merged_nom_from_client _ _ _ _ Hm) as (c & Hc & Hnom & _).
  split_and!; [|apply Forall_forall|done..].
  - rewrite Hnom. by destruct (Hok c Hc) as (f & ? & _).
  - intros d Hd.
    destruct (merged_date_origin _ _ _ _ _ Hm Hd) as (c' & Hc' & Hd').
    destruct (Hok c' Hc') as (f & _ & _ & _ & _ & _ & Hrange & _).
    rewrite Forall_forall in Hrange. by apply Hrange.
Qed.

(** ** Export *)

Lemma string_ltb_asym (a b : string) :
  String.ltb a b = true -> String.ltb b a = false.
Proof.
  unfold String.ltb. rewrite (String.compare_antisym b a).
  by destruct (String.compare a b).
Qed.

Lemma string_ltb_irrefl (a : string) : String.ltb a a = false.
Proof.
  destruct (String.ltb a a) eqn:E; [|done].
  pose proof (string_ltb_asym a a E). congruence.
Qed.

Lemma key_lt_asym (a b : Z * string * string) :
  Exports.key_lt a b = true -> Exports.key_lt b a = false.
Proof.
  destruct a as [[n1 s1] t1], b as [[n2 s2] t2]. simpl.
  rewrite (Z.eqb_sym n2 n1), (String.eqb_sym s2 s1).
  destruct (Z.eqb_spec n1 n2) as [->|Hn].
  - destruct (String.eqb s1 s2); apply string_ltb_asym.
  - intros H%Z.ltb_lt. apply Z.ltb_ge. lia.
Qed.

Lemma key_lt_irrefl (a : Z * string * string) : Exports.key_lt a a = false.
Proof.
  destruct (Exports.key_lt a a) eqn:E; [|done].
  pose proof (key_lt_asym a a E). congruence.
Qed.

Lemma export_insert_perm (c : Merged.t) (l : list Merged.t) :
  Exports.insert c l ≡ₚ c :: l.
Proof.
  induction l as [|d l IH]; [done|]. simpl. case_match; [|done].
  rewrite IH. apply Permutation_swap.
Qed.

Lemma export_insert_hd (c x : Merged.t) (l : list Merged.t) :
  export_le x c -> HdRel export_le x l -> HdRel export_le x (Exports.insert c l).
Proof.
  intros Hxc [|d l' Hxd]; simpl; [by constructor|].
  case_match; by constructor.
Qed.

Lemma export_insert_sorted (c : Merged.t) (l : list Merged.t) :
  Sorted export_le l -> Sorted export_le (Exports.insert c l).
Proof.
  induction 1 as [|d l Hs IH Hd]; cbn [Exports.insert];
    [by repeat constructor|].
  destruct (Exports.key_lt (Exports.sort_key d) (Exports.sort_key c)) eqn:E.
  - constructor; [done|]. apply export_insert_hd; [|done].
    by apply key_lt_asym.
  - constructor; [by constructor|]. by constructor.
Qed.

Lemma export_insert_stable (k : Z * string * string) (c : Merged.t)
    (l : list Merged.t) :
  filter (λ x, Exports.sort_key x = k) (Exports.insert c l)
  = filter (λ x, Exports.sort_key x = k) (c :: l).
Proof.
  induction l as [|d l IH]; [done|]. cbn [Exports.insert].
  destruct (Exports.key_lt (Exports.sort_key d) (Exports.sort_key c)) eqn:E;
    [|done].
  rewrite (filter_cons _ d), IH, !filter_cons.
  destruct (decide (Exports.sort_key c = k)) as [Hc|Hc];
    destruct (decide (Exports.sort_key d = k)) as [Hd|Hd]; try done.
  rewrite Hc, Hd, key_lt_irrefl in E. done.
Qed.

Lemma sorted_clients_facts (clients : list Merged.t) :
  Exports.sorted_clients clients ≡ₚ clients
  ∧ Sorted export_le (Exports.sorted_clients clients)
  ∧ ∀ k, filter (λ x, Exports.sort_key x = k) (Exports.sorted_clients clients)
         = filter (λ x, Exports.sort_key x = k) clients.
Proof.
  induction clients as [|c clients (IHp & IHs & IHk)]; [by repeat constructor|].
  simpl. split_and!.
  - by rewrite export_insert_perm, IHp.
  - by apply export_insert_sorted.
  - intros k. by rewrite export_insert_stable, !filter_cons, IHk.
Qed.

#[global] Instance by_sessions_trans :
  Transitive (λ a b : Merged.t, Merged.nb_seances b <= Merged.nb_seances a).
Proof. intros a b c. lia. Qed.

Lemma export_le_sessions (c d : Merged.t) :
  export_le c d -> Merged.nb_seances d <= Merged.nb_seances c.
Proof.
  unfold export_le, Exports.sort_key. simpl.
  destruct (Z.eqb_spec (- Merged.nb_seances d) (- Merged.nb_seances c));
    [lia|].
  intros H%Z.ltb_ge. lia.
Qed.

Lemma sorted_clients_sessions (clients : list Merged.t) :
  StronglySorted (λ a b, Merged.nb_seances b <= Merged.nb_seances a)
    (Exports.sorted_clients clients).
Proof.
  apply Sorted_StronglySorted; [apply _|].
  destruct (sorted_clients_facts clients) as (_ & Hs & _).
  induction Hs as [|d l Hs IH Hd]; constructor; [done|].
  destruct Hd; constructor. by apply export_le_sessions.
Qed.

(** X19. The export functions write nothing for an empty list. Otherwise
    they write one row for each client, the clients taken in decreasing
    order of session count, then in increasing order of last name, then of
    first name, and clients with the same three in the order they had. *)
Theorem export_order (clients : list Merged.t) :
  (Exports.export_to_csv clients = None <-> clients = [])
  ∧ (Exports.export_to_odoo_format clients = None <-> clients = [])
  ∧ ∀ rows, Exports.export_to_csv clients = Some rows ->
      ∃ ordered,
        rows = Exports.to_csv_row <$> ordered
        ∧ ordered ≡ₚ clients
        ∧ Sorted export_le ordered
        ∧ StronglySorted
            (λ a b, Merged.nb_seances b <= Merged.nb_seances a) ordered
        ∧ (∀ k, filter (λ x, Exports.sort_key x = k) ordered
                = filter (λ x, Exports.sort_key x = k) clients)
        ∧ StronglySorted
            (λ a b, Exports.Nombre_de_seances b <= Exports.Nombre_de_seances a)
            rows.
Proof.
  split_and!.
  - by destruct clients.
  - by destruct clients.
  - intros rows Hrows. exists (Exports.sorted_clients clients).
    destruct (sorted_clients_facts clients) as (Hp & Hs & Hk).
    assert (rows = Exports.to_csv_row <$> Exports.sorted_clients clients)
      as ->.
    { destruct clients; [done|]. by injection Hrows as <-. }
    split_and!; try done; [apply sorted_clients_sessions|].
    eapply StronglySorted_fmap; [|apply sorted_clients_sessions].
    by intros x y.
Qed.

Lemma full_name_stripped (prenom nom : string) :
  nom <> "" -> stripped nom -> stripped prenom -> prenom <> "" ->
  stripped (prenom +:+ " " +:+ nom).
Proof.
  intros Hn Hsn Hsp Hp.
  by destruct (join_stripped [prenom; nom] ltac:(by repeat constructor)).
Qed.

Lemma names_ok_sorted (clients : list Merged.t) :
  Forall names_ok clients -> Forall names_ok (Exports.sorted_clients clients).
Proof.
  destruct (sorted_clients_facts clients) as (Hp & _). by rewrite Hp.
Qed.

(** X20. For clients whose last name is not empty and whose names and
    phone number have no white space at their ends, as the pipeline makes
    them, [export_odoo_csv] of [radiance_crm_app.py] with tags writes the
    rows that [export_to_odoo_format] of [main.py] writes; there is one row
    for each client, and no row has an empty name. *)
Theorem odoo_exports_agree (clients : list Merged.t) :
  Forall names_ok clients ->
  Exports.export_odoo_csv clients true = Exports.export_to_odoo_format clients
  ∧ ∀ rows, Exports.export_to_odoo_format clients = Some rows ->
      length rows = length clients
      ∧ Forall (λ r, Exports.Name r <> "" ∧ stripped (Exports.Name r)) rows.
Proof.
  intros Hok. pose proof (names_ok_sorted clients Hok) as Hsorted.
  destruct (sorted_clients_facts clients) as (Hperm & _).
  unfold Exports.export_odoo_csv, Exports.export_to_odoo_format.
  destruct clients as [|c0 clients0]; [done|].
  set (clients := c0 :: clients0) in *. clearbody clients. split.
  - f_equal. apply Forall_fmap_ext_1.
    eapply Forall_impl; [exact Hsorted|]. intros c (Hn & Hsn & Hsp & _).
    cbv beta zeta. destruct (Py.truthy (Merged.prenom c)) eqn:E; [|done].
    f_equal. by apply full_name_stripped; [..|apply truthy_true].
  - intros rows [= <-]. split; [by rewrite length_fmap, Hperm|].
    apply Forall_fmap. eapply Forall_impl; [exact Hsorted|].
    intros c (Hn & Hsn & Hsp & _). cbn.
    destruct (Py.truthy (Merged.prenom c)) eqn:E; [|done]. split.
    + by destruct (Merged.prenom c).
    + by apply full_name_stripped; [..|apply truthy_true].
Qed.

(** ** [main2.py] *)





(** ** Statistics *)

Lemma session_counts_fold (clients : list Merged.t) (acc : gmap Z nat) (n : Z) :
  default 0%nat
    (fold_left
       (λ counts client,
          <[Merged.nb_seances client
            := (default 0%nat (counts !! Merged.nb_seances client) + 1)%nat]>
            counts)
       clients acc !! n)
  = (default 0%nat (acc !! n) + with_sessions n clients)%nat.
Proof.
  revert acc. induction clients as [|c clients IH]; intros acc.
  - unfold with_sessions. simpl. lia.
  - cbn [fold_left]. rewrite IH. unfold with_sessions.
    rewrite filter_cons. destruct (decide (Merged.nb_seances c = n)) as [->|Hne].
    + rewrite lookup_insert_eq. simpl. lia.
    + rewrite lookup_insert_ne by done. lia.
Qed.

Lemma session_counts_dom (clients : list Merged.t) (acc : gmap Z nat) :
  dom (fold_left
         (λ counts client,
            <[Merged.nb_seances client
              := (default 0%nat (counts !! Merged.nb_seances client) + 1)%nat]>
              counts)
         clients acc)
  = dom acc ∪ list_to_set (Merged.nb_seances <$> clients).
Proof.
  revert acc. induction clients as [|c clients IH]; intros acc.
  - simpl. set_solver.
  - cbn [fold_left]. rewrite IH, dom_insert_L, fmap_cons, list_to_set_cons.
    set_solver.
Qed.

Lemma with_sessions_pos (n : Z) (clients : list Merged.t) :
  (0 < with_sessions n clients)%nat
  <-> n ∈ (list_to_set (Merged.nb_seances <$> clients) : gset Z).
Proof.
  unfold with_sessions. rewrite elem_of_list_to_set, list_elem_of_fmap.
  induction clients as [|c clients IH].
  - simpl. split; [lia|]. by intros (c & _ & ?%elem_of_nil).
  - rewrite filter_cons. destruct (decide (Merged.nb_seances c = n)) as [<-|Hne].
    + split; [|simpl; lia]. intros _. exists c. split; [done|by left].
    + rewrite IH. split.
      * intros (x & Hx & Hin). exists x. split; [done|by right].
      * intros (x & Hx & [->|Hin]%elem_of_cons); [done|by exists x].
Qed.

Lemma sum_indicator (x : Z) (ks : list Z) :
  NoDup ks -> x ∈ ks ->
  sum_list ((λ n, if decide (x = n) then 1%nat else 0%nat) <$> ks) = 1%nat.
Proof.
  induction 1 as [|k ks Hk Hnd IH]; [by intros ?%elem_of_nil|].
  intros [->|Hx]%elem_of_cons; simpl.
  - rewrite decide_True by done. f_equal.
    clear IH. induction ks as [|k' ks IH']; [done|]. simpl.
    rewrite decide_False by set_solver. apply IH'; [set_solver|].
    by apply NoDup_cons in Hnd as [_ ?].
  - rewrite decide_False by set_solver. by apply IH.
Qed.

Lemma sum_with_sessions (ks : list Z) (clients : list Merged.t) :
  NoDup ks -> (∀ c, c ∈ clients -> Merged.nb_seances c ∈ ks) ->
  sum_list ((λ n, with_sessions n clients) <$> ks) = length clients.
Proof.
  intros Hnd. induction clients as [|c clients IH]; intros Hall.
  - unfold with_sessions. simpl. clear Hnd Hall.
    induction ks as [|k ks IHk]; [done|]. simpl. exact IHk.
  - assert (Hsplit : ∀ l : list Z,
      sum_list ((λ n, with_sessions n (c :: clients)) <$> l)
      = (sum_list ((λ n, if decide (Merged.nb_seances c = n)
                         then 1%nat else 0%nat) <$> l)
         + sum_list ((λ n, with_sessions n clients) <$> l))%nat).
    { induction l as [|k l IHl]; [done|].
      rewrite !fmap_cons. cbn [sum_list_with]. rewrite IHl.
      unfold with_sessions, id. rewrite filter_cons.
      destruct (decide (Merged.nb_seances c = k)); simpl; lia. }
    rewrite Hsplit, sum_indicator, IH; [done| |done|].
    + intros x Hx. apply Hall. by right.
    + apply Hall. by left.
Qed.

#[global] Instance descending_trans : Transitive Stats.descending.
Proof. intros a b c. unfold Stats.descending. lia. Qed.

#[global] Instance descending_total : Total Stats.descending.
Proof. intros a b. unfold Stats.descending. lia. Qed.

Lemma with_phone_le (clients : list Merged.t) :
  (length (List.filter (λ c, Py.truthy (Merged.telephone c)) clients)
   <= length clients)%nat.
Proof.
  induction clients as [|c clients IH]; [done|]. simpl.
  destruct (Py.truthy (Merged.telephone c)); simpl; lia.
Qed.

(** X23. [display_statistics] prints nothing for an empty list. Otherwise
    its distribution lists the session counts that occur among the
    clients, once each and in decreasing order, each with the number of
    clients that have it; these numbers add up to the number of clients;
    the percentage of clients with a phone number lies between 0 and 100;
    and the list of top clients has five entries at most. *)
Theorem display_statistics_report (clients : list Merged.t) :
  (Stats.display_statistics clients = None <-> clients = [])
  ∧ ∀ rep, Stats.display_statistics clients = Some rep ->
      Stats.total rep = length clients
      ∧ NoDup (Stats.distribution rep).*1
      ∧ StronglySorted Stats.descending (Stats.distribution rep).*1
      ∧ (∀ n k, (n, k) ∈ Stats.distribution rep
                <-> k = with_sessions n clients ∧ (0 < k)%nat)
      ∧ sum_list (Stats.distribution rep).*2 = length clients
      ∧ (Stats.with_phone rep <= Stats.total rep)%nat
      ∧ 0 <= Stats.percent rep <= 100
      ∧ (length (Stats.top_clients rep) <= 5)%nat.
Proof.
  split; [by destruct clients|].
  intros rep Hrep. unfold Stats.display_statistics in Hrep.
  assert (Hne : clients <> []) by by destruct clients.
  assert (rep = {|
    Stats.total := length clients;
    Stats.distribution :=
      (λ nb, (nb, default 0%nat (Stats.session_counts clients !! nb)))
      <$> Stats.keys_descending (Stats.session_counts clients);
    Stats.top_clients := take 5 (Stats.by_sessions clients);
    Stats.with_phone :=
      length (List.filter (λ c, Py.truthy (Merged.telephone c)) clients);
    Stats.percent :=
      Z.of_nat (length (List.filter (λ c, Py.truthy (Merged.telephone c))
                          clients)) * 100 / Z.of_nat (length clients) |})
    as ->.
  { destruct clients; [done|]. by injection Hrep as <-. }
  clear Hrep. cbn [Stats.total Stats.distribution Stats.top_clients
                   Stats.with_phone Stats.percent].
  assert (Hcount : ∀ n, default 0%nat (Stats.session_counts clients !! n)
                        = with_sessions n clients).
  { intros n. unfold Stats.session_counts.
    by rewrite session_counts_fold, lookup_empty. }
  assert (Hkeys : Stats.keys_descending (Stats.session_counts clients)
                  ≡ₚ elements (list_to_set (Merged.nb_seances <$> clients)
                                 : gset Z)).
  { unfold Stats.keys_descending. rewrite merge_sort_Permutation.
    unfold Stats.session_counts. rewrite session_counts_dom.
    by rewrite dom_empty_L, (left_id_L ∅ (∪)). }
  assert (Hnd : NoDup (Stats.keys_descending (Stats.session_counts clients))).
  { rewrite Hkeys. apply NoDup_elements. }
  assert (Hfst : ((λ nb, (nb, default 0%nat
                                (Stats.session_counts clients !! nb)))
                  <$> Stats.keys_descending (Stats.session_counts clients)).*1
                 = Stats.keys_descending (Stats.session_counts clients)).
  { rewrite <- list_fmap_compose. apply list_fmap_id. }
  pose proof (with_phone_le clients) as Hphone.
  assert (Hlen : 0 < Z.of_nat (length clients))
    by (destruct clients; [done|simpl; lia]).
  split_and!.
  - done.
  - by rewrite Hfst.
  - rewrite Hfst. apply StronglySorted_merge_sort; apply _.
  - intros n k. rewrite list_elem_of_fmap. split.
    + intros (n' & [= -> ->] & Hn). rewrite Hcount. split; [done|].
      apply with_sessions_pos. rewrite Hkeys in Hn.
      by apply elem_of_elements in Hn.
    + intros [-> Hpos]. exists n. rewrite Hcount. split; [done|].
      rewrite Hkeys. by apply elem_of_elements, with_sessions_pos.
  - rewrite <- list_fmap_compose.
    erewrite list_fmap_ext; [apply (sum_with_sessions _ _ Hnd)|].
    + intros c Hc. rewrite Hkeys. apply elem_of_elements.
      apply elem_of_list_to_set. by apply list_elem_of_fmap_2.
    + intros i n _. simpl. apply Hcount.
  - done.
  - apply Z.div_pos; lia.
  - apply Z.div_le_upper_bound; lia.
  - rewrite length_take. lia.
Qed.

Lemma stats_insert_perm (c : Merged.t) (l : list Merged.t) :
  Stats.insert c l ≡ₚ c :: l.
Proof.
  induction l as [|d l IH]; [done|]. cbn [Stats.insert].
  case_match; [|done]. by rewrite IH, Permutation_swap.
Qed.

Lemma stats_insert_sorted (c : Merged.t) (l : list Merged.t) :
  StronglySorted (λ a b, Merged.nb_seances b <= Merged.nb_seances a) l ->
  StronglySorted (λ a b, Merged.nb_seances b <= Merged.nb_seances a)
    (Stats.insert c l).
Proof.
  induction 1 as [|d l Hl IH Hd]; [by repeat constructor|].
  cbn [Stats.insert]. destruct (Z.ltb_spec (Merged.nb_seances c)
                                  (Merged.nb_seances d)).
  - constructor; [done|]. rewrite stats_insert_perm.
    constructor; [lia|done].
  - constructor; [by constructor|]. constructor; [lia|].
    eapply Forall_impl; [exact Hd|]. intros x. simpl. lia.
Qed.

Lemma stats_insert_stable (n : Z) (c : Merged.t) (l : list Merged.t) :
  StronglySorted (λ a b, Merged.nb_seances b <= Merged.nb_seances a) l ->
  filter (λ x, Merged.nb_seances x = n) (Stats.insert c l)
  = filter (λ x, Merged.nb_seances x = n) (c :: l).
Proof.
  induction 1 as [|d l Hl IH Hd]; [done|].
  cbn [Stats.insert]. destruct (Z.ltb_spec (Merged.nb_seances c)
                                  (Merged.nb_seances d)); [|done].
  rewrite (filter_cons _ d), IH, !filter_cons.
  repeat case_decide; try done. lia.
Qed.

Lemma by_sessions_facts (clients : list Merged.t) :
  Stats.by_sessions clients ≡ₚ clients
  ∧ StronglySorted (λ a b, Merged.nb_seances b <= Merged.nb_seances a)
      (Stats.by_sessions clients)
  ∧ ∀ n, filter (λ x, Merged.nb_seances x = n) (Stats.by_sessions clients)
         = filter (λ x, Merged.nb_seances x = n) clients.
Proof.
  induction clients as [|c clients (IHp & IHs & IHk)]; [by repeat constructor|].
  simpl. split_and!.
  - by rewrite stats_insert_perm, IHp.
  - by apply stats_insert_sorted.
  - intros n. by rewrite stats_insert_stable, !filter_cons, IHk.
Qed.

(** X24. The top clients that [display_statistics] lists are the first
    five, or all when there are fewer, of the clients put in decreasing
    order of session count, clients with the same count keeping the order
    they had: no client left out has more sessions than a client
    listed. *)
Theorem top_clients_order (clients : list Merged.t) (rep : Stats.report) :
  Stats.display_statistics clients = Some rep ->
  ∃ rest,
    Stats.top_clients rep ++ rest ≡ₚ clients
    ∧ length (Stats.top_clients rep) = Nat.min 5 (length clients)
    ∧ StronglySorted (λ a b, Merged.nb_seances b <= Merged.nb_seances a)
        (Stats.top_clients rep ++ rest)
    ∧ (∀ t r, t ∈ Stats.top_clients rep -> r ∈ rest ->
              Merged.nb_seances r <= Merged.nb_seances t)
    ∧ ∀ n, filter (λ x, Merged.nb_seances x = n) (Stats.top_clients rep ++ rest)
           = filter (λ x, Merged.nb_seances x = n) clients.
Proof.
  intros Hrep. destruct (by_sessions_facts clients) as (Hp & Hs & Hk).
  assert (Stats.top_clients rep = take 5 (Stats.by_sessions clients)) as ->.
  { destruct clients; [done|]. by injection Hrep as <-. }
  exists (drop 5 (Stats.by_sessions clients)).
  rewrite take_drop. split_and!; try done.
  - by rewrite length_take, Hp.
  - intros t r Ht Hr. rewrite <- (take_drop 5) in Hs.
    apply (StronglySorted_app_1_elem_of _ _ _ _ _ Hs Ht Hr).
Qed.

(** ** The whole of [main] *)

Lemma main_loyal_facts (dateparser_parse : string -> parsed)
    (ratio : string -> string -> Q)
    (docx_files : list (string * option (list table))) :
  Forall (λ m, Merged.nom m <> "" ∧ 2 <= Merged.nb_seances m)
    (filter_loyal_clients
       (MainMerge.merge_duplicate_clients ratio
          (MainExtract.process_all_docx_files dateparser_parse docx_files)
          FUZZY_THRESHOLD)
       MIN_SESSIONS).
Proof.
  apply Forall_forall. intros m. rewrite filter_loyal_clients_filter.
  intros [Hmin Hm]%list_elem_of_filter.
  unfold MainMerge.merge_duplicate_clients in Hm.
  destruct (merged_nom_from_client _ _ _ _ Hm) as (c & Hc & Hnom & _).
  pose proof (process_all_well_formed dateparser_parse docx_files) as Hwf.
  rewrite Forall_forall in Hwf. destruct (Hwf c Hc) as (Hne & _).
  split; [by rewrite Hnom|done].
Qed.

(** X25. [main] of [main.py] stops without a file when no record is
    extracted, and when no merged record has two sessions or more.
    Otherwise it writes both files, with one row for each merged record
    that has two sessions or more: there is a row at least, every row of
    the standard file has a last name and a count of 2 or more, and no row
    of the Odoo file has an empty name. *)
Theorem main_outcome (dateparser_parse : string -> parsed)
    (ratio : string -> string -> Q)
    (docx_files : list (string * option (list table))) :
  let all_clients :=
    MainExtract.process_all_docx_files dateparser_parse docx_files in
  let merged_clients :=
    MainMerge.merge_duplicate_clients ratio all_clients FUZZY_THRESHOLD in
  (Exports.main dateparser_parse ratio docx_files = Exports.NoClient
   <-> all_clients = [])
  ∧ (Exports.main dateparser_parse ratio docx_files = Exports.NoLoyalClient
     <-> all_clients <> []
         ∧ Forall (λ m, Merged.nb_seances m < 2) merged_clients)
  ∧ ∀ csv odoo,
      Exports.main dateparser_parse ratio docx_files = Exports.Exported csv odoo ->
      ∃ rows odoo_rows,
        csv = Some rows ∧ odoo = Some odoo_rows
        ∧ rows <> []
        ∧ length rows
          = length (filter (λ m, 2 <= Merged.nb_seances m) merged_clients)
        ∧ length odoo_rows = length rows
        ∧ Forall (λ r, Exports.Nom r <> "" ∧ 2 <= Exports.Nombre_de_seances r)
            rows
        ∧ Forall (λ r, Exports.Name r <> "") odoo_rows.
Proof.
  cbv zeta. unfold Exports.main.
  pose proof (main_loyal_facts dateparser_parse ratio docx_files) as Hloyal.
  set (all_clients :=
         MainExtract.process_all_docx_files dateparser_parse docx_files) in *.
  set (merged_clients :=
         MainMerge.merge_duplicate_clients ratio all_clients FUZZY_THRESHOLD)
    in *.
  rewrite filter_loyal_clients_filter in *. unfold MIN_SESSIONS in *.
  assert (Hnil : filter (λ c, 2 <= Merged.nb_seances c) merged_clients = []
                 <-> Forall (λ m, Merged.nb_seances m < 2) merged_clients).
  { clearbody merged_clients. clear.
    induction merged_clients as [|m l IH]; [done|].
    rewrite filter_cons, Forall_cons. case_decide.
    - split; [done|]. intros [? _]. lia.
    - rewrite IH. split; [|by intros [_ ?]]. intros ?. split; [lia|done]. }
  set (loyal_clients := filter (λ c, 2 <= Merged.nb_seances c) merged_clients)
    in *.
  destruct (sorted_clients_facts loyal_clients) as (Hperm & _).
  clearbody loyal_clients merged_clients all_clients.
  destruct all_clients as [|c0 all_clients].
  { split_and!; [done| |done]. split; [done|]. by intros [? _]. }
  destruct (decide (loyal_clients = [])) as [He|Hne].
  { rewrite He. split_and!; [done| |done]. split; [|done]. intros _.
    split; [done|]. by apply Hnil. }
  assert (Hmain : ∀ A (x y : A),
            match loyal_clients with [] => x | _ :: _ => y end = y).
  { intros. by destruct loyal_clients. }
  rewrite Hmain. split_and!; [done| |].
  { split; [done|]. by intros [_ H%Hnil]. }
  intros csv odoo [= <- <-].
  exists (Exports.to_csv_row <$> Exports.sorted_clients loyal_clients).
  eexists. split_and!.
  - by destruct loyal_clients.
  - unfold Exports.export_to_odoo_format. by destruct loyal_clients.
  - intros H%fmap_nil_inv. rewrite H in Hperm.
    by apply Permutation_nil_l in Hperm.
  - by rewrite length_fmap, Hperm.
  - by rewrite !length_fmap.
  - apply Forall_fmap. rewrite Hperm. done.
  - apply Forall_fmap. rewrite Hperm.
    eapply Forall_impl; [exact Hloyal|]. intros m [Hn _]. cbn.
    destruct (Py.truthy (Merged.prenom m)) eqn:E; [|done].
    by destruct (Merged.prenom m).
Qed.

(** ** The two similarities *)

Lemma py_max_ge_l (a b : Q) : (a <= py_max a b)%Q.
Proof.
  unfold py_max. destruct (Qle_bool b a) eqn:E; [apply Qle_refl|].
  destruct (Qlt_le_dec a b) as [H|H]; [by apply Qlt_le_weak|].
  apply Qle_bool_iff in H. congruence.
Qed.

Lemma app_similarity_main (ratio : string -> string -> Q) (c1 c2 : client) :
  telephone c1 = "" ∨ telephone c2 = "" ∨ telephone c1 <> telephone c2 ->
  AppMerge.calculate_similarity ratio c1 c2
  = MainMerge.calculate_similarity ratio c1 c2.
Proof.
  unfold AppMerge.calculate_similarity, MainMerge.calculate_similarity.
  intros [H|[H|H]].
  - by rewrite H.
  - rewrite H. by rewrite andb_false_r.
  - apply String.eqb_neq in H. rewrite H. by rewrite andb_false_r.
Qed.

Lemma scan_ext (sim1 sim2 : client -> client -> Q) (threshold : Z)
    (client1 : client) (later : list (nat * client)) (acc : Acc.t)
    (processed : gset nat) :
  Forall (λ c2, similar sim1 threshold client1 c2
                = similar sim2 threshold client1 c2) later.*2 ->
  scan sim1 threshold client1 later acc processed
  = scan sim2 threshold client1 later acc processed.
Proof.
  revert acc processed.
  induction later as [|[j c2] later IH]; intros acc processed H; [done|].
  rewrite fmap_cons in H. apply Forall_cons in H as [Hc H].
  cbn [scan]. simpl in Hc. rewrite Hc.
  case_decide; [by apply IH|]. case_match; by apply IH.
Qed.

Lemma merge_loop_ext (sim1 sim2 : client -> client -> Q) (threshold : Z)
    (rest : list (nat * client)) (merged : list Merged.t)
    (processed : gset nat) :
  StronglySorted (λ c1 c2, similar sim1 threshold c1 c2
                           = similar sim2 threshold c1 c2) rest.*2 ->
  merge_loop sim1 threshold rest merged processed
  = merge_loop sim2 threshold rest merged processed.
Proof.
  revert merged processed.
  induction rest as [|[i c] rest IH]; intros merged processed H; [done|].
  rewrite fmap_cons in H. apply StronglySorted_inv in H as [H Hc].
  cbn [merge_loop]. case_decide; [by apply IH|].
  rewrite (scan_ext sim1 sim2) by done.
  destruct (scan sim2 threshold c rest (seed c) processed). by apply IH.
Qed.

Lemma StronglySorted_weaken {A} (R S : A -> A -> Prop) (l : list A) :
  (∀ x y, R x y -> S x y) -> StronglySorted R l -> StronglySorted S l.
Proof.
  intros HRS. induction 1 as [|x l Hl IH Hx]; constructor; [done|].
  eapply Forall_impl; [exact Hx|]. apply HRS.
Qed.

(** X26. The similarity of [radiance_crm_app.py] is never below that of
    [main.py], and is the same for two records that do not share a
    non-empty phone number. So on a list in which no record has the
    non-empty phone number of a record after it, the two versions of
    [merge_duplicate_clients] return the same records. *)
Theorem similarity_versions (ratio : string -> string -> Q) :
  (∀ c1 c2,
     (MainMerge.calculate_similarity ratio c1 c2
      <= AppMerge.calculate_similarity ratio c1 c2)%Q)
  ∧ (∀ c1 c2,
       telephone c1 = "" ∨ telephone c2 = "" ∨ telephone c1 <> telephone c2 ->
       AppMerge.calculate_similarity ratio c1 c2
       = MainMerge.calculate_similarity ratio c1 c2)
  ∧ (∀ clients threshold,
       StronglySorted
         (λ c1 c2, telephone c1 = "" ∨ telephone c2 = ""
                   ∨ telephone c1 <> telephone c2) clients ->
       AppMerge.merge_duplicate_clients ratio clients threshold
       = MainMerge.merge_duplicate_clients ratio clients threshold).
Proof.
  split_and!.
  - intros c1 c2.
    unfold AppMerge.calculate_similarity, MainMerge.calculate_similarity.
    cbv zeta. case_match; [apply py_max_ge_l|apply Qle_refl].
  - apply app_similarity_main.
  - intros clients threshold H.
    unfold AppMerge.merge_duplicate_clients,
      MainMerge.merge_duplicate_clients, merge_duplicate_clients.
    destruct clients as [|c0 clients0]; [done|].
    apply merge_loop_ext. rewrite enumerate_snd.
    eapply StronglySorted_weaken; [|exact H].
    intros c1 c2 Hc. unfold similar. by rewrite app_similarity_main.
Qed.

(** ** The files of a directory *)

Lemma fold_left_app_concat {A B} (g : B -> list A) (l : list B)
    (init : list A) :
  fold_left (λ acc x, acc ++ g x) l init = init ++ concat (g <$> l).
Proof.
  revert init. induction l as [|x l IH]; intros init; simpl.
  - by rewrite app_nil_r.
  - by rewrite IH, app_assoc.
Qed.

Lemma main_process_all_concat (dateparser_parse : string -> parsed)
    (docx_files : list (string * option (list table))) :
  MainExtract.process_all_docx_files dateparser_parse docx_files
  = concat ((λ f, MainExtract.extract_clients_from_docx dateparser_parse
                    f.1 f.2)
            <$> filter (λ f, negb (String.prefix "~$" f.1)) docx_files).
Proof.
  unfold MainExtract.process_all_docx_files. cbv zeta.
  by rewrite (fold_left_app_concat
                (λ f, MainExtract.extract_clients_from_docx dateparser_parse
                        f.1 f.2)).
Qed.

Lemma app_process_all_concat (dateparser_parse : string -> parsed)
    (current_year : Z)
    (docx_files : list (string * option (list (list table)))) :
  AppExtract.process_all_docx_files dateparser_parse current_year docx_files
  = concat ((λ f, AppExtract.extract_clients_from_docx dateparser_parse
                    current_year f.1 f.2) <$> docx_files).
Proof.
  unfold AppExtract.process_all_docx_files.
  by rewrite (fold_left_app_concat
                (λ f, AppExtract.extract_clients_from_docx dateparser_parse
                        current_year f.1 f.2)).
Qed.

Lemma main_extract_source (dateparser_parse : string -> parsed)
    (basename : string) (doc : option (list table)) :
  Forall (λ c, source_file c = basename)
    (MainExtract.extract_clients_from_docx dateparser_parse basename doc).
Proof.
  destruct doc as [body|]; [|constructor]. simpl.
  apply fold_left_Forall; [|constructor].
  intros acc t Hacc. unfold MainExtract.do_table.
  apply fold_left_Forall; [|done].
  intros acc' r Hacc'. unfold MainExtract.do_row.
  destruct r as [|first others]; [done|]. case_match; [done|].
  destruct (add_clients_new basename
              (split_clients_in_cell (flatten_cell_content first))
              (sorted_list
                 (list_to_set
                    (MainExtract.collect_dates dateparser_parse others [])))
              acc')
    as (new & -> & _ & Hnew).
  apply Forall_app. split; [done|].
  eapply Forall_impl; [exact Hnew|]. by intros c (_ & ? & _).
Qed.

Lemma main_process_all_origin (dateparser_parse : string -> parsed)
    (docx_files : list (string * option (list table))) (c : client) :
  c ∈ MainExtract.process_all_docx_files dateparser_parse docx_files ->
  ∃ doc, (source_file c, doc) ∈ docx_files
         ∧ String.prefix "~$" (source_file c) = false
         ∧ c ∈ MainExtract.extract_clients_from_docx dateparser_parse
                 (source_file c) doc.
Proof.
  rewrite main_process_all_concat, elem_of_concat.
  intros (l & (f & -> & Hf)%list_elem_of_fmap & Hc).
  apply list_elem_of_filter in Hf as [Hname Hf].
  pose proof (main_extract_source dateparser_parse f.1 f.2) as Hsrc.
  rewrite Forall_forall in Hsrc. rewrite (Hsrc c Hc).
  exists f.2. split_and!; [by destruct f| |done].
  by destruct (String.prefix "~$" f.1).
Qed.

(** X27. [process_all_docx_files] treats the files one by one: what it
    returns for two lists of files put end to end is what it returns for
    each, put end to end, and a file that cannot be read adds nothing. In
    [main.py] a file whose name starts with [~$] adds nothing either, and
    every record returned bears the name of a file of the list that does
    not start with [~$] and is a record extracted from that file; in
    [radiance_crm_app.py] every record bears the name of a file of the
    list, whatever the name. *)
Theorem process_all_docx_files_files (dateparser_parse : string -> parsed)
    (current_year : Z) :
  (∀ files more,
     MainExtract.process_all_docx_files dateparser_parse (files ++ more)
     = MainExtract.process_all_docx_files dateparser_parse files
       ++ MainExtract.process_all_docx_files dateparser_parse more)
  ∧ (∀ files more,
       AppExtract.process_all_docx_files dateparser_parse current_year
         (files ++ more)
       = AppExtract.process_all_docx_files dateparser_parse current_year files
         ++ AppExtract.process_all_docx_files dateparser_parse current_year
              more)
  ∧ (∀ name files,
       MainExtract.process_all_docx_files dateparser_parse
         ((name, None) :: files)
       = MainExtract.process_all_docx_files dateparser_parse files)
  ∧ (∀ name files,
       AppExtract.process_all_docx_files dateparser_parse current_year
         ((name, None) :: files)
       = AppExtract.process_all_docx_files dateparser_parse current_year
           files)
  ∧ (∀ name doc files,
       String.prefix "~$" name = true ->
       MainExtract.process_all_docx_files dateparser_parse
         ((name, doc) :: files)
       = MainExtract.process_all_docx_files dateparser_parse files)
  ∧ (∀ files c,
       c ∈ MainExtract.process_all_docx_files dateparser_parse files ->
       ∃ doc, (source_file c, doc) ∈ files
              ∧ String.prefix "~$" (source_file c) = false
              ∧ c ∈ MainExtract.extract_clients_from_docx dateparser_parse
                      (source_file c) doc)
  ∧ (∀ files c,
       c ∈ AppExtract.process_all_docx_files dateparser_parse current_year
             files ->
       ∃ doc, (source_file c, doc) ∈ files
              ∧ c ∈ AppExtract.extract_clients_from_docx dateparser_parse
                      current_year (source_file c) doc).
Proof.
  split_and!.
  - intros files more.
    by rewrite !main_process_all_concat, filter_app, fmap_app, concat_app.
  - intros files more.
    by rewrite !app_process_all_concat, fmap_app, concat_app.
  - intros name files. rewrite !main_process_all_concat, filter_cons.
    case_decide; [|done]. by rewrite fmap_cons.
  - intros name files. by rewrite !app_process_all_concat, fmap_cons.
  - intros name doc files Hname.
    rewrite !main_process_all_concat, filter_cons.
    rewrite decide_False; [done|]. cbn [fst]. rewrite Hname. by intros [].
  - apply main_process_all_origin.
  - intros files c. rewrite app_process_all_concat, elem_of_concat.
    intros (l & (f & -> & Hf)%list_elem_of_fmap & Hc).
    pose proof (app_extract_ok dateparser_parse current_year f.1 f.2) as Hok.
    rewrite Forall_forall in Hok.
    destruct (Hok c Hc) as (_ & _ & _ & _ & _ & _ & _ & Hsrc).
    rewrite Hsrc. exists f.2. split; [by destruct f|done].
Qed.

(** X28. Where the merged records of [main.py] come from. Every merged
    record of the pipeline has a source file; each of its source files is
    the name of one of the files given, not one that starts with [~$]; and
    each of its dates was extracted from one of its source files. *)
Theorem pipeline_provenance
    (dateparser_parse : string -> parsed) (ratio : string -> string -> Q)
    (docx_files : list (string * option (list table))) (threshold : Z)
    (m : Merged.t) :
  m ∈ MainMerge.merge_duplicate_clients ratio
        (MainExtract.process_all_docx_files dateparser_parse docx_files)
        threshold ->
  (∃ f, f ∈ Merged.source_files m)
  ∧ (∀ f, f ∈ Merged.source_files m ->
       String.prefix "~$" f = false ∧ ∃ doc, (f, doc) ∈ docx_files)
  ∧ (∀ d, d ∈ Merged.dates m ->
       ∃ f doc c,
         f ∈ Merged.source_files m ∧ (f, doc) ∈ docx_files
         ∧ c ∈ MainExtract.extract_clients_from_docx dateparser_parse f doc
         ∧ d ∈ dates c).
Proof.
  intros Hm. unfold MainMerge.merge_duplicate_clients in Hm.
  set (sim := MainMerge.calculate_similarity ratio) in *.
  set (all_clients :=
         MainExtract.process_all_docx_files dateparser_parse docx_files) in *.
  destruct (merged_from_cluster sim threshold all_clients m Hm)
    as (cl & Hcl & -> & Hseed).
  assert (Hmem : ∀ x, x ∈ members cl -> x.2 ∈ all_clients).
  { intros x Hx.
    destruct (clusters_partition sim threshold all_clients) as [Hperm _].
    rewrite <- (enumerate_snd all_clients). apply list_elem_of_fmap_2.
    rewrite <- Hperm. apply elem_of_concat. exists (members cl).
    split; [by apply list_elem_of_fmap_2|done]. }
  split_and!.
  - exists (source_file cl.1.2). apply cluster_record_sources.
    exists cl.1. split; [by left|done].
  - intros f (x & Hx & ->)%cluster_record_sources.
    destruct (main_process_all_origin _ _ _ (Hmem x Hx))
      as (doc & Hdoc & Hname & _).
    split; [done|by exists doc].
  - intros d (x & Hx & Hd)%cluster_record_dates.
    destruct (main_process_all_origin _ _ _ (Hmem x Hx))
      as (doc & Hdoc & _ & Hc).
    exists (source_file x.2), doc, x.2. split_and!; try done.
    apply cluster_record_sources. by exists x.
Qed.

(** ** The further properties on the examples *)

Lemma is_valid_name_sound_witness :
  is_valid_name "12/03/2024" = false
  ∧ (2 <= String.length (Py.strip "Dupont Marie"))%nat.
Proof.
  split.
  - apply (proj1 (is_valid_name_sound "12/03/2024")).
    unfold all_chars, chars. cbn [list_ascii_of_string].
    repeat constructor.
  - apply (proj2 (is_valid_name_sound "Dupont Marie")). reflexivity.
Defined.

Lemma parse_name_shape_witness : parse_name "12/03/2024" = ("", "", "").
Proof.
  pose proof (parse_name_shape "12/03/2024") as H.
  destruct (parse_name "12/03/2024") as [[nom prenom] telephone].
  destruct H as (_ & _ & _ & _ & H).
  destruct H as (-> & -> & ->); reflexivity.
Defined.

Lemma split_clients_in_cell_fragments_witness :
  split_clients_in_cell "Dupont Marie" = ["Dupont Marie"].
Proof.
  apply (proj1 (proj2 split_clients_in_cell_fragments) "Dupont Marie").
  - discriminate.
  - reflexivity.
  - unfold no_char, chars. cbn [list_ascii_of_string]. repeat constructor.
Defined.

Lemma date_parts_tokens_witness : date_parts "12/03/2024" = ["12/03/2024"].
Proof.
  apply (proj2 date_parts_tokens "12/03/2024").
  - discriminate.
  - reflexivity.
  - unfold no_char, chars. cbn [list_ascii_of_string]. repeat constructor.
Defined.

Lemma merged_dates_union_witness :
  ∃ m, m ∈ merge_duplicate_clients
             (AppMerge.calculate_similarity Fuzz.indel_ratio) FUZZY_THRESHOLD
             example_clients
       ∧ "12/03/2024" ∈ Merged.dates m.
Proof.
  apply (proj1 (proj2 (merged_dates_union
                         (AppMerge.calculate_similarity Fuzz.indel_ratio)
                         FUZZY_THRESHOLD example_clients))
           dupont "12/03/2024").
  - apply list_elem_of_further, list_elem_of_here.
  - apply list_elem_of_here.
Defined.

Lemma merged_phone_longest_witness :
  ∃ pre x post,
    (members ((0%nat, dupon), [(1%nat, dupont)])).*2 = pre ++ x :: post
    ∧ Merged.telephone (cluster_record ((0%nat, dupon), [(1%nat, dupont)]))
      = telephone x
    ∧ Forall (λ y, (String.length (telephone y)
                    < String.length (telephone x))%nat) pre
    ∧ Forall (λ y, (String.length (telephone y)
                    <= String.length (telephone x))%nat) post.
Proof.
  apply (merged_phone_longest
           (AppMerge.calculate_similarity Fuzz.indel_ratio) FUZZY_THRESHOLD
           example_clients 0%nat); by vm_compute.
Defined.

Lemma merge_extremes_witness :
  merge_duplicate_clients (MainMerge.calculate_similarity Fuzz.indel_ratio)
    FUZZY_THRESHOLD [dupont; martin]
  = [finish (seed dupont); finish (seed martin)]
  ∧ ∃ m, merge_duplicate_clients
           (AppMerge.calculate_similarity Fuzz.indel_ratio) FUZZY_THRESHOLD
           [dupont; martin] = [m]
         ∧ Merged.nom m = "Dupont" ∧ Merged.prenom m = "Marie"
         ∧ ∀ d, d ∈ Merged.dates m
                <-> ∃ x, x ∈ [dupont; martin] ∧ d ∈ dates x.
Proof.
  split.
  - apply (proj1 (merge_extremes
                    (MainMerge.calculate_similarity Fuzz.indel_ratio)
                    FUZZY_THRESHOLD) [dupont; martin]).
    repeat constructor.
  - apply (proj2 (merge_extremes
                    (AppMerge.calculate_similarity Fuzz.indel_ratio)
                    FUZZY_THRESHOLD) dupont [martin]).
    intros c2 Hc2. apply list_elem_of_singleton in Hc2. rewrite Hc2.
    by vm_compute.
Defined.

Lemma merge_count_witness :
  ∃ m ms, merge_duplicate_clients
            (AppMerge.calculate_similarity Fuzz.indel_ratio) FUZZY_THRESHOLD
            example_clients = m :: ms
          ∧ Merged.nom m = "Dupon" ∧ Merged.prenom m = "Marie".
Proof.
  apply (proj2 (proj2 (merge_count
                         (AppMerge.calculate_similarity Fuzz.indel_ratio)
                         FUZZY_THRESHOLD example_clients))
           dupon [dupont; martin]).
  reflexivity.
Defined.

Lemma loyal_clients_sessions_witness :
  ∃ d1 d2, d1 ∈ Merged.dates example_merged
           ∧ d2 ∈ Merged.dates example_merged ∧ d1 <> d2.
Proof.
  apply (proj1 (proj2 (loyal_clients_sessions
                         (MainMerge.calculate_similarity Fuzz.indel_ratio)
                         FUZZY_THRESHOLD [example_extracted]))
           example_merged).
  vm_compute. apply list_elem_of_here.
Defined.

Lemma parse_dates_agree_witness :
  "12/03/2024" ∈ App.parse_dates dateparser_example 2024 "12/03/2024"
  <-> "12/03/2024" ∈ Main.parse_dates dateparser_example "12/03/2024".
Proof.
  apply (proj1 (parse_dates_agree dateparser_example 2024 "12/03/2024")).
  intros t Ht.
  replace (date_parts "12/03/2024") with ["12/03/2024"] in Ht
    by reflexivity.
  apply list_elem_of_singleton in Ht. rewrite Ht. by exists march_12.
Defined.

Lemma app_table_records_witness :
  AppExtract.do_table dateparser_example 2024 "a.docx"
    [ [Str "Nom"; Str "Date"] ] [] = []
  ∧ AppExtract.do_table dateparser_example 2024 "a.docx"
      example_dates_table [] = [].
Proof.
  split.
  - apply (proj1 (proj2 (app_table_records dateparser_example 2024 "a.docx"
                           [ [Str "Nom"; Str "Date"] ] []))).
    simpl. lia.
  - apply (proj2 (proj2 (app_table_records dateparser_example 2024 "a.docx"
                           example_dates_table []))).
    reflexivity.
Defined.

Lemma main_row_records_witness :
  dates example_extracted = dates martin_extracted.
Proof.
  apply (proj1 (main_row_records dateparser_example "a.docx" example_row)).
  - vm_compute. apply list_elem_of_here.
  - vm_compute. apply list_elem_of_further, list_elem_of_here.
Defined.

Lemma app_pipeline_record_invariant_witness :
  Merged.nom example_app_merged <> ""
  ∧ Forall date_in_range (Merged.dates example_app_merged)
  ∧ NoDup (Merged.dates example_app_merged)
  ∧ Merged.nb_seances example_app_merged
    = Z.of_nat (length (Merged.dates example_app_merged)).
Proof.
  apply (app_pipeline_record_invariant dateparser_example 2024
           Fuzz.indel_ratio example_app_files FUZZY_THRESHOLD
           example_app_merged).
  vm_compute. apply list_elem_of_here.
Defined.

Lemma export_order_witness :
  ∃ ordered,
    Exports.to_csv_row <$> [with_count 3; example_merged; with_count 2]
    = Exports.to_csv_row <$> ordered
    ∧ ordered ≡ₚ example_loyal
    ∧ Sorted export_le ordered.
Proof.
  destruct (proj2 (proj2 (export_order example_loyal))
              (Exports.to_csv_row
                 <$> [with_count 3; example_merged; with_count 2])
              eq_refl)
    as (ordered & Hrows & Hperm & Hsorted & _).
  by exists ordered.
Defined.

Lemma odoo_exports_agree_witness :
  Exports.export_odoo_csv example_loyal true
  = Exports.export_to_odoo_format example_loyal
  ∧ ∀ rows, Exports.export_to_odoo_format example_loyal = Some rows ->
      length rows = length example_loyal
      ∧ Forall (λ r, Exports.Name r <> "" ∧ stripped (Exports.Name r)) rows.
Proof.
  apply (odoo_exports_agree example_loyal).
  repeat constructor; discriminate.
Defined.



Lemma display_statistics_report_witness :
  Stats.total example_report = length example_loyal
  ∧ NoDup (Stats.distribution example_report).*1
  ∧ StronglySorted Stats.descending (Stats.distribution example_report).*1
  ∧ (∀ n k, (n, k) ∈ Stats.distribution example_report
            <-> k = with_sessions n example_loyal ∧ (0 < k)%nat)
  ∧ sum_list (Stats.distribution example_report).*2 = length example_loyal
  ∧ (Stats.with_phone example_report <= Stats.total example_report)%nat
  ∧ 0 <= Stats.percent example_report <= 100
  ∧ (length (Stats.top_clients example_report) <= 5)%nat.
Proof.
  apply (proj2 (display_statistics_report example_loyal) example_report).
  by vm_compute.
Defined.

Lemma top_clients_order_witness :
  ∃ rest,
    Stats.top_clients example_report ++ rest ≡ₚ example_loyal
    ∧ length (Stats.top_clients example_report)
      = Nat.min 5 (length example_loyal)
    ∧ StronglySorted (λ a b, Merged.nb_seances b <= Merged.nb_seances a)
        (Stats.top_clients example_report ++ rest)
    ∧ (∀ t r, t ∈ Stats.top_clients example_report -> r ∈ rest ->
              Merged.nb_seances r <= Merged.nb_seances t)
    ∧ ∀ n, filter (λ x, Merged.nb_seances x = n)
             (Stats.top_clients example_report ++ rest)
           = filter (λ x, Merged.nb_seances x = n) example_loyal.
Proof.
  apply (top_clients_order example_loyal example_report). by vm_compute.
Defined.

Lemma main_outcome_witness :
  ∃ rows odoo_rows,
    Exports.export_to_csv [example_merged] = Some rows
    ∧ Exports.export_to_odoo_format [example_merged] = Some odoo_rows
    ∧ rows <> []
    ∧ length odoo_rows = length rows
    ∧ Forall (λ r, Exports.Nom r <> "" ∧ 2 <= Exports.Nombre_de_seances r)
        rows
    ∧ Forall (λ r, Exports.Name r <> "") odoo_rows.
Proof.
  destruct (proj2 (proj2 (main_outcome dateparser_example Fuzz.indel_ratio
                            example_files))
              (Exports.export_to_csv [example_merged])
              (Exports.export_to_odoo_format [example_merged]))
    as (rows & odoo_rows & H1 & H2 & H3 & _ & H4 & H5 & H6);
    [by vm_compute|].
  by exists rows, odoo_rows.
Defined.

Lemma similarity_versions_witness :
  AppMerge.calculate_similarity Fuzz.indel_ratio dupon dupont
  = MainMerge.calculate_similarity Fuzz.indel_ratio dupon dupont
  ∧ AppMerge.merge_duplicate_clients Fuzz.indel_ratio [dupon; dupont]
      FUZZY_THRESHOLD
    = MainMerge.merge_duplicate_clients Fuzz.indel_ratio [dupon; dupont]
        FUZZY_THRESHOLD.
Proof.
  destruct (similarity_versions Fuzz.indel_ratio) as (_ & H2 & H3). split.
  - apply (H2 dupon dupont). left. reflexivity.
  - apply (H3 [dupon; dupont] FUZZY_THRESHOLD).
    repeat constructor.
Defined.

Lemma process_all_docx_files_files_witness :
  MainExtract.process_all_docx_files dateparser_example
    (("~$a.docx", Some example_body) :: example_files)
  = MainExtract.process_all_docx_files dateparser_example example_files
  ∧ ∃ doc, (source_file example_extracted, doc) ∈ example_files
           ∧ String.prefix "~$" (source_file example_extracted) = false
           ∧ example_extracted
             ∈ MainExtract.extract_clients_from_docx dateparser_example
                 (source_file example_extracted) doc.
Proof.
  destruct (process_all_docx_files_files dateparser_example 2024)
    as (_ & _ & _ & _ & H5 & H6 & _).
  split.
  - apply (H5 "~$a.docx" (Some example_body) example_files). reflexivity.
  - apply (H6 example_files example_extracted).
    vm_compute. apply list_elem_of_here.
Defined.

Lemma pipeline_provenance_witness :
  (∃ f, f ∈ Merged.source_files example_merged)
  ∧ (∀ f, f ∈ Merged.source_files example_merged ->
       String.prefix "~$" f = false ∧ ∃ doc, (f, doc) ∈ example_files)
  ∧ (∀ d, d ∈ Merged.dates example_merged ->
       ∃ f doc c,
         f ∈ Merged.source_files example_merged ∧ (f, doc) ∈ example_files
         ∧ c ∈ MainExtract.extract_clients_from_docx dateparser_example f doc
         ∧ d ∈ dates c).
Proof.
  apply (pipeline_provenance dateparser_example Fuzz.indel_ratio
           example_files FUZZY_THRESHOLD example_merged).
  vm_compute. apply list_elem_of_here.
Defined.
